(** * FormEase: field matching, fill strategies and the fill run

    A shallow embedding of the matching and filling engine of the
    extension's content script (src/content.js) and of the value
    sanitiser of its file parser (src/fileParser.js).

    Conventions of the model.
    - A JavaScript string is a [string]; each character stands for one
      code unit in the range 0..255 (ASCII and Latin-1).  White space,
      digits and lower-casing are the ECMAScript ones restricted to
      that range.
    - Integral JavaScript numbers (priorities, scores, counters, clock
      readings, maxLength) are [Z].
    - A JavaScript exception is the [Throw] case of [Result]; effectful
      code is written in a state-and-exception monad over the page.
    - Numbers read from text ([parseFloat], [JSON.parse]) are doubles,
      each written as its exact decimal.
    - Assigning to [element.value] runs the value sanitization of the
      control, by its kind; a file input throws for a text that is not
      empty.
    - The lookup of a control's label may throw; detection then writes
      a notice to the console and passes the control over. *)

From Stdlib Require Import ZArith Lia Ascii Sorted.
From stdpp Require Import base list strings gmap pretty.

Local Open Scope Z_scope.

(** ** JavaScript strings *)

Module Js.

Definition code (c : ascii) : N := N_of_ascii c.

(** ECMAScript WhiteSpace and LineTerminator code units below 256:
    TAB, LF, VT, FF, CR, SP and NBSP.  This is the set removed by
    [String.prototype.trim] and matched by the regular expression
    class [\s]. *)
Definition isWhiteSpace (c : ascii) : bool :=
  let n := code c in
  ((9 <=? n) && (n <=? 13) || (n =? 32) || (n =? 160))%N.

(** The regular expression class [\d]. *)
Definition isDigit (c : ascii) : bool :=
  let n := code c in ((48 <=? n) && (n <=? 57))%N.

Definition lowerChar (c : ascii) : ascii :=
  let n := code c in
  if ((65 <=? n) && (n <=? 90)
      || (192 <=? n) && (n <=? 222) && negb (n =? 215))%N
  then ascii_of_N (n + 32) else c.

Fixpoint toLowerCase (s : string) : string :=
  match s with
  | EmptyString => EmptyString
  | String c r => String (lowerChar c) (toLowerCase r)
  end.

Definition isEmpty (s : string) : bool :=
  match s with EmptyString => true | _ => false end.

Fixpoint trimStart (s : string) : string :=
  match s with
  | EmptyString => EmptyString
  | String c r => if isWhiteSpace c then trimStart r else s
  end.

Fixpoint trimEnd (s : string) : string :=
  match s with
  | EmptyString => EmptyString
  | String c r =>
      let r' := trimEnd r in
      if isWhiteSpace c && isEmpty r' then EmptyString else String c r'
  end.

Definition trim (s : string) : string := trimEnd (trimStart s).

(** [s.substring(0, n)] for a non-negative integral [n]. *)
Fixpoint substring0 (n : nat) (s : string) : string :=
  match n, s with
  | S k, String c r => String c (substring0 k r)
  | _, _ => EmptyString
  end.

Definition len (s : string) : Z := Z.of_nat (String.length s).

Definition startsWith (s p : string) : bool := String.prefix p s.

(** [s.includes(t)]. *)
Fixpoint includes (s t : string) : bool :=
  String.prefix t s ||
  match s with
  | EmptyString => false
  | String _ r => includes r t
  end.

(** [s.replace(/[...]/g, '')]: delete every character of a class. *)
Fixpoint removeAll (cls : ascii -> bool) (s : string) : string :=
  match s with
  | EmptyString => EmptyString
  | String c r =>
      if cls c then removeAll cls r else String c (removeAll cls r)
  end.

(** [s.split(/\s+/)]: the pieces between maximal runs of white space;
    a leading or trailing run leaves an empty first or last piece. *)
Fixpoint splitWs_go (inRun : bool) (cur : string) (s : string) : list string :=
  match s with
  | EmptyString => [String.rev cur]
  | String c r =>
      if isWhiteSpace c
      then (if inRun then splitWs_go true cur r
            else String.rev cur :: splitWs_go true EmptyString r)
      else splitWs_go false (String c cur) r
  end.
Definition splitWs (s : string) : list string := splitWs_go false EmptyString s.

(** [parts.join(sep)]. *)
Fixpoint join (sep : string) (parts : list string) : string :=
  match parts with
  | [] => ""
  | [p] => p
  | p :: rest => p +:+ sep +:+ join sep rest
  end.

Definition chars (s : string) : list ascii := String.list_ascii_of_string s.

(** A string starts clean when it is empty or its first character is
    not white space. *)
Definition startsClean (s : string) : Prop :=
  match s with
  | EmptyString => True
  | String c _ => isWhiteSpace c = false
  end.

End Js.

(** ** More string operations *)

Module Text.

(** [s.split(c)] for a separator of one character: the pieces between its
    occurrences, so one piece more than there are occurrences. *)
Fixpoint splitOn (c : ascii) (s : string) : list string :=
  match s with
  | EmptyString => [EmptyString]
  | String x r =>
      match splitOn c r with
      | piece :: rest =>
          if Ascii.eqb x c then EmptyString :: piece :: rest
          else String x piece :: rest
      | [] => [EmptyString]
      end
  end.

(** [s.indexOf(c)], with [None] for -1. *)
Fixpoint indexOf (c : ascii) (s : string) : option nat :=
  match s with
  | EmptyString => None
  | String x r =>
      if Ascii.eqb x c then Some O
      else match indexOf c r with
           | Some n => Some (S n)
           | None => None
           end
  end.

(** [s.substring(n)]. *)
Fixpoint drop (n : nat) (s : string) : string :=
  match n, s with
  | S k, String _ r => drop k r
  | _, _ => s
  end.

(** [s.slice(0, -1)]. *)
Fixpoint dropLast (s : string) : string :=
  match s with
  | EmptyString => EmptyString
  | String c r => if Js.isEmpty r then EmptyString else String c (dropLast r)
  end.

Fixpoint lastChar (s : string) : option ascii :=
  match s with
  | EmptyString => None
  | String c r => if Js.isEmpty r then Some c else lastChar r
  end.

Definition firstChar (s : string) : option ascii :=
  match s with
  | EmptyString => None
  | String c _ => Some c
  end.

(** The number of matches of a one-character pattern. *)
Fixpoint countChar (c : ascii) (s : string) : nat :=
  match s with
  | EmptyString => O
  | String x r => if Ascii.eqb x c then S (countChar c r) else countChar c r
  end.

Definition hasChar (cls : ascii -> bool) (s : string) : bool :=
  existsb cls (Js.chars s).

(** [s.replace(/\r\n/g, '\n')] and [s.replace(/\r/g, '\n')]. *)
Fixpoint replaceCRLF (s : string) : string :=
  match s with
  | EmptyString => EmptyString
  | String c r =>
      match r with
      | String d r' =>
          if Ascii.eqb c "013" && Ascii.eqb d "010" then String "010" (replaceCRLF r')
          else String c (replaceCRLF r)
      | EmptyString => String c EmptyString
      end
  end.
Fixpoint replaceCR (s : string) : string :=
  match s with
  | EmptyString => EmptyString
  | String c r => String (if Ascii.eqb c "013" then "010"%char else c) (replaceCR r)
  end.
Definition normalizeLines (s : string) : string := replaceCR (replaceCRLF s).

(** [obj[key] = value] for a string [value] on an object that an object
    literal made: the name [__proto__] is the accessor of the prototype,
    whose setter ignores a string, so that no property is made; any other
    name becomes, or stays, a property of the object itself. *)
Definition assign (key value : string) (obj : gmap string string) : gmap string string :=
  if String.eqb key "__proto__" then obj else <[key := value]> obj.

End Text.

(** ** File parser: value sanitisation (src/fileParser.js) *)

Module FileParser.

(** The markup characters deleted first: less-than, greater-than,
    apostrophe, double quote and ampersand. *)
Definition isMarkupChar (c : ascii) : bool :=
  let n := Js.code c in
  ((n =? 60) || (n =? 62) || (n =? 39) || (n =? 34) || (n =? 38))%N.

Definition isNull (c : ascii) : bool := (Js.code c =? 0)%N.

Definition sanitizeStringValue (value : string) : string :=
  Js.substring0 1000
    (Js.trim (Js.removeAll isNull (Js.removeAll isMarkupChar value))).

End FileParser.

(** ** Field descriptors, alias tables and matching (src/content.js) *)

(** One detected control, as built by [extractFieldMetadata].  [element]
    is the reference to the control: its position in the document.  The
    descriptor's copies of the control's value, required flag and
    maxLength are read by no function below and are left out. *)
Record Field := {
  fieldId : string;
  element : nat;
  fieldType : string;
  name : string;
  htmlId : string;
  placeholder : string;
  label : string;
  ariaLabel : string;
  title : string;
  dataName : string;
  identifier : string
}.

Record Mapping := {
  aliases : list string;
  priority : Z
}.

(** A mapping object: its entries in the order [Object.keys] enumerates
    them. *)
Definition Table := list (string * Mapping).

(** The candidate [findBestMatch] returns. *)
Record BestMatch := {
  key : string;
  keyValue : string;
  score : Z
}.

(** An element of the array [mapFieldsToData] returns. *)
Record MappedField := {
  field : Field;
  dataField : string;
  value : string;
  confidence : Z
}.

Module FieldMapper.

Definition mk (al : list string) (p : Z) : Mapping :=
  {| aliases := al; priority := p |}.

Definition initializeDefaultMappings : Table :=
  [ ("firstName", mk ["firstname"; "first_name"; "fname"; "given_name"; "first-name"; "first name"; "name first"] 10);
    ("lastName", mk ["lastname"; "last_name"; "lname"; "surname"; "last-name"; "last name"; "family name"] 10);
    ("email", mk ["email"; "email_address"; "e_mail"; "e-mail"; "mail"; "email address"] 10);
    ("phone", mk ["phone"; "telephone"; "tel"; "phone_number"; "mobile"; "cell"; "phone number"] 9);
    ("street", mk ["street"; "address"; "address1"; "street_address"; "addr1"; "street address"] 9);
    ("city", mk ["city"; "town"; "locality"] 9);
    ("state", mk ["state"; "province"; "region"] 9);
    ("zipCode", mk ["zip"; "zipcode"; "zip_code"; "postal"; "postal_code"; "postcode"; "zip code"] 9);
    ("country", mk ["country"; "nation"] 8);
    ("fullName", mk ["full name"; "fullname"; "full_name"; "name"; "your name"; "complete name"] 10);
    ("dateOfBirth", mk ["date of birth"; "birth date"; "birthday"; "dob"; "birthdate"; "date birth"] 9);
    ("gender", mk ["gender"; "sex"] 8);
    ("mobile", mk ["mobile"; "mobile_number"; "mobile number"; "cell"; "cellular"] 9);
    ("linkedIn", mk ["linkedin"; "linkedin_profile"; "linkedin profile"] 7) ].

(** [table[k]]. *)
Fixpoint get (t : Table) (k : string) : option Mapping :=
  match t with
  | [] => None
  | (k', m) :: r => if String.eqb k' k then Some m else get r k
  end.

(** [Object.keys(table)]. *)
Definition keys (t : Table) : list string := map fst t.

(** [updateMappings]: the storage format gives each data key its alias
    list; the priority is the built-in one of that key, else 8. *)
Definition updateMappings (fieldMappings : list (string * list string)) : Table :=
  map (fun '(fieldType, al) =>
         let priority :=
           match get initializeDefaultMappings fieldType with
           | Some d => priority d
           | None => 8
           end in
         (fieldType, mk (map Js.toLowerCase al) priority))
      fieldMappings.

(** [getActiveMappings]: the custom table when it has a key. *)
Definition getActiveMappings (currentMappings : Table) : Table :=
  match currentMappings with
  | [] => initializeDefaultMappings
  | _ => currentMappings
  end.

Definition calculateSmartMatchScore (f : Field) (dataKey : string) (m : Mapping) : Z :=
  let label := Js.toLowerCase (label f) in
  let identifier := Js.toLowerCase (identifier f) in
  let hit (inLabel inIdentifier : list string) : bool :=
    existsb (Js.includes label) inLabel || existsb (Js.includes identifier) inIdentifier in
  let nine (b : bool) : Z := if b then priority m * 9 else 0 in
  if String.eqb dataKey "fullName" then
    nine (hit ["full name"; "name"] ["full name"; "name"])
  else if String.eqb dataKey "firstName" then
    nine (hit ["first name"; "first"] ["first name"; "first"])
  else if String.eqb dataKey "lastName" then
    nine (hit ["last name"; "last"] ["last name"; "last"])
  else if String.eqb dataKey "email" then
    nine (hit ["email"] ["email"])
  else if String.eqb dataKey "phone" then
    nine (hit ["phone"; "mobile"; "number"] ["phone"; "mobile"])
  else if String.eqb dataKey "dateOfBirth" then
    nine (hit ["birth"; "date"] ["birth"; "date"])
  else if String.eqb dataKey "gender" then
    nine (hit ["gender"; "male"; "female"] ["gender"; "choose"])
  else if String.eqb dataKey "mobile" then
    nine (hit ["mobile"; "cell"] ["mobile"; "cell"])
  else if String.eqb dataKey "linkedIn" then
    nine (hit ["linkedin"; "profile"] ["linkedin"; "profile"])
  else 0.

Definition hasWordMatch (text searchTerm : string) : bool :=
  if Js.isEmpty text || Js.isEmpty searchTerm then false
  else
    let textWords := Js.splitWs (Js.toLowerCase text) in
    let searchWords := Js.splitWs (Js.toLowerCase searchTerm) in
    forallb (fun searchWord =>
               existsb (fun textWord =>
                          Js.includes textWord searchWord
                          || Js.includes searchWord textWord)
                       textWords)
            searchWords.

(** The four tests [calculateMatchScore] makes on one alias. *)
Definition isExact (f : Field) (alias : string) : bool :=
  let aliasLower := Js.toLowerCase alias in
  String.eqb (Js.toLowerCase (name f)) aliasLower
  || String.eqb (Js.toLowerCase (htmlId f)) aliasLower
  || String.eqb (Js.toLowerCase (label f)) aliasLower
  || String.eqb (Js.toLowerCase (ariaLabel f)) aliasLower.

(** The same test as a proposition: one of the four naming attributes
    equals the alias up to letter case. *)
Definition exactlyNamed (f : Field) (alias : string) : Prop :=
  Js.toLowerCase (name f) = Js.toLowerCase alias
  \/ Js.toLowerCase (htmlId f) = Js.toLowerCase alias
  \/ Js.toLowerCase (label f) = Js.toLowerCase alias
  \/ Js.toLowerCase (ariaLabel f) = Js.toLowerCase alias.

Definition inIdentifier (f : Field) (alias : string) : bool :=
  Js.includes (Js.toLowerCase (identifier f)) (Js.toLowerCase alias).

Definition inLabel (f : Field) (alias : string) : bool :=
  let aliasLower := Js.toLowerCase alias in
  Js.includes (Js.toLowerCase (label f)) aliasLower
  || Js.includes (Js.toLowerCase (ariaLabel f)) aliasLower.

Definition wordMatch (f : Field) (alias : string) : bool :=
  let aliasLower := Js.toLowerCase alias in
  hasWordMatch (Js.toLowerCase (label f)) aliasLower
  || hasWordMatch (Js.toLowerCase (ariaLabel f)) aliasLower.

(** The body of [mapping.aliases.forEach]. *)
Definition aliasStep (f : Field) (m : Mapping) (score : Z) (alias : string) : Z :=
  if isExact f alias then Z.max score (priority m * 10)
  else if inIdentifier f alias then Z.max score (priority m * 8)
  else if inLabel f alias then Z.max score (priority m * 6)
  else if wordMatch f alias then Z.max score (priority m * 7)
  else score.

Definition calculateMatchScore (f : Field) (dataKey : string) (activeMappings : Table) : Z :=
  match get activeMappings dataKey with
  | None => 0
  | Some mapping =>
      let smartScore := calculateSmartMatchScore f dataKey mapping in
      let score := if 0 <? smartScore then Z.max 0 smartScore else 0 in
      fold_left (aliasStep f mapping) (aliases mapping) score
  end.

(** [userData[dataKey]] when it is truthy: a string value is truthy
    when it is not empty. *)
Definition truthy (userData : gmap string string) (dataKey : string) : option string :=
  match userData !! dataKey with
  | Some v => if Js.isEmpty v then None else Some v
  | None => None
  end.

(** The body of [Object.keys(activeMappings).forEach] in
    [findBestMatch]; the state is [(bestMatch, highestScore)]. *)
Definition bestStep (f : Field) (userData : gmap string string) (activeMappings : Table)
    (st : option BestMatch * Z) (dataKey : string) : option BestMatch * Z :=
  match truthy userData dataKey with
  | Some v =>
      let sc := calculateMatchScore f dataKey activeMappings in
      if snd st <? sc
      then (Some {| key := dataKey; keyValue := v; score := sc |}, sc)
      else st
  | None => st
  end.

Definition findBestMatch (f : Field) (userData : gmap string string)
    (activeMappings : Table) : option BestMatch :=
  fst (fold_left (bestStep f userData activeMappings) (keys activeMappings) (None, 0)).

(** The record without its keys of empty value. *)
Definition dropEmpty (userData : gmap string string) : gmap string string :=
  filter (fun kv => snd kv <> "") userData.

(** [m] is the first of the keys of highest score: the enumeration
    [ks] splits around [key m] so that every considered key before it
    scores less and every considered key after it scores no more. *)
Definition firstHighest (f : Field) (userData : gmap string string) (t : Table)
    (ks : list string) (m : BestMatch) : Prop :=
  exists before after,
    ks = before ++ key m :: after
    /\ (forall k, In k before -> is_Some (truthy userData k) ->
          calculateMatchScore f k t < score m)
    /\ (forall k, In k after -> is_Some (truthy userData k) ->
          calculateMatchScore f k t <= score m).

(** What holds of the state of [findBestMatch] after the keys [ks]. *)
Definition bestInv (f : Field) (userData : gmap string string) (t : Table)
    (ks : list string) (st : option BestMatch * Z) : Prop :=
  match fst st with
  | None =>
      snd st = 0
      /\ forall k, In k ks -> is_Some (truthy userData k) -> calculateMatchScore f k t <= 0
  | Some m =>
      snd st = score m /\ 0 < score m
      /\ score m = calculateMatchScore f (key m) t
      /\ truthy userData (key m) = Some (keyValue m)
      /\ firstHighest f userData t ks m
  end.

(** [Array.prototype.sort] with the comparator
    [(a, b) => b.confidence - a.confidence]: stable, descending. *)
Fixpoint insertByConfidence (x : MappedField) (l : list MappedField) : list MappedField :=
  match l with
  | [] => [x]
  | y :: r =>
      if confidence y - confidence x <=? 0 then x :: l
      else y :: insertByConfidence x r
  end.

Definition sortByConfidence (l : list MappedField) : list MappedField :=
  foldr insertByConfidence [] l.

Definition mapFieldsToData (currentMappings : Table) (detectedFields : list Field)
    (userData : gmap string string) : list MappedField :=
  let activeMappings := getActiveMappings currentMappings in
  sortByConfidence
    (omap (fun f =>
             match findBestMatch f userData activeMappings with
             | Some dataField =>
                 Some {| field := f; dataField := key dataField;
                         value := keyValue dataField;
                         confidence := score dataField |}
             | None => None
             end)
          detectedFields).

End FieldMapper.

(** ** JavaScript numbers read from text

    A number of the code is a double.  [Finite neg d e] stands for
    (-1)^neg * d * 10^e, and every double has such a decimal, since
    2^-k = 5^k * 10^-k.  [parseFloat] rounds the decimal it reads to the
    nearest double, ties to even, and gives an infinity beyond the
    largest double; comparison is that of the exact values; [toString]
    prints the decimal of fewest digits that reads back as the same
    double. *)

Inductive Number :=
| NaN
| Infinity (negative : bool)
| Finite (negative : bool) (digits : N) (exp10 : Z).

Module Num.

Definition isNaN (x : Number) : bool :=
  match x with NaN => true | _ => false end.

Definition isFinite (x : Number) : bool :=
  match x with Finite _ _ _ => true | _ => false end.

(** The integer nearest to a / b for b > 0, the even one of two. *)
Definition roundHalfEven (a b : Z) : Z :=
  let q := a / b in
  let r := a mod b in
  if 2 * r <? b then q
  else if b <? 2 * r then q + 1
  else if Z.even q then q else q + 1.

(** The integer l with 2^l <= a / b < 2^(l+1), for positive a and b. *)
Definition log2ratio (a b : Z) : Z :=
  let l := Z.log2 a - Z.log2 b in
  if (if 0 <=? l then b * 2 ^ l <=? a else b <=? a * 2 ^ (- l)) then l else l - 1.

(** The double nearest to d * 10^e for d > 0, as m * 2^q with m below
    2^53 and q at least -1074; [None] beyond the largest double, which is
    (2^53 - 1) * 2^971. *)
Definition nearestDouble (d : N) (e : Z) : option (Z * Z) :=
  let a := Z.of_N d * 10 ^ Z.max e 0 in
  let b := 10 ^ Z.max (- e) 0 in
  let q := Z.max (log2ratio a b - 52) (-1074) in
  let m :=
    if 0 <=? q then roundHalfEven a (b * 2 ^ q)
    else roundHalfEven (a * 2 ^ (- q)) b in
  let '(m, q) := if m =? 2 ^ 53 then (2 ^ 52, q + 1) else (m, q) in
  if 971 <? q then None else Some (m, q).

(** The decimal of m * 2^q. *)
Definition ofBinary (neg : bool) (m q : Z) : Number :=
  if 0 <=? q then Finite neg (Z.to_N (m * 2 ^ q)) 0
  else Finite neg (Z.to_N (m * 5 ^ (- q))) q.

(** The double nearest to (-1)^neg * d * 10^e. *)
Definition toDouble (neg : bool) (d : N) (e : Z) : Number :=
  if (d =? 0)%N then Finite neg 0 0
  else
    match nearestDouble d e with
    | Some (m, q) => ofBinary neg m q
    | None => Infinity neg
    end.

Definition round (x : Number) : Number :=
  match x with
  | Finite neg d e => toDouble neg d e
  | _ => x
  end.

Definition eqb (x y : Number) : bool :=
  match x, y with
  | NaN, NaN => true
  | Infinity nx, Infinity ny => Bool.eqb nx ny
  | Finite nx dx ex, Finite ny dy ey => Bool.eqb nx ny && (dx =? dy)%N && (ex =? ey)
  | _, _ => false
  end.

(** The longest prefix of decimal digits, and the rest. *)
Fixpoint spanDigits (s : string) : string * string :=
  match s with
  | String c r =>
      if Js.isDigit c then let '(d, t) := spanDigits r in (String c d, t)
      else (EmptyString, s)
  | EmptyString => (EmptyString, EmptyString)
  end.

Fixpoint digitsValue_go (acc : N) (s : string) : N :=
  match s with
  | EmptyString => acc
  | String c r => digitsValue_go (acc * 10 + (Js.code c - 48))%N r
  end.
Definition digitsValue (s : string) : N := digitsValue_go 0%N s.

Definition takeSign (s : string) : bool * string :=
  match s with
  | String "-" r => (true, r)
  | String "+" r => (false, r)
  | _ => (false, s)
  end.

Definition exponentPart (s : string) : Z :=
  match s with
  | String c r =>
      if (Js.code c =? 101)%N || (Js.code c =? 69)%N then
        let '(neg, r1) := takeSign r in
        let '(d, _) := spanDigits r1 in
        if Js.isEmpty d then 0
        else if neg then - Z.of_N (digitsValue d) else Z.of_N (digitsValue d)
      else 0
  | EmptyString => 0
  end.

(** [parseFloat(s)]: skip leading white space, then read the longest
    prefix that is a decimal literal, and round it to a double. *)
Definition parseFloat (s : string) : Number :=
  let '(neg, s1) := takeSign (Js.trimStart s) in
  if Js.startsWith s1 "Infinity" then Infinity neg
  else
    let '(ip, s2) := spanDigits s1 in
    let '(fp, s3) :=
      match s2 with
      | String "." r => spanDigits r
      | _ => (EmptyString, s2)
      end in
    if Js.isEmpty ip && Js.isEmpty fp then NaN
    else toDouble neg (digitsValue (ip +:+ fp)) (exponentPart s3 - Js.len fp).

(** The signed mantissas of two finite numbers over a common power of
    ten. *)
Definition signed (neg : bool) (d : N) : Z :=
  if neg then - Z.of_N d else Z.of_N d.
Definition aligned (d : Z) (e m : Z) : Z := d * 10 ^ (e - m).

(** [x < y] on numbers. *)
Definition lt (x y : Number) : bool :=
  match x, y with
  | NaN, _ | _, NaN => false
  | Infinity nx, Infinity ny => nx && negb ny
  | Infinity nx, Finite _ _ _ => nx
  | Finite _ _ _, Infinity ny => negb ny
  | Finite nx dx ex, Finite ny dy ey =>
      let m := Z.min ex ey in
      aligned (signed nx dx) ex m <? aligned (signed ny dy) ey m
  end.

(** [x > y]. *)
Definition gt (x y : Number) : bool := lt y x.

(** Trailing zeros of the mantissa move into the exponent. *)
Fixpoint normalize (fuel : nat) (d : N) (e : Z) : N * Z :=
  match fuel with
  | O => (d, e)
  | S k =>
      if (0 <? d)%N && (d mod 10 =? 0)%N then normalize k (d / 10)%N (e + 1)
      else (d, e)
  end.

Fixpoint zeros (n : nat) : string :=
  match n with O => EmptyString | S k => String "0" (zeros k) end.

Fixpoint dropFirst (n : nat) (s : string) : string :=
  match n, s with
  | S k, String _ r => dropFirst k r
  | _, _ => s
  end.

(** The digits of Number::toString for the double d * 10^e, d > 0: the
    decimal s * 10^e' of fewest digits [k] that rounds to the double,
    the one nearest to it when the two of [k] digits around it both do,
    and the even one when they are as near; [nd] is the number of digits
    of [d]. *)
Fixpoint shortest (fuel : nat) (k : Z) (neg : bool) (d : N) (e : Z) (nd : Z) : N * Z :=
  match fuel with
  | O => (d, e)
  | S fuel' =>
      if nd <=? k then (d, e)
      else
        let unit := 10 ^ (nd - k) in
        let lo := Z.of_N d / unit in
        let hi := lo + 1 in
        let r := Z.of_N d mod unit in
        let back (s : Z) : bool :=
          eqb (toDouble neg (Z.to_N s) (e + (nd - k))) (Finite neg d e) in
        let pick (s : Z) : N * Z := (Z.to_N s, e + (nd - k)) in
        if back lo && back hi then
          (if 2 * r <? unit then pick lo
           else if unit <? 2 * r then pick hi
           else if Z.even lo then pick lo else pick hi)
        else if back lo then pick lo
        else if back hi then pick hi
        else shortest fuel' (k + 1) neg d e nd
  end.

(** [x.toString()]: Number::toString of ECMAScript, radix 10. *)
Definition toString (x : Number) : string :=
  match round x with
  | NaN => "NaN"
  | Infinity true => "-Infinity"
  | Infinity false => "Infinity"
  | Finite neg d e =>
      if (d =? 0)%N then "0"
      else
        let '(d0, e0) := shortest 17 1 neg d e (Js.len (pretty d)) in
        let '(d1, e1) := normalize (N.to_nat (N.size d0)) d0 e0 in
        let s : string := pretty d1 in
        let k := Js.len s in
        let n := k + e1 in
        let body : string :=
          if (k <=? n) && (n <=? 21) then s +:+ zeros (Z.to_nat (n - k))
          else if (0 <? n) && (n <=? 21) then
            Js.substring0 (Z.to_nat n) s +:+ "." +:+ dropFirst (Z.to_nat n) s
          else if (-6 <? n) && (n <=? 0) then
            "0." +:+ zeros (Z.to_nat (- n)) +:+ s
          else
            let ex : string :=
              (if 0 <=? n - 1 then "e+" else "e-") +:+ pretty (Z.abs (n - 1)) in
            if k =? 1 then s +:+ ex
            else Js.substring0 1 s +:+ "." +:+ dropFirst 1 s +:+ ex in
        if neg then "-" +:+ body else body
  end.

End Num.

(** ** Outcomes: a value, or the message of an exception *)

Inductive Result (A : Type) : Type :=
| Return (a : A)
| Throw (msg : string).
Arguments Return {A} a.
Arguments Throw {A} msg.

(** ** The page: controls, console, dispatched events *)

(** One control of the document, with the properties the content script
    reads.  [associatedLabel] is the outcome of [findAssociatedLabel] for
    the control in the surrounding document: the text it finds, or the
    message of the exception its query for a label throws; [elValue] is
    what [element.value] reads; [styleShown] says that the computed style
    shows the control and that it has an offset parent; [focusOk] says
    that after [focus()] the control is the active element.  The last
    three fields say how the control takes an assignment to its value:
    whether an [input] has the attribute [multiple], what a control keeps
    of an assigned text when it is of a kind whose rule is not spelled out
    below (dates, times, colours, ranges, lists of addresses), and the
    message of the exception a file input throws. *)
Record Element := {
  tagName : string;
  elType : string;
  role : string;
  elId : string;
  elName : string;
  elPlaceholder : string;
  elTitle : string;
  attrAriaLabel : string;
  attrDataName : string;
  associatedLabel : Result string;
  elValue : string;
  maxLength : Z;
  min : string;
  max : string;
  options : list (string * string);
  disabled : bool;
  readOnly : bool;
  styleShown : bool;
  attached : bool;
  width : Z;
  height : Z;
  focusMethod : bool;
  focusOk : bool;
  multiple : bool;
  ownValue : string -> string;
  invalidState : string
}.

Definition setElValue (v : string) (e : Element) : Element :=
  {| tagName := tagName e; elType := elType e; role := role e; elId := elId e;
     elName := elName e; elPlaceholder := elPlaceholder e; elTitle := elTitle e;
     attrAriaLabel := attrAriaLabel e; attrDataName := attrDataName e;
     associatedLabel := associatedLabel e; elValue := v;
     maxLength := maxLength e; min := min e; max := max e;
     options := options e; disabled := disabled e; readOnly := readOnly e;
     styleShown := styleShown e; attached := attached e; width := width e;
     height := height e; focusMethod := focusMethod e; focusOk := focusOk e;
     multiple := multiple e; ownValue := ownValue e; invalidState := invalidState e |}.

(** The state the content script works on: the controls the selector list
    of [detectFields] matches, in document order; [document.readyState];
    the warnings written with [console.warn]; the events dispatched to
    controls; and the custom table held by the field mapper. *)
Record Page := {
  elements : list Element;
  readyState : string;
  console : list string;
  events : list (nat * string);
  currentMappings : Table
}.

Definition setElements (l : list Element) (p : Page) : Page :=
  {| elements := l; readyState := readyState p; console := console p;
     events := events p; currentMappings := currentMappings p |}.
Definition setConsole (c : list string) (p : Page) : Page :=
  {| elements := elements p; readyState := readyState p; console := c;
     events := events p; currentMappings := currentMappings p |}.
Definition setEvents (ev : list (nat * string)) (p : Page) : Page :=
  {| elements := elements p; readyState := readyState p; console := console p;
     events := ev; currentMappings := currentMappings p |}.
Definition setCurrentMappings (t : Table) (p : Page) : Page :=
  {| elements := elements p; readyState := readyState p; console := console p;
     events := events p; currentMappings := t |}.

(** The page in which control [i] holds [v], and the page after a
    [console.warn]. *)
Definition withValue (i : nat) (v : string) (p : Page) : Page :=
  setElements (alter (setElValue v) i (elements p)) p.
Definition withWarning (msg : string) (p : Page) : Page :=
  setConsole (console p ++ [msg]) p.

(** ** What a control keeps of an assigned value

    [element.value = v] runs the value sanitization algorithm of the
    control (HTML standard, the states of the type attribute); what
    [element.value] reads afterwards is the outcome. *)

Module Html.

Definition isNewline (c : ascii) : bool :=
  let n := Js.code c in ((n =? 10) || (n =? 13))%N.

(** ASCII white space: TAB, LF, FF, CR and SPACE. *)
Definition isAsciiWhitespace (c : ascii) : bool :=
  let n := Js.code c in
  ((n =? 9) || (n =? 10) || (n =? 12) || (n =? 13) || (n =? 32))%N.

Definition stripNewlines (s : string) : string := Js.removeAll isNewline s.

Fixpoint stripStart (s : string) : string :=
  match s with
  | EmptyString => EmptyString
  | String c r => if isAsciiWhitespace c then stripStart r else s
  end.

Fixpoint stripEnd (s : string) : string :=
  match s with
  | EmptyString => EmptyString
  | String c r =>
      let r' := stripEnd r in
      if isAsciiWhitespace c && Js.isEmpty r' then EmptyString else String c r'
  end.

(** Strip leading and trailing ASCII white space. *)
Definition stripAscii (s : string) : string := stripEnd (stripStart s).

(** A valid floating-point number: an optional minus sign; digits, or a
    dot and digits, or both in this order; then optionally e or E, an
    optional sign and digits. *)
Definition validFloat (s : string) : bool :=
  let s1 := match s with String "-" r => r | _ => s end in
  let '(ip, s2) := Num.spanDigits s1 in
  let afterFraction : option string :=
    match s2 with
    | String "." r =>
        let '(fp, s3) := Num.spanDigits r in
        if Js.isEmpty fp then None else Some s3
    | _ => if Js.isEmpty ip then None else Some s2
    end in
  match afterFraction with
  | None => false
  | Some EmptyString => true
  | Some (String c r) =>
      (Ascii.eqb c "e" || Ascii.eqb c "E")
      && let r1 := match r with
                   | String "-" t => t
                   | String "+" t => t
                   | _ => r
                   end in
         let '(d, rest) := Num.spanDigits r1 in
         negb (Js.isEmpty d) && Js.isEmpty rest
  end.

(** The kinds of control, by what they keep of an assigned text. *)
Inductive Kind :=
| SingleLine   (* input of type text (or of none), search, tel or password *)
| TrimmedLine  (* input of type url, or email without multiple *)
| NumberText   (* input of type number *)
| FileName     (* input of type file *)
| TextArea     (* textarea *)
| Select       (* select *)
| AsGiven      (* input of type hidden, checkbox, radio, submit, reset,
                  button or image; an element that is no form control *)
| Other.       (* input of another type, or email with multiple *)

Definition kind (e : Element) : Kind :=
  let tag := Js.toLowerCase (tagName e) in
  let type := elType e in
  if String.eqb tag "input" then
    if existsb (String.eqb type) [""; "text"; "search"; "tel"; "password"] then SingleLine
    else if String.eqb type "url" then TrimmedLine
    else if String.eqb type "email" then (if multiple e then Other else TrimmedLine)
    else if String.eqb type "number" then NumberText
    else if String.eqb type "file" then FileName
    else if existsb (String.eqb type)
              ["hidden"; "checkbox"; "radio"; "submit"; "reset"; "button"; "image"]
    then AsGiven
    else Other
  else if String.eqb tag "textarea" then TextArea
  else if String.eqb tag "select" then Select
  else AsGiven.

(** What control [e] holds after [e.value = v], or the message of the
    exception the assignment throws.  A single-line control strips line
    breaks; a number control keeps a valid floating-point number and
    turns any other text into the empty string; a file input takes the
    empty string only; a textarea reads its line breaks back as LF; a
    select takes the value of one of its options, and is left without a
    selected option by any other text. *)
Definition held (e : Element) (v : string) : Result string :=
  match kind e with
  | SingleLine => Return (stripNewlines v)
  | TrimmedLine => Return (stripAscii (stripNewlines v))
  | NumberText => Return (if validFloat v then v else EmptyString)
  | FileName => if Js.isEmpty v then Return EmptyString else Throw (invalidState e)
  | TextArea => Return (Text.normalizeLines v)
  | Select =>
      Return (if existsb (fun option => String.eqb (fst option) v) (options e)
              then v else EmptyString)
  | AsGiven => Return v
  | Other => Return (ownValue e v)
  end.

End Html.

(** ** Computations on the page that may throw *)

Definition M (A : Type) : Type := Page -> Result A * Page.

Definition ret {A} (a : A) : M A := fun p => (Return a, p).
Definition throw {A} (msg : string) : M A := fun p => (Throw msg, p).
Definition bind {A B} (m : M A) (k : A -> M B) : M B :=
  fun p => match m p with
           | (Return a, p') => k a p'
           | (Throw msg, p') => (Throw msg, p')
           end.
(** [try { m } catch (error) { h error.message }]. *)
Definition tryCatch {A} (m : M A) (h : string -> M A) : M A :=
  fun p => match m p with
           | (Throw msg, p') => h msg p'
           | r => r
           end.

Notation "'let*' x ':=' m 'in' k" := (bind m (fun x => k))
  (at level 10, x name, m at level 100, k at level 200, only parsing).
Notation "m ';;' k" := (bind m (fun _ => k))
  (at level 100, k at level 200, right associativity, only parsing).

Definition warn (msg : string) : M unit :=
  fun p => (Return tt, withWarning msg p).
Definition dispatch (i : nat) (event : string) : M unit :=
  fun p => (Return tt, setEvents (events p ++ [(i, event)]) p).
Definition getElement (i : nat) : M Element :=
  fun p => match elements p !! i with
           | Some e => (Return e, p)
           | None => (Throw "Cannot read properties of undefined", p)
           end.
(** [element.value = v]: the control takes what its kind keeps of [v],
    or the assignment throws. *)
Definition assignValue (i : nat) (v : string) : M unit :=
  fun p => match elements p !! i with
           | Some e =>
               match Html.held e v with
               | Return stored => (Return tt, withValue i stored p)
               | Throw msg => (Throw msg, p)
               end
           | None => (Throw "Cannot set properties of undefined", p)
           end.

(** ** Field detection (FormFieldDetector) *)

Module FormFieldDetector.

Definition isFieldVisible (e : Element) : bool :=
  styleShown e && (0 <? width e) && (0 <? height e).

Definition getFieldType (e : Element) : string :=
  let tagName := Js.toLowerCase (tagName e) in
  if String.eqb tagName "select" then "select"
  else if String.eqb tagName "textarea" then "textarea"
  else if String.eqb tagName "input" then
    (if Js.isEmpty (elType e) then "text" else elType e)
  else if String.eqb tagName "div"
          && existsb (String.eqb (role e)) ["textbox"; "combobox"; "listbox"; "radiogroup"]
  then role e
  else "unknown".

(** [a || b] on strings. *)
Definition orElse (a b : string) : string := if Js.isEmpty a then b else a.

Definition createFieldIdentifier (parts : list string) : string :=
  Js.toLowerCase
    (Js.join " "
       (filter (fun id => Is_true (negb (Js.isEmpty id) && (0 <? Js.len (Js.trim id)))) parts)).

(** The object [fieldData] of [extractFieldMetadata], for the label
    that was found. *)
Definition fieldData (now : Z) (i : nat) (e : Element) (label : string) : Field :=
  {| fieldId := orElse (elId e)
                  (orElse (elName e) ("field_" +:+ pretty i +:+ "_" +:+ pretty now));
     element := i;
     fieldType := getFieldType e;
     name := elName e;
     htmlId := elId e;
     placeholder := elPlaceholder e;
     label := label;
     ariaLabel := attrAriaLabel e;
     title := elTitle e;
     dataName := attrDataName e;
     identifier :=
       createFieldIdentifier
         [elName e; elId e; elPlaceholder e; label;
          attrAriaLabel e; elTitle e; attrDataName e] |}.

(** [extractFieldMetadata]: the descriptor, or [Throw msg] for the path
    through its [catch], on which it writes a notice of [msg] to the
    console and returns null. *)
Definition extractFieldMetadata (now : Z) (i : nat) (e : Element) : Result Field :=
  match associatedLabel e with
  | Return label => Return (fieldData now i e label)
  | Throw msg => Throw msg
  end.

Definition extractionNotice (msg : string) : string :=
  "Error extracting field metadata: " +:+ msg.

Definition fillable (e : Element) : bool :=
  isFieldVisible e && negb (disabled e) && negb (readOnly e).

(** The scan of [detectFields(true)] from index [i] on: the descriptors
    it collects, a control whose extraction returns null being passed
    over. *)
Fixpoint scan (now : Z) (i : nat) (els : list Element) : list Field :=
  match els with
  | [] => []
  | e :: r =>
      if fillable e then
        match extractFieldMetadata now i e with
        | Return fieldData => fieldData :: scan now (S i) r
        | Throw _ => scan now (S i) r
        end
      else scan now (S i) r
  end.

(** The notices the scan writes to the console. *)
Fixpoint notices (now : Z) (i : nat) (els : list Element) : list string :=
  match els with
  | [] => []
  | e :: r =>
      if fillable e then
        match extractFieldMetadata now i e with
        | Return _ => notices now (S i) r
        | Throw msg => extractionNotice msg :: notices now (S i) r
        end
      else notices now (S i) r
  end.

(** The array [detectFields(true)] returns, and the page it leaves. *)
Definition detectFields (now : Z) (p : Page) : list Field :=
  scan now 0 (elements p).
Definition detected (now : Z) (p : Page) : Page :=
  setConsole (console p ++ notices now 0 (elements p)) p.

End FormFieldDetector.

(** ** Fill strategies (AutoFiller) *)

Section AutoFiller.

(** The strategies for the role-based widgets (div textbox, combobox,
    listbox, radio group) act through [click()] on the page's own
    script; they are a parameter of the model. *)
Variable widgetFill : string -> nat -> string -> M bool.

Definition focusElement (i : nat) : M bool :=
  tryCatch
    (let* e := getElement i in
     if negb (focusMethod e) then
       (if String.eqb (Js.toLowerCase (tagName e)) "div"
        then (dispatch i "click" ;; ret true)
        else ret false)
     else ret (focusOk e))
    (fun msg => warn ("Focus failed: " +:+ msg) ;; ret false).

Definition triggerChangeEvents (i : nat) : M unit :=
  dispatch i "input" ;; dispatch i "change".

Definition fillTextField (i : nat) (value : string) : M bool :=
  tryCatch
    (let* focused := focusElement i in
     if negb focused then throw "Could not focus on text field"
     else
       let stringValue := Js.trim value in
       let* e := getElement i in
       (if (0 <? maxLength e) && (maxLength e <? Js.len stringValue) then
          (warn ("Value truncated to fit maxLength constraint: " +:+ pretty (maxLength e)) ;;
           assignValue i (Js.substring0 (Z.to_nat (maxLength e)) stringValue))
        else assignValue i stringValue) ;;
       ret true)
    (fun msg => throw ("Text field fill failed: " +:+ msg)).

Definition fillTextareaField (i : nat) (value : string) : M bool :=
  tryCatch
    (let* focused := focusElement i in
     if negb focused then throw "Could not focus on textarea field"
     else
       let stringValue := Js.trim value in
       let* e := getElement i in
       (if (0 <? maxLength e) && (maxLength e <? Js.len stringValue) then
          (warn ("Textarea value truncated to fit maxLength constraint: " +:+ pretty (maxLength e)) ;;
           assignValue i (Js.substring0 (Z.to_nat (maxLength e)) stringValue))
        else assignValue i stringValue) ;;
       ret true)
    (fun msg => throw ("Textarea field fill failed: " +:+ msg)).

Definition fillSelectField (i : nat) (value : string) : M bool :=
  tryCatch
    (let* focused := focusElement i in
     if negb focused then throw "Could not focus on select field"
     else
       let* e := getElement i in
       match options e with
       | [] => throw "Select field has no options"
       | opts =>
           let stringValue := Js.trim value in
           let text (opt : string * string) := Js.toLowerCase (Js.trim (snd opt)) in
           let byValue := find (fun opt => String.eqb (fst opt) stringValue) opts in
           let byText :=
             match byValue with
             | Some o => Some o
             | None => find (fun opt => String.eqb (text opt) (Js.toLowerCase stringValue)) opts
             end in
           let byPart :=
             match byText with
             | Some o => Some o
             | None => find (fun opt => Js.includes (text opt) (Js.toLowerCase stringValue)) opts
             end in
           match byPart with
           | Some option => assignValue i (fst option) ;; ret true
           | None =>
               warn ("No matching option found for value: " +:+ stringValue) ;; ret false
           end
       end)
    (fun msg => throw ("Select field fill failed: " +:+ msg)).

(** The test of [/^[^\s@]+@[^\s@]+\.[^\s@]+$/]. *)
Fixpoint plainRun (s : string) : bool :=
  match s with
  | EmptyString => true
  | String c r => negb (Js.isWhiteSpace c) && negb (Js.code c =? 64)%N && plainRun r
  end.
Fixpoint innerDot (s : string) : bool :=
  match s with
  | EmptyString => false
  | String c r => ((Js.code c =? 46)%N && negb (Js.isEmpty r)) || innerDot r
  end.
Fixpoint emailRegexTest_go (seen : bool) (s : string) : bool :=
  match s with
  | EmptyString => false
  | String c r =>
      if (Js.code c =? 64)%N then
        seen && plainRun r && match r with String _ t => innerDot t | EmptyString => false end
      else negb (Js.isWhiteSpace c) && emailRegexTest_go true r
  end.
Definition emailRegexTest (s : string) : bool := emailRegexTest_go false s.

Definition fillEmailField (i : nat) (value : string) : M bool :=
  tryCatch
    (let stringValue := Js.trim value in
     (if emailRegexTest stringValue then ret tt
      else warn ("Invalid email format: " +:+ stringValue)) ;;
     fillTextField i stringValue)
    (fun msg => throw ("Email field fill failed: " +:+ msg)).

(** The class [[\d+\-\s()]], whose complement the phone strategy
    deletes. *)
Definition isPhoneChar (c : ascii) : bool :=
  let n := Js.code c in
  Js.isDigit c || (n =? 43)%N || (n =? 45)%N || Js.isWhiteSpace c
  || (n =? 40)%N || (n =? 41)%N.

(** The cleaning in the words of the specification: of the trimmed
    value only digits, a plus sign in first position, hyphens,
    parentheses and spaces remain. *)
Definition isPhoneCharAsStated (leading : bool) (c : ascii) : bool :=
  let n := Js.code c in
  Js.isDigit c || leading && (n =? 43)%N || (n =? 45)%N || (n =? 40)%N
  || (n =? 41)%N || (n =? 32)%N.
Fixpoint phoneCleanAsStated_go (leading : bool) (s : string) : string :=
  match s with
  | EmptyString => EmptyString
  | String c r =>
      if isPhoneCharAsStated leading c
      then String c (phoneCleanAsStated_go false r)
      else phoneCleanAsStated_go false r
  end.
Definition phoneCleanAsStated (s : string) : string := phoneCleanAsStated_go true s.

Definition fillPhoneField (i : nat) (value : string) : M bool :=
  tryCatch
    (let stringValue := Js.trim value in
     let stringValue := Js.removeAll (fun c => negb (isPhoneChar c)) stringValue in
     fillTextField i stringValue)
    (fun msg => throw ("Phone field fill failed: " +:+ msg)).

Definition fillNumberField (i : nat) (value : string) : M bool :=
  tryCatch
    (let numericValue := Num.parseFloat value in
     if Num.isNaN numericValue then
       warn ("Invalid numeric value: " +:+ value) ;; ret false
     else
       let* e := getElement i in
       if negb (Js.isEmpty (min e)) && Num.lt numericValue (Num.parseFloat (min e)) then
         warn ("Value " +:+ Num.toString numericValue +:+ " is below minimum " +:+ min e) ;;
         ret false
       else if negb (Js.isEmpty (max e)) && Num.gt numericValue (Num.parseFloat (max e)) then
         warn ("Value " +:+ Num.toString numericValue +:+ " is above maximum " +:+ max e) ;;
         ret false
       else fillTextField i (Num.toString numericValue))
    (fun msg => throw ("Number field fill failed: " +:+ msg)).

(** The test of [/^https?:\/\//]. *)
Definition hasScheme (s : string) : bool :=
  Js.startsWith s "http://" || Js.startsWith s "https://".

Definition fillUrlField (i : nat) (value : string) : M bool :=
  tryCatch
    (let stringValue := Js.trim value in
     let stringValue :=
       if negb (Js.isEmpty stringValue) && negb (hasScheme stringValue)
       then "https://" +:+ stringValue else stringValue in
     fillTextField i stringValue)
    (fun msg => throw ("URL field fill failed: " +:+ msg)).

(** The types [setFieldValue] sends to [fillTextField]: those with no
    case of their own. *)
Definition isTextLike (fieldType : string) : bool :=
  negb (existsb (String.eqb fieldType)
          ["select"; "textarea"; "email"; "tel"; "phone"; "number"; "url";
           "textbox"; "combobox"; "listbox"; "radiogroup"]).

Definition setFieldValue (i : nat) (value : string) (fieldType : string) : M bool :=
  tryCatch
    (if String.eqb fieldType "select" then fillSelectField i value
     else if String.eqb fieldType "textarea" then fillTextareaField i value
     else if String.eqb fieldType "email" then fillEmailField i value
     else if String.eqb fieldType "tel" || String.eqb fieldType "phone"
     then fillPhoneField i value
     else if String.eqb fieldType "number" then fillNumberField i value
     else if String.eqb fieldType "url" then fillUrlField i value
     else if existsb (String.eqb fieldType) ["textbox"; "combobox"; "listbox"; "radiogroup"]
     then widgetFill fieldType i value
     else fillTextField i value)
    (fun msg => throw ("Failed to set " +:+ fieldType +:+ " field value: " +:+ msg)).

(** [setFieldValue] runs to its end before [Promise.race] is entered, so
    the race with the 3000 ms timer is always won by its result. *)
Definition setFieldValueSafely (i : nat) (value : string) (fieldType : string) : M bool :=
  setFieldValue i value fieldType.

Definition fillSingleField (mappedField : MappedField) : M bool :=
  let f := field mappedField in
  let i := element f in
  fun p =>
    match elements p !! i with
    | None => throw "Field element is null or undefined" p
    | Some e =>
        (if negb (attached e) then throw "Field element no longer exists in the page"
         else if disabled e then
           warn ("Field " +:+ identifier f +:+ " is disabled, skipping") ;; ret false
         else if readOnly e then
           warn ("Field " +:+ identifier f +:+ " is read-only, skipping") ;; ret false
         else if (width e =? 0) || (height e =? 0) then
           warn ("Field " +:+ identifier f +:+ " is not visible, skipping") ;; ret false
         else
           tryCatch
             (let* success := setFieldValueSafely i (value mappedField) (fieldType f) in
              if success then triggerChangeEvents i ;; ret true
              else ret false)
             (fun msg =>
                warn ("Error filling field " +:+ identifier f +:+ ": " +:+ msg) ;;
                throw ("Failed to fill field " +:+ identifier f +:+ ": " +:+ msg))) p
    end.

End AutoFiller.

(** ** The fill run (ContentScriptController) *)

Record ErrorEntry := {
  errField : string;
  errError : string
}.

Record Results := {
  fieldsDetected : Z;
  fieldsFilled : Z;
  fieldsSkipped : Z;
  errors : list ErrorEntry;
  warnings : list string
}.

(** What the run reads from its surroundings: [Date.now()] during
    detection, at the start of the fill loop and at the head of its
    [i]-th iteration, and whether the 5000 ms timer of the [i]-th
    iteration rejects before the fill of that candidate settles. *)
Record Env := {
  detectTime : Z;
  startTime : Z;
  checkTime : nat -> Z;
  timerFirst : nat -> bool
}.

Record Message := {
  userData : option (gmap string string);
  fieldMappings : option (list (string * list string))
}.

Record Response := {
  success : bool;
  fieldsCount : option Z;
  results : option Results;
  error : option string;
  errorType : option string
}.

Definition fillTimeout : Z := 30000.

Definition timeoutWarning : string :=
  "Auto-fill timed out - some fields may not have been filled".

Definition addFilled (r : Results) : Results :=
  {| fieldsDetected := fieldsDetected r; fieldsFilled := fieldsFilled r + 1;
     fieldsSkipped := fieldsSkipped r; errors := errors r; warnings := warnings r |}.
Definition addSkipped (r : Results) : Results :=
  {| fieldsDetected := fieldsDetected r; fieldsFilled := fieldsFilled r;
     fieldsSkipped := fieldsSkipped r + 1; errors := errors r; warnings := warnings r |}.
Definition pushError (e : ErrorEntry) (r : Results) : Results :=
  {| fieldsDetected := fieldsDetected r; fieldsFilled := fieldsFilled r;
     fieldsSkipped := fieldsSkipped r; errors := errors r ++ [e]; warnings := warnings r |}.
Definition pushWarning (w : string) (r : Results) : Results :=
  {| fieldsDetected := fieldsDetected r; fieldsFilled := fieldsFilled r;
     fieldsSkipped := fieldsSkipped r; errors := errors r; warnings := warnings r ++ [w] |}.

(** The progress display, the highlights and the notifications of
    VisualFeedback, and the animation settings, touch nothing of the state
    modelled here and are left out. *)
Section Controller.

Variable widgetFill : string -> nat -> string -> M bool.
Variable env : Env.

(** [Promise.race] of a fill with the 5000 ms timer. *)
Definition raceWithTimer (first : bool) (m : M bool) : M bool :=
  fun p => let '(r, p') := m p in
           if first then (Throw "Field fill timeout", p') else (r, p').

Definition isAttached (i : nat) (p : Page) : bool :=
  match elements p !! i with
  | Some e => attached e
  | None => false
  end.

(** What the [try] block of the loop body settles with: [None] for the
    [continue] taken when the control has left the document. *)
Definition attempt (i : nat) (mappedField : MappedField) : M (option bool) :=
  fun p =>
    if negb (isAttached (element (field mappedField)) p) then (Return None, p)
    else
      (let* success := raceWithTimer (timerFirst env i) (fillSingleField widgetFill mappedField) in
       ret (Some success)) p.

(** The [catch] block of the loop body. *)
Definition recordFailure (mappedField : MappedField) (msg : string) (r : Results) : Results :=
  addSkipped
    (pushError {| errField := identifier (field mappedField);
                  errError := if Js.includes msg "timeout" then "Field fill timeout" else msg |}
               r).

(** One iteration of the loop, after the check of the overall budget. *)
Definition fillStep (i : nat) (mappedField : MappedField) (r : Results) (p : Page)
    : Results * Page :=
  match attempt i mappedField p with
  | (Return None, p') =>
      (addSkipped
         (pushError {| errField := identifier (field mappedField);
                       errError := "Field no longer exists in page" |} r), p')
  | (Return (Some true), p') => (addFilled r, p')
  | (Return (Some false), p') =>
      (pushWarning ("Could not fill field: " +:+ identifier (field mappedField))
         (addSkipped r), p')
  | (Throw msg, p') =>
      (recordFailure mappedField msg r,
       setConsole
         (console p'
          ++ ["Error filling field " +:+ identifier (field mappedField) +:+ ": " +:+ msg])
         p')
  end.

Definition budgetExhausted (i : nat) : bool :=
  fillTimeout <? checkTime env i - startTime env.

(** The [for] loop over [mappedFields], from index [i] on. *)
Fixpoint fillLoop (i : nat) (mappedFields : list MappedField) (r : Results) (p : Page)
    : Results * Page :=
  match mappedFields with
  | [] => (r, p)
  | mappedField :: rest =>
      if budgetExhausted i then (pushWarning timeoutWarning r, p)
      else let '(r', p') := fillStep i mappedField r p in
           fillLoop (S i) rest r' p'
  end.

(** How many of [n] candidates, the first of them at iteration [i], the
    loop gets to: those before the first failed check of the budget. *)
Fixpoint attemptedFrom (i n : nat) : nat :=
  match n with
  | O => O
  | S m => if budgetExhausted i then O else S (attemptedFrom (S i) m)
  end.

(** The iterations for the given candidates, one after the other, with
    no check of the budget. *)
Fixpoint runSteps (i : nat) (mappedFields : list MappedField) (r : Results) (p : Page)
    : Results * Page :=
  match mappedFields with
  | [] => (r, p)
  | mappedField :: rest =>
      let '(r', p') := fillStep i mappedField r p in
      runSteps (S i) rest r' p'
  end.

Definition performAutoFill (userData : gmap string string) : M Results :=
  fun p =>
    let fields := FormFieldDetector.detectFields (detectTime env) p in
    let p := FormFieldDetector.detected (detectTime env) p in
    match fields with
    | [] => throw "No fillable fields detected on this page" p
    | _ =>
        let mappedFields :=
          FieldMapper.mapFieldsToData (currentMappings p) fields userData in
        match mappedFields with
        | [] =>
            throw "No matching fields found for available data. Try customizing field mappings in settings." p
        | _ =>
            let results :=
              {| fieldsDetected := Z.of_nat (length fields); fieldsFilled := 0;
                 fieldsSkipped := 0; errors := []; warnings := [] |} in
            let '(r, p') := fillLoop 0 mappedFields results p in
            (Return r, p')
        end
    end.

Definition performAutoFillWithErrorHandling (userData : gmap string string) : M Results :=
  tryCatch (performAutoFill userData)
    (fun msg =>
       if Js.includes msg "DOM" then
         throw "Page structure changed during auto-fill. Please refresh and try again."
       else if Js.includes msg "timeout" then
         throw "Auto-fill process timed out. The page may be slow to respond."
       else if Js.includes msg "permission" then
         throw "Cannot access form fields due to page restrictions."
       else throw msg).

Definition failure (userMessage errorType : string) : Response :=
  {| success := false; fieldsCount := None; results := None;
     error := Some userMessage; errorType := Some errorType |}.

(** [handlePerformAutoFill]; the value is the object given to
    [sendResponse]. *)
Definition handlePerformAutoFill (message : Message) : Page -> Response * Page :=
  fun p =>
    let run : M Results :=
      match userData message with
      | None => throw "No valid user data provided"
      | Some userData =>
          if Nat.eqb (size userData) 0 then throw "User data is empty"
          else
            let* state := (fun p => (Return (readyState p), p)) in
            if negb (String.eqb state "complete") then
              throw "Page is still loading. Please wait and try again."
            else
              (match fieldMappings message with
               | Some fm =>
                   fun p => (Return tt, setCurrentMappings (FieldMapper.updateMappings fm) p)
               | None => ret tt
               end) ;;
              performAutoFillWithErrorHandling userData
      end in
    match run p with
    | (Return r, p') =>
        ({| success := true; fieldsCount := Some (fieldsFilled r); results := Some r;
            error := None; errorType := None |}, p')
    | (Throw msg, p') =>
        (if Js.includes msg "loading" then
           failure "Page is still loading. Please wait and try again." "PAGE_NOT_READY"
         else if Js.includes msg "No fillable fields" then
           failure "No fillable form fields found on this page." "NO_FIELDS"
         else if Js.includes msg "No matching fields" then
           failure "No form fields match your data. Try customizing field mappings." "NO_MATCHES"
         else failure msg "AUTOFILL_ERROR", p')
    end.

End Controller.

(** ** Sample pages *)

Module Sample.

(** A shown, enabled, focusable [input] of the given type, name and
    maxLength (-1 when the attribute is absent). *)
Definition input (type nm : string) (maxLen : Z) : Element :=
  {| tagName := "INPUT"; elType := type; role := ""; elId := ""; elName := nm;
     elPlaceholder := ""; elTitle := ""; attrAriaLabel := ""; attrDataName := "";
     associatedLabel := Return ""; elValue := ""; maxLength := maxLen; min := "";
     max := ""; options := []; disabled := false; readOnly := false; styleShown := true;
     attached := true; width := 200; height := 20; focusMethod := true;
     focusOk := true; multiple := false; ownValue := fun v => v;
     invalidState := "InvalidStateError" |}.

Definition numberInput (nm lo hi : string) : Element :=
  {| tagName := "INPUT"; elType := "number"; role := ""; elId := ""; elName := nm;
     elPlaceholder := ""; elTitle := ""; attrAriaLabel := ""; attrDataName := "";
     associatedLabel := Return ""; elValue := ""; maxLength := -1; min := lo;
     max := hi; options := []; disabled := false; readOnly := false; styleShown := true;
     attached := true; width := 200; height := 20; focusMethod := true;
     focusOk := true; multiple := false; ownValue := fun v => v;
     invalidState := "InvalidStateError" |}.

Definition page (els : list Element) : Page :=
  {| elements := els; readyState := "complete"; console := []; events := [];
     currentMappings := [] |}.

(** A run in which every clock reading is 100 ms after the previous one
    and no 5000 ms timer fires. *)
Definition env : Env :=
  {| detectTime := 1000; startTime := 1000;
     checkTime := fun i => 1000 + 100 * Z.of_nat i;
     timerFirst := fun _ => false |}.

(** A widget strategy that reports success, as [fillCombobox] does. *)
Definition widget : string -> nat -> string -> M bool := fun _ _ _ => ret true.

(** A run whose clock passes the 30 s budget before the third
    iteration, and a run whose second fill loses against its timer. *)
Definition slowEnv : Env :=
  {| detectTime := 1000; startTime := 1000;
     checkTime := fun i => if (i <? 2)%nat then 1200 else 31001;
     timerFirst := fun _ => false |}.
Definition timerEnv : Env :=
  {| detectTime := 1000; startTime := 1000;
     checkTime := fun i => 1000 + 100 * Z.of_nat i;
     timerFirst := fun i => (i =? 1)%nat |}.

Definition request (d : gmap string string) : Message :=
  {| userData := Some d; fieldMappings := None |}.

(** A text control named zip of maxLength 5, and the candidate that
    pairs it with a twelve-digit value. *)
Definition zip : Element := input "text" "zip" 5.
Definition zipCandidate : MappedField :=
  {| field := FormFieldDetector.fieldData 1000 0 zip "";
     dataField := "zipCode"; value := "123456789012"; confidence := 90 |}.

(** A control that is in the document but not shown. *)
Definition hidden : Element :=
  {| tagName := "INPUT"; elType := "text"; role := ""; elId := ""; elName := "email";
     elPlaceholder := ""; elTitle := ""; attrAriaLabel := ""; attrDataName := "";
     associatedLabel := Return ""; elValue := ""; maxLength := -1; min := "";
     max := ""; options := []; disabled := false; readOnly := false; styleShown := false;
     attached := true; width := 0; height := 0; focusMethod := true;
     focusOk := true; multiple := false; ownValue := fun v => v;
     invalidState := "InvalidStateError" |}.

Definition emptyResults : Results :=
  {| fieldsDetected := 1; fieldsFilled := 0; fieldsSkipped := 0; errors := [];
     warnings := [] |}.

(** A request that brings its own alias table for the key quantity. *)
Definition quantityRequest (v : string) : Message :=
  {| userData := Some {[ "quantity" := v ]};
     fieldMappings := Some [("quantity", ["quantity"; "qty"])] |}.

(** The descriptor [extractFieldMetadata] builds for a text input of
    the given name. *)
Definition named (nm : string) : Field :=
  FormFieldDetector.fieldData 1000 0 (input "text" nm (-1)) "".

End Sample.

(** ** File parser: files, CSV rows and TXT lines (src/fileParser.js) *)

(** The properties of an uploaded [File] the parser reads. *)
Record File := {
  fileName : string;
  fileSize : Z;
  fileType : string
}.

Module Parser.

Definition MAX_FILE_SIZE : Z := 5 * 1024 * 1024.

Definition ALLOWED_MIME_TYPES : list string :=
  ["application/json"; "text/csv"; "text/plain"; "application/vnd.ms-excel"; ""].

Definition ALLOWED_EXTENSIONS : list string := ["json"; "csv"; "txt"].

Definition getFileExtension (filename : string) : Result string :=
  if Js.isEmpty filename then Throw "Invalid filename"
  else
    let parts := Text.splitOn "." filename in
    if (length parts <? 2)%nat then Throw "File must have an extension"
    else Return (Js.toLowerCase (List.last parts EmptyString)).

(** The names of [/^(CON|PRN|AUX|NUL|COM[1-9]|LPT[1-9])$/i], in lower
    case. *)
Definition reservedNames : list string :=
  ["con"; "prn"; "aux"; "nul"]
  ++ map (fun d => "com" +:+ d) ["1"; "2"; "3"; "4"; "5"; "6"; "7"; "8"; "9"]
  ++ map (fun d => "lpt" +:+ d) ["1"; "2"; "3"; "4"; "5"; "6"; "7"; "8"; "9"].

(** The class of the second pattern: less-than, greater-than, colon,
    double quote, bar, question mark, star. *)
Definition isInvalidNameChar (c : ascii) : bool :=
  existsb (N.eqb (Js.code c)) [60; 62; 58; 34; 124; 63; 42]%N.

Definition containsSuspiciousCharacters (filename : string) : bool :=
  Js.includes filename ".."
  || Text.hasChar isInvalidNameChar filename
  || existsb (String.eqb (Js.toLowerCase filename)) reservedNames
  || Js.startsWith filename "."
  || Text.hasChar FileParser.isNull filename.

(** [(size / (1024 * 1024)).toFixed(2)] for a size in bytes below 2^53:
    the quotient is exact, and toFixed rounds the halves up. *)
Definition sizeMB (size : Z) : string :=
  let n := (200 * size + 1048576) / 2097152 in
  let cents := n mod 100 in
  pretty (n / 100) +:+ "." +:+ (if cents <? 10 then "0" else "") +:+ pretty cents.

Definition validateFile (file : option File) : Result unit :=
  match file with
  | None => Throw "No file provided"
  | Some f =>
      if MAX_FILE_SIZE <? fileSize f then
        Throw ("File too large (" +:+ sizeMB (fileSize f) +:+ "MB). Maximum size is 5MB")
      else
        match getFileExtension (fileName f) with
        | Throw msg => Throw msg
        | Return extension =>
            if negb (existsb (String.eqb extension) ALLOWED_EXTENSIONS) then
              Throw ("Unsupported file format. Allowed formats: "
                     +:+ Js.join ", " ALLOWED_EXTENSIONS)
            else if negb (Js.isEmpty (fileType f))
                    && negb (existsb (String.eqb (fileType f)) ALLOWED_MIME_TYPES) then
              Throw ("Invalid file type: " +:+ fileType f)
            else if containsSuspiciousCharacters (fileName f) then
              Throw "Invalid filename contains suspicious characters"
            else Return tt
        end
  end.

Definition isQuote (c : ascii) : bool :=
  Ascii.eqb c "034" || Ascii.eqb c "'".

Definition snoc (s : string) (c : ascii) : string := s +:+ String c EmptyString.

(** The loop of [parseCSVRow] over the rest [s] of the row; [quoteChar]
    is [Some q] inside a section quoted with [q]. *)
Fixpoint parseCSVRow_go (delimiter : ascii) (s : string) (values : list string)
    (current : string) (quoteChar : option ascii) : list string :=
  match s with
  | EmptyString => values ++ [Js.trim current]
  | String char rest =>
      match quoteChar with
      | None =>
          if isQuote char then parseCSVRow_go delimiter rest values current (Some char)
          else if Ascii.eqb char delimiter
          then parseCSVRow_go delimiter rest (values ++ [Js.trim current]) EmptyString None
          else parseCSVRow_go delimiter rest values (snoc current char) None
      | Some q =>
          if Ascii.eqb char q then
            match rest with
            | String nextChar rest' =>
                if Ascii.eqb nextChar q
                then parseCSVRow_go delimiter rest' values (snoc current char) (Some q)
                else parseCSVRow_go delimiter rest values current None
            | EmptyString => parseCSVRow_go delimiter rest values current None
            end
          else parseCSVRow_go delimiter rest values (snoc current char) (Some q)
      end
  end.

Definition parseCSVRow (row : string) (delimiter : ascii) : list string :=
  parseCSVRow_go delimiter row [] EmptyString None.

Definition delimiters : list ascii := [","; ";"; "009"; "|"]%char.

(** The inner loop of [detectCSVDelimiter] over the sample lines; the
    state is (totalCount, consistent, expectedCount), with [None] for the
    expected count -1. *)
Definition sampleStep (delimiter : ascii) (st : nat * bool * option nat) (line : string)
    : nat * bool * option nat :=
  let '(totalCount, consistent, expectedCount) := st in
  if Js.isEmpty (Js.trim line) then st
  else
    let count := Text.countChar delimiter line in
    match expectedCount with
    | None => (totalCount + count, consistent, Some count)%nat
    | Some expected =>
        (totalCount + count,
         if negb (count =? expected) && (0 <? count) then false else consistent,
         expectedCount)%nat
    end.

(** The outer loop; the state is (bestDelimiter, maxCount). *)
Definition delimiterStep (sampleLines : list string) (st : ascii * nat) (delimiter : ascii)
    : ascii * nat :=
  let '(totalCount, consistent, _) :=
    fold_left (sampleStep delimiter) sampleLines (O, true, None) in
  if consistent && (snd st <? totalCount)%nat then (delimiter, totalCount) else st.

Definition detectCSVDelimiter (content : string) : ascii :=
  let sampleLines := take 5 (Text.splitOn "010" content) in
  fst (fold_left (delimiterStep sampleLines) delimiters (","%char, O)).

(** A key or header with the markup characters deleted, trimmed. *)
Definition cleanName (s : string) : string :=
  Js.trim (Js.removeAll FileParser.isMarkupChar s).

(** The separator [parseTXTLine] splits at: over the separators colon,
    equals sign and tab in turn, the one of least index. *)
Definition separatorStep (line : string) (st : option nat) (sep : ascii) : option nat :=
  match Text.indexOf sep line with
  | Some index =>
      match st with
      | None => Some index
      | Some separatorIndex => if (index <? separatorIndex)%nat then Some index else st
      end
  | None => st
  end.

Definition separatorIndex (line : string) : option nat :=
  fold_left (separatorStep line) [":"; "="; "009"]%char None.

Definition unquote (value : string) : string :=
  let quotedBy (q : ascii) : bool :=
    match Text.firstChar value, Text.lastChar value with
    | Some a, Some b => Ascii.eqb a q && Ascii.eqb b q
    | _, _ => false
    end in
  if quotedBy "034"%char || quotedBy "'"%char then Text.dropLast (Text.drop 1 value)
  else value.

Definition parseTXTLine (line : string) : Result (string * string) :=
  match separatorIndex line with
  | None => Throw "No valid separator found (expected :, =, or tab)"
  | Some index =>
      let key := Js.trim (Js.substring0 index line) in
      let value := Js.trim (Text.drop (S index) line) in
      if Js.isEmpty key then Throw "Key cannot be empty"
      else
        let cleanKey := cleanName key in
        if Js.isEmpty cleanKey then Throw "Key contains only invalid characters"
        else Return (cleanKey, FileParser.sanitizeStringValue (unquote value))
  end.

(** The lines [parseTXT] reads: trimmed, not empty, and starting with
    neither a hash sign nor two slashes. *)
Definition txtLines (content : string) : list string :=
  List.filter (fun line => negb (Js.isEmpty line) && negb (Js.startsWith line "#")
                           && negb (Js.startsWith line "//"))
    (map Js.trim (Text.splitOn "010" (Text.normalizeLines content))).

(** The loop of [parseTXT]; the state is (data, errors) and [i] is the
    index of the line. *)
Fixpoint parseTXT_go (i : nat) (lines : list string)
    (st : gmap string string * list string) : gmap string string * list string :=
  match lines with
  | [] => st
  | line :: rest =>
      parseTXT_go (S i) rest
        match parseTXTLine line with
        | Return (key, value) => (Text.assign key value (fst st), snd st)
        | Throw msg => (fst st, snd st ++ ["Line " +:+ pretty (S i) +:+ ": " +:+ msg])
        end
  end.

Definition parseTXT (content : string) : Result (gmap string string) :=
  let wrap (msg : string) : Result (gmap string string) :=
    Throw ("TXT parsing failed: " +:+ msg) in
  if Js.isEmpty (Js.trim content) then wrap "TXT file is empty"
  else
    match txtLines content with
    | [] => wrap "TXT file contains no valid key-value pairs"
    | lines =>
        let '(data, errors) := parseTXT_go 0 lines (∅, []) in
        if negb (length errors =? 0)%nat && (size data =? 0)%nat then
          wrap ("No valid key-value pairs found. Errors:" +:+ String "010" EmptyString
                +:+ Js.join (String "010" EmptyString) errors)
        else if (size data =? 0)%nat then wrap "No valid key-value pairs found in TXT file"
        else Return data
    end.

(** The header names of [parseCSV]: cleaned, and none of them empty. *)
Fixpoint cleanHeaders (headers : list string) : Result (list string) :=
  match headers with
  | [] => Return []
  | header :: rest =>
      let clean := cleanName header in
      if Js.isEmpty clean then Throw "CSV contains empty or invalid header names"
      else match cleanHeaders rest with
           | Return l => Return (clean :: l)
           | Throw msg => Throw msg
           end
  end.

(** The object built for one data row: header [j] gets the sanitised
    value [j] of the row, or the empty string when the row is shorter. *)
Fixpoint rowData (headers : list string) (values : list string) (acc : gmap string string)
    : gmap string string :=
  match headers with
  | [] => acc
  | header :: rest =>
      rowData rest (tail values)
        (Text.assign header (FileParser.sanitizeStringValue (hd EmptyString values)) acc)
  end.

(** The data rows of [parseCSV] that are not skipped, as objects. *)
Definition dataObjects (headers : list string) (delimiter : ascii) (lines : list string)
    : list (gmap string string) :=
  omap (fun line =>
          let values := parseCSVRow line delimiter in
          if forallb (fun val => Js.isEmpty (Js.trim val)) values then None
          else Some (rowData headers values ∅))
       lines.

(** [Object.assign(mergedData, row)] over the rows in turn. *)
Definition mergeRows (rows : list (gmap string string)) : gmap string string :=
  fold_left (fun mergedData row => row ∪ mergedData) rows ∅.

Definition parseCSV (content : string) : Result (gmap string string) :=
  let wrap (msg : string) : Result (gmap string string) :=
    Throw ("CSV parsing failed: " +:+ msg) in
  if Js.isEmpty (Js.trim content) then wrap "CSV file is empty"
  else
    let normalizedContent := Text.normalizeLines content in
    let delimiter := detectCSVDelimiter normalizedContent in
    let lines :=
      List.filter (fun line => negb (Js.isEmpty (Js.trim line)))
        (Text.splitOn "010" normalizedContent) in
    match lines with
    | header :: (_ :: _) as rows =>
        let headers := parseCSVRow header delimiter in
        if (length headers =? 0)%nat then wrap "CSV header row is empty or invalid"
        else
          match cleanHeaders headers with
          | Throw msg => wrap msg
          | Return names =>
              match dataObjects names delimiter rows with
              | [] => wrap "CSV contains no valid data rows"
              | objects => Return (mergeRows objects)
              end
          end
    | _ => wrap "CSV must have at least a header row and one data row"
    end.

(** *** JSON records and the entry point *)

(** A value as [JSON.parse] returns it.  An object is given by its
    entries, in the order in which [Object.entries] lists them. *)
#[warnings="-register-all"]
Inductive Json :=
| JNull
| JBool (b : bool)
| JNumber (x : Number)
| JString (s : string)
| JArray (items : list Json)
| JObject (entries : list (string * Json)).

(** [String(value)]: an array is joined with commas, a null item giving
    the empty string. *)
Fixpoint toStr (value : Json) : string :=
  match value with
  | JNull => "null"
  | JBool b => if b then "true" else "false"
  | JNumber x => Num.toString x
  | JString s => s
  | JArray items =>
      Js.join ","
        (map (fun item => match item with JNull => EmptyString | _ => toStr item end) items)
  | JObject _ => "[object Object]"
  end.

Definition notNull (value : Json) : bool :=
  match value with JNull => false | _ => true end.

(** The inner loop of [sanitizeJSONData] over the entries of a nested
    object. *)
Definition nestedStep (cleanKey : string) (sanitized : gmap string string)
    (entry : string * Json) : gmap string string :=
  let '(nestedKey, nestedValue) := entry in
  let combinedKey :=
    Js.removeAll FileParser.isMarkupChar (cleanKey +:+ "_" +:+ nestedKey) in
  if notNull nestedValue then
    Text.assign combinedKey (FileParser.sanitizeStringValue (toStr nestedValue)) sanitized
  else sanitized.

(** The body of the loop of [sanitizeJSONData]. *)
Definition entryStep (sanitized : gmap string string) (entry : string * Json)
    : gmap string string :=
  let '(key, value) := entry in
  if Js.isEmpty (Js.trim key) then sanitized
  else
    let cleanKey := cleanName key in
    if Js.isEmpty cleanKey then sanitized
    else
      match value with
      | JNull => Text.assign cleanKey "" sanitized
      | JString s => Text.assign cleanKey (FileParser.sanitizeStringValue s) sanitized
      | JNumber x =>
          if Num.isFinite x then Text.assign cleanKey (Num.toString x) sanitized
          else Text.assign cleanKey (FileParser.sanitizeStringValue (toStr value)) sanitized
      | JBool b => Text.assign cleanKey (if b then "true" else "false") sanitized
      | JArray items =>
          Text.assign cleanKey
            (Js.join ", "
               (map (fun item => FileParser.sanitizeStringValue (toStr item))
                  (List.filter notNull items)))
            sanitized
      | JObject nested => fold_left (nestedStep cleanKey) nested sanitized
      end.

Definition sanitizeJSONData (data : list (string * Json)) : gmap string string :=
  fold_left entryStep data ∅.

Section Parse.

(** [JSON.parse]: the value, or the message of the SyntaxError. *)
Variable JSON_parse : string -> Result Json.

Definition parseJSON (content : string) : Result (gmap string string) :=
  if Js.isEmpty (Js.trim content) then Throw "JSON file is empty"
  else
    match JSON_parse content with
    | Throw msg => Throw ("Invalid JSON format: " +:+ msg)
    | Return (JObject entries) =>
        if (length entries =? 0)%nat then Throw "JSON object cannot be empty"
        else Return (sanitizeJSONData entries)
    | Return _ => Throw "JSON must contain an object with key-value pairs"
    end.

(** [parse(file)], with the outcome of [readFileAsync(file)]: the text of
    the file, or the message the read is rejected with. *)
Definition parse (file : option File) (read : Result string)
    : Result (gmap string string) :=
  let wrap (msg : string) : Result (gmap string string) :=
    Throw ("File parsing failed: " +:+ msg) in
  let rethrow (r : Result (gmap string string)) : Result (gmap string string) :=
    match r with
    | Return data => Return data
    | Throw msg => wrap msg
    end in
  match validateFile file, file with
  | Throw msg, _ => wrap msg
  | Return _, None => wrap "No file provided" (* not reached: no file is not valid *)
  | Return _, Some f =>
      match read with
      | Throw msg => wrap msg
      | Return content =>
          match getFileExtension (fileName f) with
          | Throw msg => wrap msg
          | Return extension =>
              if String.eqb extension "json" then rethrow (parseJSON content)
              else if String.eqb extension "csv" then rethrow (parseCSV content)
              else if String.eqb extension "txt" then rethrow (parseTXT content)
              else wrap ("Unsupported file format: " +:+ extension)
          end
      end
  end.

End Parse.

End Parser.

(** ** Notions used to state further properties *)

(** The candidates of [mapFieldsToData] before the sort: one for each
    detected field that has a best match, in detection order. *)
Definition candidatesInOrder (currentMappings : Table) (detectedFields : list Field)
    (userData : gmap string string) : list MappedField :=
  omap (fun f =>
          match FieldMapper.findBestMatch f userData
                  (FieldMapper.getActiveMappings currentMappings) with
          | Some dataField =>
              Some {| field := f; dataField := key dataField;
                      value := keyValue dataField;
                      confidence := score dataField |}
          | None => None
          end)
       detectedFields.

(** [a] comes no later than [b] in a list sorted by descending
    confidence. *)
Definition noLessConfident (a b : MappedField) : Prop :=
  confidence b <= confidence a.

(** A text input whose id is the letter a and a double quote: the
    selector built from it for the label is not valid, and the query
    throws. *)
Definition quotedId : Element :=
  {| tagName := "INPUT"; elType := "text"; role := "";
     elId := String "a" (String "034" EmptyString); elName := "email";
     elPlaceholder := ""; elTitle := ""; attrAriaLabel := ""; attrDataName := "";
     associatedLabel := Throw "not a valid selector"; elValue := ""; maxLength := -1;
     min := ""; max := ""; options := []; disabled := false; readOnly := false;
     styleShown := true; attached := true; width := 200; height := 20;
     focusMethod := true; focusOk := true; multiple := false; ownValue := fun v => v;
     invalidState := "InvalidStateError" |}.

(** The controls detection has a descriptor for: those shown, enabled and
    writable whose label is looked up without an exception. *)
Definition described (e : Element) : bool :=
  FormFieldDetector.fillable e
  && match associatedLabel e with Return _ => true | Throw _ => false end.

(** Whether a text strategy cuts the trimmed text [t] for control [e],
    and the text it assigns to the control. *)
Definition truncates (e : Element) (t : string) : bool :=
  (0 <? maxLength e) && (maxLength e <? Js.len t).
Definition assigned (e : Element) (t : string) : string :=
  if truncates e t then Js.substring0 (Z.to_nat (maxLength e)) t else t.

(** The option [fillSelectField] settles on for a value: the first whose
    value is the trimmed value, else the first whose trimmed text equals
    it up to letter case, else the first whose trimmed text contains it
    up to letter case. *)
Definition chosenOption (opts : list (string * string)) (value : string)
    : option (string * string) :=
  let stringValue := Js.trim value in
  let text (opt : string * string) := Js.toLowerCase (Js.trim (snd opt)) in
  match find (fun opt => String.eqb (fst opt) stringValue) opts with
  | Some o => Some o
  | None =>
      match find (fun opt => String.eqb (text opt) (Js.toLowerCase stringValue)) opts with
      | Some o => Some o
      | None => find (fun opt => Js.includes (text opt) (Js.toLowerCase stringValue)) opts
      end
  end.

(** The types [setFieldValue] handles by assigning to [element.value]
    through the text fill: all but select and the role-based widgets. *)
Definition fillsAsText (fieldType : string) : bool :=
  negb (existsb (String.eqb fieldType)
          ["select"; "textbox"; "combobox"; "listbox"; "radiogroup"]).

(** A select control for a country, with a placeholder option. *)
Definition countrySelect : Element :=
  {| tagName := "SELECT"; elType := "select-one"; role := ""; elId := "country";
     elName := "country"; elPlaceholder := ""; elTitle := ""; attrAriaLabel := "";
     attrDataName := ""; associatedLabel := Return "Country"; elValue := "";
     maxLength := -1; min := ""; max := "";
     options := [("", "Choose"); ("NO", "Norway"); ("SE", "Sweden")];
     disabled := false; readOnly := false; styleShown := true; attached := true;
     width := 200; height := 20; focusMethod := true; focusOk := true;
     multiple := false; ownValue := fun v => v; invalidState := "InvalidStateError" |}.

(** The number of entries of a list, as a counter. *)
Definition count {A} (l : list A) : Z := Z.of_nat (length l).


(** The separators of a TXT line, and the index of the first character
    of a line that is one. *)
Definition isSeparator (c : ascii) : bool :=
  Ascii.eqb c ":" || Ascii.eqb c "=" || Ascii.eqb c "009".

Fixpoint firstSeparator (line : string) : option nat :=
  match line with
  | EmptyString => None
  | String x r =>
      if isSeparator x then Some O
      else match firstSeparator r with
           | Some n => Some (S n)
           | None => None
           end
  end.

(** The pairs of the lines of a TXT file that parse, in the order of the
    lines, but for the pairs whose key is [__proto__]. *)
Definition parsedPairs (lines : list string) : list (string * string) :=
  omap (fun line =>
          match Parser.parseTXTLine line with
          | Return (key, value) =>
              if String.eqb key "__proto__" then None else Some (key, value)
          | Throw _ => None
          end)
       lines.

(** What the sanitiser guarantees of a value. *)
Definition cleanValue (v : string) : Prop :=
  (String.length v <= 1000)%nat
  /\ Text.hasChar FileParser.isMarkupChar v = false
  /\ Text.hasChar FileParser.isNull v = false
  /\ Js.startsClean v.

(** What the parser guarantees of a key or header name. *)
Definition cleanKeyName (k : string) : Prop :=
  k <> "" /\ Text.hasChar FileParser.isMarkupChar k = false /\ Js.trim k = k.

(** The property names every object inherits from [Object.prototype].
    The tables and the record of the field mapper are modelled by the
    properties they have themselves; that is what the code reads at a key
    which is none of these names. *)
Definition inheritedNames : list string :=
  ["constructor"; "__defineGetter__"; "__defineSetter__"; "hasOwnProperty";
   "__lookupGetter__"; "__lookupSetter__"; "isPrototypeOf"; "propertyIsEnumerable";
   "toString"; "valueOf"; "__proto__"; "toLocaleString"].
Definition plainKey (k : string) : bool :=
  negb (existsb (String.eqb k) inheritedNames).

(** A stored table of two keys, one of them a key of the built-in table. *)
Definition storedTable : list (string * list string) :=
  [("email", ["E-Mail"; "Work Mail"]); ("nickname", ["Nick"])].

(** A value of 1001 characters whose character 1000 is a space. *)
Definition longValue : string := Num.zeros 999 +:+ " 1".

(** A key [sanitizeJSONData] skips. *)
Definition droppedKey (key : string) : bool :=
  Js.isEmpty (Js.trim key) || Js.isEmpty (Parser.cleanName key).

(** A record whose text can do no harm in markup: no key is [__proto__],
    neither a key nor a value holds a markup character, and no value holds
    a null character. *)
Definition safeText (s : string) : Prop :=
  Text.hasChar FileParser.isMarkupChar s = false.
Definition safeRecord (m : gmap string string) : Prop :=
  forall k v, m !! k = Some v ->
    k <> "__proto__" /\ safeText k /\ safeText v
    /\ Text.hasChar FileParser.isNull v = false.

(** The lines [parseCSV] keeps, and the delimiter it reads them with. *)
Definition csvLines (content : string) : list string :=
  List.filter (fun line => negb (Js.isEmpty (Js.trim line)))
    (Text.splitOn "010" (Text.normalizeLines content)).

Definition csvDelimiter (content : string) : ascii :=
  Parser.detectCSVDelimiter (Text.normalizeLines content).

(** A file of a header row and two data rows, the second with an empty
    last cell. *)
Definition twoRowCSV : string :=
  "name,email" +:+ String "010" ("Ann,ann@example.org" +:+ String "010" "Bob,").

(** * Properties *)

(** ** Strings *)

Section StringFacts.

Implicit Types (s t : string) (c : ascii) (n : nat).

Lemma length_substring0 n s : (String.length (Js.substring0 n s) <= n)%nat.
Proof.
  revert s. induction n as [|n IH]; intros [|c s]; simpl; try lia.
  specialize (IH s). lia.
Qed.

Lemma length_substring0_exact n s :
  (n <= String.length s)%nat -> String.length (Js.substring0 n s) = n.
Proof.
  revert s. induction n as [|n IH]; intros [|c s]; simpl; try lia.
  intros H. rewrite IH; lia.
Qed.

Lemma In_substring0 n s c : In c (Js.chars (Js.substring0 n s)) -> In c (Js.chars s).
Proof.
  revert s. induction n as [|n IH]; intros [|a s]; simpl; try tauto.
  intros [->|H]; [now left | right; now apply IH].
Qed.

Lemma In_trimStart s c : In c (Js.chars (Js.trimStart s)) -> In c (Js.chars s).
Proof.
  induction s as [|a s IH]; simpl; [tauto|].
  destruct (Js.isWhiteSpace a); simpl; [right; now apply IH | tauto].
Qed.

Lemma In_trimEnd s c : In c (Js.chars (Js.trimEnd s)) -> In c (Js.chars s).
Proof.
  induction s as [|a s IH]; simpl; [tauto|].
  destruct (Js.isWhiteSpace a && Js.isEmpty (Js.trimEnd s)); simpl; [tauto|].
  intros [->|H]; [now left | right; now apply IH].
Qed.

Lemma In_trim s c : In c (Js.chars (Js.trim s)) -> In c (Js.chars s).
Proof. intros H. now apply In_trimStart, In_trimEnd. Qed.

Lemma In_removeAll cls s c :
  In c (Js.chars (Js.removeAll cls s)) -> In c (Js.chars s) /\ cls c = false.
Proof.
  induction s as [|a s IH]; simpl; [tauto|].
  destruct (cls a) eqn:E; simpl.
  - intros H. destruct (IH H). tauto.
  - intros [->|H]; [tauto|]. destruct (IH H). tauto.
Qed.

Lemma chars_removeAll cls s :
  Js.chars (Js.removeAll cls s) = List.filter (fun c => negb (cls c)) (Js.chars s).
Proof.
  induction s as [|a s IH]; simpl; [reflexivity|].
  destruct (cls a); simpl; now rewrite IH.
Qed.

Lemma startsClean_trimStart s : Js.startsClean (Js.trimStart s).
Proof.
  induction s as [|a s IH]; simpl; [exact I|].
  destruct (Js.isWhiteSpace a) eqn:E; [exact IH | exact E].
Qed.

Lemma startsClean_trimEnd s : Js.startsClean s -> Js.startsClean (Js.trimEnd s).
Proof.
  destruct s as [|a s]; simpl; [tauto|].
  intros H. rewrite H. exact H.
Qed.

Lemma startsClean_trim s : Js.startsClean (Js.trim s).
Proof. apply startsClean_trimEnd, startsClean_trimStart. Qed.

Lemma startsClean_substring0 n s : Js.startsClean s -> Js.startsClean (Js.substring0 n s).
Proof. destruct n, s; simpl; tauto. Qed.

Lemma trimStart_clean s : Js.startsClean s -> Js.trimStart s = s.
Proof. destruct s as [|a s]; simpl; [reflexivity|]. now intros ->. Qed.

Lemma trimEnd_idem s : Js.trimEnd (Js.trimEnd s) = Js.trimEnd s.
Proof.
  induction s as [|a s IH]; simpl; [reflexivity|].
  destruct (Js.isWhiteSpace a && Js.isEmpty (Js.trimEnd s)) eqn:E; simpl; [reflexivity|].
  now rewrite IH, E.
Qed.

Lemma trim_idem s : Js.trim (Js.trim s) = Js.trim s.
Proof.
  unfold Js.trim at 1.
  rewrite (trimStart_clean (Js.trim s)) by apply startsClean_trim.
  apply trimEnd_idem.
Qed.

Lemma app_empty t : "" +:+ t = t.
Proof. reflexivity. Qed.

Lemma app_String c s t : String c s +:+ t = String c (s +:+ t).
Proof. reflexivity. Qed.

Lemma length_app s t :
  String.length (s +:+ t) = (String.length s + String.length t)%nat.
Proof.
  induction s as [|a s IH]; [reflexivity|].
  rewrite app_String. simpl. now rewrite IH.
Qed.

Lemma chars_app s t : Js.chars (s +:+ t) = Js.chars s ++ Js.chars t.
Proof.
  induction s as [|c s IH]; [now rewrite app_empty|].
  rewrite app_String. unfold Js.chars in *. simpl. now rewrite IH.
Qed.


Lemma prefix_app s t : String.prefix s (s +:+ t) = true.
Proof.
  induction s as [|a s IH]; [now destruct t|].
  rewrite app_String. simpl.
  destruct (ascii_dec a a); [exact IH | congruence].
Qed.

End StringFacts.

(** ** The file parser's sanitiser *)

(** C10.  Every string [sanitizeStringValue] returns has at most 1000
    characters, contains no less-than, greater-than, apostrophe, double
    quote or ampersand and no null character, and does not start with
    white space. *)
Theorem sanitizeStringValue_is_clean (value : string) :
  let s := FileParser.sanitizeStringValue value in
  (String.length s <= 1000)%nat
  /\ (forall c, In c (Js.chars s) ->
        c <> "<"%char /\ c <> ">"%char /\ c <> "'"%char /\ c <> "034"%char
        /\ c <> "&"%char /\ c <> "000"%char)
  /\ Js.startsClean s.
Proof.
  unfold FileParser.sanitizeStringValue. cbv zeta. split; [|split].
  - apply length_substring0.
  - intros c Hc.
    apply In_substring0, In_trim, In_removeAll in Hc as [Hc Hnull].
    apply In_removeAll in Hc as [_ Hmark].
    repeat split; intros ->; vm_compute in Hnull, Hmark; discriminate.
  - apply startsClean_substring0, startsClean_trim.
Qed.

(** ** Match scores *)

Section MatchScore.

Variables (f : Field) (m : Mapping).

Lemma isExact_spec alias :
  FieldMapper.isExact f alias = true <-> FieldMapper.exactlyNamed f alias.
Proof.
  unfold FieldMapper.isExact, FieldMapper.exactlyNamed.
  rewrite !orb_true_iff, !String.eqb_eq. tauto.
Qed.

Lemma aliasStep_ge sc alias : sc <= FieldMapper.aliasStep f m sc alias.
Proof. unfold FieldMapper.aliasStep. repeat case_match; lia. Qed.

Lemma fold_aliasStep_ge l sc : sc <= fold_left (FieldMapper.aliasStep f m) l sc.
Proof.
  revert sc. induction l as [|a l IH]; intros sc; simpl; [lia|].
  etrans; [apply (aliasStep_ge sc a) | apply IH].
Qed.

Lemma fold_aliasStep_exact l sc alias :
  In alias l -> FieldMapper.isExact f alias = true ->
  priority m * 10 <= fold_left (FieldMapper.aliasStep f m) l sc.
Proof.
  revert sc. induction l as [|a l IH]; intros sc; simpl; [tauto|].
  intros [->|Hin] Hex; [|now apply IH].
  etrans; [|apply fold_aliasStep_ge].
  unfold FieldMapper.aliasStep. rewrite Hex. lia.
Qed.

Lemma fold_aliasStep_substring l sc alias :
  In alias l -> FieldMapper.isExact f alias = false ->
  FieldMapper.inIdentifier f alias = true ->
  priority m * 8 <= fold_left (FieldMapper.aliasStep f m) l sc.
Proof.
  revert sc. induction l as [|a l IH]; intros sc; simpl; [tauto|].
  intros [->|Hin] Hex Hid; [|now apply IH].
  etrans; [|apply fold_aliasStep_ge].
  unfold FieldMapper.aliasStep. rewrite Hex, Hid. lia.
Qed.

Lemma fold_aliasStep_no_exact l sc :
  0 < priority m ->
  (forall alias, In alias l -> FieldMapper.isExact f alias = false) ->
  sc <= priority m * 8 ->
  fold_left (FieldMapper.aliasStep f m) l sc <= priority m * 8.
Proof.
  intros Hp. revert sc. induction l as [|a l IH]; intros sc Hno Hsc; simpl; [exact Hsc|].
  apply IH; [intros; apply Hno; now right|].
  unfold FieldMapper.aliasStep. rewrite (Hno a) by now left.
  repeat case_match; lia.
Qed.

End MatchScore.

(** C1.  For a data key whose mapping has a priority p > 0: a field whose
    name, htmlId, label or ariaLabel equals an alias of the key up to
    letter case scores at least p*10; and when the keyword rule of the key
    does not fire, no alias is matched exactly and some alias occurs in
    the field's identifier, the score is exactly p*8, which is less than
    p*10. *)
Theorem calculateMatchScore_exact_above_substring
    (f : Field) (dataKey : string) (activeMappings : Table) (m : Mapping)
    (Hget : FieldMapper.get activeMappings dataKey = Some m)
    (Hprio : 0 < priority m) :
  ((exists alias, In alias (aliases m) /\ FieldMapper.exactlyNamed f alias) ->
   priority m * 10 <= FieldMapper.calculateMatchScore f dataKey activeMappings)
  /\ (FieldMapper.calculateSmartMatchScore f dataKey m = 0 ->
      (forall alias, In alias (aliases m) -> ~ FieldMapper.exactlyNamed f alias) ->
      (exists alias, In alias (aliases m)
         /\ Js.includes (Js.toLowerCase (identifier f)) (Js.toLowerCase alias) = true) ->
      FieldMapper.calculateMatchScore f dataKey activeMappings = priority m * 8
      /\ priority m * 8 < priority m * 10).
Proof.
  unfold FieldMapper.calculateMatchScore. rewrite Hget. split.
  - intros (alias & Hin & Hex). apply isExact_spec in Hex.
    now apply fold_aliasStep_exact with alias.
  - intros Hsmart Hno (alias & Hin & Hsub). rewrite Hsmart. simpl.
    assert (Hno' : forall a, In a (aliases m) -> FieldMapper.isExact f a = false).
    { intros a Ha. destruct (FieldMapper.isExact f a) eqn:E; [|reflexivity].
      apply isExact_spec in E. now destruct (Hno a Ha). }
    split; [|lia]. apply Z.le_antisymm.
    + apply fold_aliasStep_no_exact; [exact Hprio | exact Hno' | lia].
    + apply fold_aliasStep_substring with alias; auto.
Qed.

(** The built-in table: a field named Email scores 100 for the key email,
    and a field named home_city scores 72 for the key city. *)
Lemma calculateMatchScore_exact_above_substring_witness :
  100 <= FieldMapper.calculateMatchScore (Sample.named "Email") "email"
           FieldMapper.initializeDefaultMappings
  /\ FieldMapper.calculateMatchScore (Sample.named "home_city") "city"
       FieldMapper.initializeDefaultMappings = 72.
Proof.
  split.
  - apply (proj1 (calculateMatchScore_exact_above_substring
                    (Sample.named "Email") "email" FieldMapper.initializeDefaultMappings
                    (FieldMapper.mk ["email"; "email_address"; "e_mail"; "e-mail"; "mail";
                                     "email address"] 10)
                    eq_refl eq_refl)).
    exists "email". split; [now left | now left].
  - apply (proj2 (calculateMatchScore_exact_above_substring
                    (Sample.named "home_city") "city" FieldMapper.initializeDefaultMappings
                    (FieldMapper.mk ["city"; "town"; "locality"] 9)
                    eq_refl eq_refl)).
    + reflexivity.
    + intros alias [<-|[<-|[<-|[]]]] [H|[H|[H|H]]]; vm_compute in H; discriminate.
    + exists "city". split; [now left | reflexivity].
Defined.

(** ** The best match of a field *)

Section BestMatch.

Variables (f : Field) (userData : gmap string string) (t : Table).

Lemma truthy_Some k v :
  FieldMapper.truthy userData k = Some v <-> userData !! k = Some v /\ v <> "".
Proof.
  unfold FieldMapper.truthy. destruct (userData !! k) as [w|].
  - destruct w; simpl; split; try intros [? ?]; try intros ?; simplify_eq; auto.
  - split; [discriminate | intros [? _]; discriminate].
Qed.

Lemma bestInv_nil : FieldMapper.bestInv f userData t [] (None, 0).
Proof. split; [reflexivity | intros k []]. Qed.

Lemma bestInv_step ks st k :
  FieldMapper.bestInv f userData t ks st ->
  FieldMapper.bestInv f userData t (ks ++ [k]) (FieldMapper.bestStep f userData t st k).
Proof.
  destruct st as [bm hs]. unfold FieldMapper.bestInv, FieldMapper.bestStep. simpl.
  intros Hinv.
  assert (Hkeep : forall k', In k' (ks ++ [k]) -> In k' ks \/ k' = k).
  { intros k' Hin. apply in_app_or in Hin as [Hin|[<-|[]]]; auto. }
  destruct (FieldMapper.truthy userData k) as [v|] eqn:Hv;
    [destruct (Z.ltb_spec hs (FieldMapper.calculateMatchScore f k t)) as [Hlt|Hge]|];
    simpl.
  - (* the key becomes the best match *)
    assert (0 <= hs) by (destruct bm; [destruct Hinv as (-> & ? & _) | destruct Hinv as (-> & _)]; lia).
    split; [reflexivity|]. split; [lia|]. split; [reflexivity|]. split; [exact Hv|].
    exists ks, []. simpl. split; [reflexivity|]. split; [|intros ? []].
    intros k' Hin Hc. destruct bm as [m|].
    + destruct Hinv as (-> & _ & Hsc & _ & before & after & -> & Hb & Ha).
      apply in_app_or in Hin as [Hin|[<-|Hin]].
      * specialize (Hb k' Hin Hc). lia.
      * lia.
      * specialize (Ha k' Hin Hc). lia.
    + destruct Hinv as (-> & Hall). specialize (Hall k' Hin Hc). lia.
  - (* a considered key that does not score more *)
    destruct bm as [m|]; simpl.
    + destruct Hinv as (-> & Hpos & Hsc & Htr & before & after & -> & Hb & Ha).
      repeat (split; [assumption || reflexivity|]).
      exists before, (after ++ [k]). rewrite <- app_assoc. simpl.
      repeat (split; [assumption || reflexivity|]).
      intros k' Hin Hc. apply in_app_or in Hin as [Hin|[<-|[]]]; [now apply Ha | lia].
    + destruct Hinv as (-> & Hall). split; [reflexivity|].
      intros k' Hin Hc. destruct (Hkeep k' Hin) as [Hin'| ->]; [now apply Hall | lia].
  - (* the key is not considered *)
    destruct bm as [m|]; simpl.
    + destruct Hinv as (-> & Hpos & Hsc & Htr & before & after & -> & Hb & Ha).
      repeat (split; [assumption || reflexivity|]).
      exists before, (after ++ [k]). rewrite <- app_assoc. simpl.
      repeat (split; [assumption || reflexivity|]).
      intros k' Hin Hc. apply in_app_or in Hin as [Hin|[<-|[]]]; [now apply Ha|].
      rewrite Hv in Hc. now destruct Hc.
    + destruct Hinv as (-> & Hall). split; [reflexivity|].
      intros k' Hin Hc. destruct (Hkeep k' Hin) as [Hin'| ->]; [now apply Hall|].
      rewrite Hv in Hc. now destruct Hc.
Qed.

Lemma bestInv_fold ks :
  FieldMapper.bestInv f userData t ks
    (fold_left (FieldMapper.bestStep f userData t) ks (None, 0)).
Proof.
  induction ks as [|k ks IH] using rev_ind; [apply bestInv_nil|].
  rewrite fold_left_app. simpl. now apply bestInv_step.
Qed.

Lemma findBestMatch_inv :
  match FieldMapper.findBestMatch f userData t with
  | None =>
      forall k, In k (FieldMapper.keys t) -> is_Some (FieldMapper.truthy userData k) ->
                FieldMapper.calculateMatchScore f k t <= 0
  | Some m =>
      0 < score m
      /\ score m = FieldMapper.calculateMatchScore f (key m) t
      /\ FieldMapper.truthy userData (key m) = Some (keyValue m)
      /\ FieldMapper.firstHighest f userData t (FieldMapper.keys t) m
  end.
Proof.
  unfold FieldMapper.findBestMatch.
  pose proof (bestInv_fold (FieldMapper.keys t)) as H.
  unfold FieldMapper.bestInv in H.
  destruct (fst _) as [m|]; [tauto | now destruct H].
Qed.

End BestMatch.

Lemma split_compare {A} (l1 l2 l1' l2' : list A) (a b : A) :
  l1 ++ a :: l2 = l1' ++ b :: l2' ->
  (In a l1' /\ In b l2) \/ a = b \/ (In b l1 /\ In a l2').
Proof.
  revert l1'. induction l1 as [|x l1 IH]; intros [|y l1'] H; simpl in *.
  - right. left. congruence.
  - left. injection H as -> ->. split; [now left|].
    apply in_or_app. right. now left.
  - right. right. injection H as -> <-. split; [now left|].
    apply in_or_app. right. now left.
  - injection H as -> H. destruct (IH l1' H) as [[? ?]|[?|[? ?]]]; auto.
Qed.

Lemma considered (userData : gmap string string) k :
  is_Some (FieldMapper.truthy userData k) <-> exists v, userData !! k = Some v /\ v <> "".
Proof.
  split.
  - intros [v Hv]. exists v. now apply truthy_Some.
  - intros (v & Hv). exists v. now apply truthy_Some.
Qed.

(** C9.  [findBestMatch] is a function of the field, the record and the
    table, and it breaks ties by the order of the table.  Take a key of
    the table whose value in the record is not empty and whose score is
    above 0; when every key before it in the table that has a non-empty
    value in the record scores strictly less, and every such key after it
    scores no more, the candidate is this key with its value and its
    score: of two present keys with the same highest score the earlier
    one is the candidate.  Every candidate is of this kind, and there is
    no candidate exactly when no key of the table with a non-empty value
    in the record scores above 0. *)
Theorem findBestMatch_first_of_highest
    (f : Field) (userData : gmap string string) (t : Table) :
  (forall before k after v,
     map fst t = before ++ k :: after ->
     userData !! k = Some v -> v <> "" ->
     0 < FieldMapper.calculateMatchScore f k t ->
     (forall k' v', In k' before -> userData !! k' = Some v' -> v' <> "" ->
        FieldMapper.calculateMatchScore f k' t < FieldMapper.calculateMatchScore f k t) ->
     (forall k' v', In k' after -> userData !! k' = Some v' -> v' <> "" ->
        FieldMapper.calculateMatchScore f k' t <= FieldMapper.calculateMatchScore f k t) ->
     FieldMapper.findBestMatch f userData t
     = Some {| key := k; keyValue := v;
               score := FieldMapper.calculateMatchScore f k t |})
  /\ (forall m, FieldMapper.findBestMatch f userData t = Some m ->
        exists before after,
          map fst t = before ++ key m :: after
          /\ userData !! key m = Some (keyValue m) /\ keyValue m <> ""
          /\ score m = FieldMapper.calculateMatchScore f (key m) t /\ 0 < score m
          /\ (forall k' v', In k' before -> userData !! k' = Some v' -> v' <> "" ->
                FieldMapper.calculateMatchScore f k' t < score m)
          /\ (forall k' v', In k' after -> userData !! k' = Some v' -> v' <> "" ->
                FieldMapper.calculateMatchScore f k' t <= score m))
  /\ (FieldMapper.findBestMatch f userData t = None <->
      forall k v, In k (map fst t) -> userData !! k = Some v -> v <> "" ->
                  FieldMapper.calculateMatchScore f k t <= 0).
Proof.
  pose proof (findBestMatch_inv f userData t) as H.
  unfold FieldMapper.firstHighest, FieldMapper.keys in H.
  split; [|split].
  - intros before k after v Hks Hv Hne Hpos Hb Ha.
    assert (Hk : is_Some (FieldMapper.truthy userData k)) by (apply considered; eauto).
    destruct (FieldMapper.findBestMatch f userData t) as [m|].
    + destruct H as (Hpos' & Hsc & Htr & before' & after' & Hks' & Hb' & Ha').
      pose proof Htr as Htr'. apply truthy_Some in Htr' as [Hm Hmne].
      assert (Hkey : k = key m).
      { rewrite Hks in Hks'.
        destruct (split_compare _ _ _ _ _ _ Hks') as [[H1 H2]|[H0|[H1 H2]]]; [|exact H0|].
        - specialize (Hb' k H1 Hk). specialize (Ha (key m) (keyValue m) H2 Hm Hmne). lia.
        - specialize (Hb (key m) (keyValue m) H1 Hm Hmne). specialize (Ha' k H2 Hk). lia. }
      destruct m as [mk mv ms]. simpl in *. subst mk. f_equal. f_equal; congruence.
    + exfalso. assert (Hin : In k (map fst t)).
      { rewrite Hks. apply in_or_app. right. now left. }
      specialize (H k Hin Hk). lia.
  - intros m Hm. rewrite Hm in H.
    destruct H as (Hpos & Hsc & Htr & before & after & Hks & Hb & Ha).
    apply truthy_Some in Htr as [Hv Hne].
    exists before, after. repeat (split; [assumption|]). split.
    + intros k' v' Hin Hv' Hne'. apply Hb; [exact Hin|]. apply considered. eauto.
    + intros k' v' Hin Hv' Hne'. apply Ha; [exact Hin|]. apply considered. eauto.
  - destruct (FieldMapper.findBestMatch f userData t) as [m|]; split.
    + discriminate.
    + intros Hall. destruct H as (Hpos & Hsc & Htr & before & after & Hks & _).
      apply truthy_Some in Htr as [Hv Hne].
      assert (Hin : In (key m) (map fst t)).
      { rewrite Hks. apply in_or_app. right. now left. }
      specialize (Hall (key m) (keyValue m) Hin Hv Hne). lia.
    + intros _ k v Hin Hv Hne. apply H; [exact Hin|]. apply considered. eauto.
    + reflexivity.
Qed.

(** The keys phone and mobile of the built-in table both score 90 on a
    field named mobile; with both in the record, the candidate carries
    phone, which comes first in the table. *)
Lemma findBestMatch_first_of_highest_witness :
  FieldMapper.findBestMatch (Sample.named "mobile")
    {[ "mobile" := "222"; "phone" := "111" ]}
    FieldMapper.initializeDefaultMappings
  = Some {| key := "phone"; keyValue := "111";
            score := FieldMapper.calculateMatchScore (Sample.named "mobile") "phone"
                       FieldMapper.initializeDefaultMappings |}.
Proof.
  apply (proj1 (findBestMatch_first_of_highest (Sample.named "mobile")
                  {[ "mobile" := "222"; "phone" := "111" ]}
                  FieldMapper.initializeDefaultMappings)
           ["firstName"; "lastName"; "email"] "phone"
           ["street"; "city"; "state"; "zipCode"; "country"; "fullName"; "dateOfBirth";
            "gender"; "mobile"; "linkedIn"] "111").
  - reflexivity.
  - reflexivity.
  - discriminate.
  - reflexivity.
  - intros k' v' Hin Hv _. simpl in Hin.
    repeat (destruct Hin as [<-|Hin]; [vm_compute in Hv; discriminate Hv|]).
    destruct Hin.
  - intros k' v' Hin Hv _. simpl in Hin.
    repeat (destruct Hin as [<-|Hin];
            [first [vm_compute in Hv; discriminate Hv | vm_compute; discriminate]|]).
    destruct Hin.
Defined.

(** The keys phone and mobile of the built-in table both score 90 on a
    field named mobile; the candidate carries phone, enumerated first. *)
Example findBestMatch_tie_phone_mobile :
  FieldMapper.calculateMatchScore (Sample.named "mobile") "phone"
    FieldMapper.initializeDefaultMappings = 90
  /\ FieldMapper.calculateMatchScore (Sample.named "mobile") "mobile"
       FieldMapper.initializeDefaultMappings = 90
  /\ FieldMapper.findBestMatch (Sample.named "mobile")
       {[ "mobile" := "222"; "phone" := "111" ]}
       FieldMapper.initializeDefaultMappings
     = Some {| key := "phone"; keyValue := "111"; score := 90 |}.
Proof. vm_compute. auto. Qed.

Section EmptyValues.

Variables (f : Field) (userData : gmap string string) (t : Table).

Lemma truthy_dropEmpty k :
  FieldMapper.truthy (FieldMapper.dropEmpty userData) k = FieldMapper.truthy userData k.
Proof.
  destruct (FieldMapper.truthy userData k) as [v|] eqn:E.
  - apply truthy_Some. apply truthy_Some in E as [E Hv]. split; [|exact Hv].
    apply map_lookup_filter_Some. auto.
  - destruct (FieldMapper.truthy (FieldMapper.dropEmpty userData) k) as [v|] eqn:E';
      [|reflexivity].
    apply truthy_Some in E' as [E' Hv].
    apply map_lookup_filter_Some in E' as [E' _].
    rewrite <- E. symmetry. apply truthy_Some. auto.
Qed.

Lemma fold_bestStep_dropEmpty ks st :
  fold_left (FieldMapper.bestStep f (FieldMapper.dropEmpty userData) t) ks st
  = fold_left (FieldMapper.bestStep f userData t) ks st.
Proof.
  revert st. induction ks as [|k ks IH]; intros st; simpl; [reflexivity|].
  rewrite IH. unfold FieldMapper.bestStep. now rewrite truthy_dropEmpty.
Qed.

End EmptyValues.

Lemma In_insertByConfidence x y l :
  In y (FieldMapper.insertByConfidence x l) -> y = x \/ In y l.
Proof.
  induction l as [|z l IH]; simpl.
  - intros [<-|[]]. now left.
  - destruct (confidence z - confidence x <=? 0); simpl.
    + intros [<-|H]; auto.
    + intros [<-|H]; [auto|]. destruct (IH H); auto.
Qed.

Lemma In_sortByConfidence y l : In y (FieldMapper.sortByConfidence l) -> In y l.
Proof.
  induction l as [|x l IH]; simpl; [tauto|].
  intros H. apply In_insertByConfidence in H as [->|H]; auto.
Qed.

(** C8.  A key whose value in the record is the empty string is never
    considered by [findBestMatch]: the result is that of the record
    without such keys.  So a field all of whose scoring keys have the empty
    string as value gets no candidate, and no candidate, of
    [findBestMatch] or of [mapFieldsToData], carries an empty value. *)
Theorem findBestMatch_skips_empty_values
    (f : Field) (userData : gmap string string) (t : Table) :
  FieldMapper.findBestMatch f userData t
  = FieldMapper.findBestMatch f (FieldMapper.dropEmpty userData) t
  /\ ((forall k, In k (FieldMapper.keys t) ->
         0 < FieldMapper.calculateMatchScore f k t -> userData !! k = Some "") ->
      FieldMapper.findBestMatch f userData t = None)
  /\ (forall m, FieldMapper.findBestMatch f userData t = Some m ->
        userData !! key m = Some (keyValue m) /\ keyValue m <> "")
  /\ (forall currentMappings fields mf,
        In mf (FieldMapper.mapFieldsToData currentMappings fields userData) ->
        value mf <> "").
Proof.
  assert (Hsome : forall t' f' m, FieldMapper.findBestMatch f' userData t' = Some m ->
            userData !! key m = Some (keyValue m) /\ keyValue m <> "").
  { intros t' f' m Hm. pose proof (findBestMatch_inv f' userData t') as H.
    rewrite Hm in H. destruct H as (_ & _ & Htr & _). now apply truthy_Some in Htr. }
  split; [|split; [|split]].
  - unfold FieldMapper.findBestMatch. now rewrite fold_bestStep_dropEmpty.
  - intros Hall. pose proof (findBestMatch_inv f userData t) as H.
    destruct (FieldMapper.findBestMatch f userData t) as [m|] eqn:Hm; [|reflexivity].
    destruct H as (Hpos & Hsc & Htr & before & after & Hks & _).
    apply truthy_Some in Htr as [Hval Hne].
    rewrite Hall in Hval.
    + now simplify_eq.
    + rewrite Hks. apply in_or_app. right. now left.
    + lia.
  - apply Hsome.
  - intros cm fields mf Hin. unfold FieldMapper.mapFieldsToData in Hin.
    apply In_sortByConfidence, list_elem_of_In, list_elem_of_omap in Hin
      as (f' & _ & Hf').
    destruct (FieldMapper.findBestMatch f' userData _) as [m|] eqn:Hm; [|discriminate].
    apply Hsome in Hm as [_ Hne]. now simplify_eq.
Qed.

(** ** Fill strategies on a control that takes the focus *)

Section FillFacts.

Variables (p : Page) (i : nat) (e : Element).
Hypothesis Hel : elements p !! i = Some e.
Hypothesis Hfm : focusMethod e = true.
Hypothesis Hfo : focusOk e = true.

Lemma focusElement_ok : focusElement i p = (Return true, p).
Proof.
  unfold focusElement, tryCatch, bind, getElement. rewrite Hel, Hfm. simpl.
  unfold ret. now rewrite Hfo.
Qed.

Lemma assignValue_ok q v :
  elements q = elements p ->
  assignValue i v q =
  match Html.held e v with
  | Return stored => (Return tt, withValue i stored q)
  | Throw msg => (Throw msg, q)
  end.
Proof. intros Hq. unfold assignValue. now rewrite Hq, Hel. Qed.

Lemma fillTextField_ok v :
  fillTextField i v p =
  let t := Js.trim v in
  let q := if truncates e t
           then withWarning ("Value truncated to fit maxLength constraint: "
                             +:+ pretty (maxLength e)) p
           else p in
  match Html.held e (assigned e t) with
  | Return stored => (Return true, withValue i stored q)
  | Throw msg => (Throw ("Text field fill failed: " +:+ msg), q)
  end.
Proof.
  unfold fillTextField, tryCatch. unfold bind at 1. rewrite focusElement_ok. simpl.
  unfold bind at 1. unfold getElement. rewrite Hel.
  unfold assigned, truncates.
  destruct ((0 <? maxLength e) && (maxLength e <? Js.len (Js.trim v))).
  - unfold bind at 1. unfold bind at 1. unfold warn at 1.
    rewrite assignValue_ok by reflexivity.
    now destruct (Html.held e _).
  - unfold bind at 1. rewrite assignValue_ok by reflexivity.
    now destruct (Html.held e _).
Qed.

Lemma fillTextareaField_ok v :
  fillTextareaField i v p =
  let t := Js.trim v in
  let q := if truncates e t
           then withWarning ("Textarea value truncated to fit maxLength constraint: "
                             +:+ pretty (maxLength e)) p
           else p in
  match Html.held e (assigned e t) with
  | Return stored => (Return true, withValue i stored q)
  | Throw msg => (Throw ("Textarea field fill failed: " +:+ msg), q)
  end.
Proof.
  unfold fillTextareaField, tryCatch. unfold bind at 1. rewrite focusElement_ok. simpl.
  unfold bind at 1. unfold getElement. rewrite Hel.
  unfold assigned, truncates.
  destruct ((0 <? maxLength e) && (maxLength e <? Js.len (Js.trim v))).
  - unfold bind at 1. unfold bind at 1. unfold warn at 1.
    rewrite assignValue_ok by reflexivity.
    now destruct (Html.held e _).
  - unfold bind at 1. rewrite assignValue_ok by reflexivity.
    now destruct (Html.held e _).
Qed.


(** Only a file input refuses an assignment. *)
Lemma held_returns v :
  Html.kind e <> Html.FileName -> exists stored, Html.held e v = Return stored.
Proof. unfold Html.held. destruct (Html.kind e); try congruence; eauto. Qed.

Lemma fillTextField_returns v :
  Html.kind e <> Html.FileName -> fst (fillTextField i v p) = Return true.
Proof.
  intros Hk. rewrite fillTextField_ok. cbv zeta.
  destruct (held_returns (assigned e (Js.trim v)) Hk) as [stored ->]. reflexivity.
Qed.

Lemma fillPhoneField_ok v :
  Html.kind e <> Html.FileName ->
  fillPhoneField i v p
  = fillTextField i (Js.removeAll (fun c => negb (isPhoneChar c)) (Js.trim v)) p.
Proof.
  intros Hk. unfold fillPhoneField, tryCatch.
  pose proof (fillTextField_returns
                (Js.removeAll (fun c => negb (isPhoneChar c)) (Js.trim v)) Hk) as H.
  destruct (fillTextField i _ p) as [[b|msg] q]; [reflexivity|discriminate].
Qed.

Lemma fillUrlField_ok v :
  Html.kind e <> Html.FileName ->
  fillUrlField i v p
  = fillTextField i
      (if negb (Js.isEmpty (Js.trim v)) && negb (hasScheme (Js.trim v))
       then "https://" +:+ Js.trim v else Js.trim v) p.
Proof.
  intros Hk. unfold fillUrlField, tryCatch.
  pose proof (fillTextField_returns
                (if negb (Js.isEmpty (Js.trim v)) && negb (hasScheme (Js.trim v))
                 then "https://" +:+ Js.trim v else Js.trim v) Hk) as H.
  destruct (fillTextField i _ p) as [[b|msg] q]; [reflexivity|discriminate].
Qed.

End FillFacts.

Lemma withValue_lookup p i e v :
  elements p !! i = Some e -> elements (withValue i v p) !! i = Some (setElValue v e).
Proof. intros H. simpl. now rewrite list_lookup_alter_eq, H. Qed.

Lemma withValue_twice p i v : withValue i v (withValue i v p) = withValue i v p.
Proof.
  unfold withValue, setElements. simpl. f_equal.
  rewrite list_alter_alter_eq. now apply list_alter_ext.
Qed.

Lemma code_is (c : ascii) (n : N) :
  (n < 256)%N -> (Js.code c =? n)%N = true <-> c = ascii_of_N n.
Proof.
  intros Hn. rewrite N.eqb_eq. unfold Js.code. split.
  - intros <-. now rewrite ascii_N_embedding.
  - intros ->. now apply N_ascii_embedding.
Qed.

Lemma isPhoneChar_spec c :
  isPhoneChar c = true <->
  Js.isDigit c = true \/ c = "+"%char \/ c = "-"%char \/ Js.isWhiteSpace c = true
  \/ c = "("%char \/ c = ")"%char.
Proof.
  unfold isPhoneChar. cbv zeta.
  rewrite !orb_true_iff, !code_is by reflexivity. tauto.
Qed.

(** ** What a control keeps of a trimmed text *)

Lemma isNewline_ws c : Html.isNewline c = true -> Js.isWhiteSpace c = true.
Proof.
  unfold Html.isNewline, Js.isWhiteSpace. cbv zeta. generalize (Js.code c). intros n.
  rewrite !orb_true_iff, !andb_true_iff, !N.eqb_eq, !N.leb_le. lia.
Qed.

Lemma isAsciiWhitespace_ws c : Html.isAsciiWhitespace c = true -> Js.isWhiteSpace c = true.
Proof.
  unfold Html.isAsciiWhitespace, Js.isWhiteSpace. cbv zeta. generalize (Js.code c). intros n.
  rewrite !orb_true_iff, !andb_true_iff, !N.eqb_eq, !N.leb_le. lia.
Qed.

Lemma stripNewlines_clean s :
  (forall c, In c (Js.chars s) -> Html.isNewline c = false) -> Html.stripNewlines s = s.
Proof.
  unfold Html.stripNewlines, Js.chars.
  induction s as [|c r IH]; simpl; intros H; [reflexivity|].
  rewrite (H c) by now left. f_equal. apply IH. intros d Hd. apply H. now right.
Qed.


Lemma len_stripNewlines s : Js.len (Html.stripNewlines s) <= Js.len s.
Proof.
  unfold Js.len, Html.stripNewlines.
  induction s as [|c r IH]; simpl; [lia|].
  destruct (Html.isNewline c); simpl; lia.
Qed.

Lemma not_CR c : Html.isNewline c = false -> Ascii.eqb c "013" = false.
Proof.
  intros H. apply Ascii.eqb_neq. intros ->. discriminate H.
Qed.

Lemma replaceCR_clean s :
  (forall c, In c (Js.chars s) -> Html.isNewline c = false) -> Text.replaceCR s = s.
Proof.
  unfold Js.chars. induction s as [|c r IH]; simpl; intros H; [reflexivity|].
  rewrite (not_CR c) by (apply H; now left). f_equal. apply IH. intros d Hd. apply H. now right.
Qed.

Lemma replaceCRLF_clean s :
  (forall c, In c (Js.chars s) -> Html.isNewline c = false) -> Text.replaceCRLF s = s.
Proof.
  unfold Js.chars. induction s as [|c r IH]; intros H; [reflexivity|].
  cbn [Text.replaceCRLF]. destruct r as [|d r']; [reflexivity|].
  rewrite (not_CR c) by (apply H; now left). cbn [andb]. f_equal.
  apply IH. intros x Hx. apply H. now right.
Qed.

Lemma normalizeLines_clean s :
  (forall c, In c (Js.chars s) -> Html.isNewline c = false) -> Text.normalizeLines s = s.
Proof.
  intros H. unfold Text.normalizeLines. rewrite (replaceCRLF_clean s H).
  now apply replaceCR_clean.
Qed.




Lemma startsClean_stripNewlines s :
  Js.startsClean s -> Js.startsClean (Html.stripNewlines s).
Proof.
  destruct s as [|c r]; [trivial|]. simpl. intros Hc. unfold Html.stripNewlines. simpl.
  destruct (Html.isNewline c) eqn:Hn; [|exact Hc].
  apply isNewline_ws in Hn. congruence.
Qed.

Lemma stripStart_clean s : Js.startsClean s -> Html.stripStart s = s.
Proof.
  destruct s as [|c r]; [reflexivity|]. simpl. intros Hc.
  destruct (Html.isAsciiWhitespace c) eqn:Ha; [|reflexivity].
  apply isAsciiWhitespace_ws in Ha. congruence.
Qed.




(** C5 as stated fails: the value 555+1234 is stored by the phone strategy
    with its inner plus sign, whereas the cleaning the claim describes
    would store 5551234. *)
Lemma fillPhoneField_keeps_inner_plus :
  let p := Sample.page [Sample.input "tel" "phone" (-1)] in
  map elValue (elements (snd (fillPhoneField 0 "555+1234" p))) = ["555+1234"]
  /\ map elValue
       (elements (snd (fillTextField 0 (phoneCleanAsStated (Js.trim "555+1234")) p)))
     = ["5551234"]
  /\ fst (fillPhoneField 0 "555+1234" p) = Return true.
Proof. vm_compute. auto. Qed.

(** C5, amended.  On a control that takes the focus and is no file
    input, the phone strategy is the text fill of the trimmed value from
    which every character is deleted except digits, plus signs at any
    position, hyphens, white space and parentheses; it returns true. *)
Theorem fillPhoneField_keeps_phone_class
    (p : Page) (i : nat) (e : Element) (v : string)
    (Hel : elements p !! i = Some e)
    (Hctl : Html.kind e <> Html.FileName)
    (Hfm : focusMethod e = true) (Hfo : focusOk e = true) :
  exists cleaned,
    Js.chars cleaned
    = List.filter
        (fun c => Js.isDigit c || Ascii.eqb c "+" || Ascii.eqb c "-" || Js.isWhiteSpace c
                  || Ascii.eqb c "(" || Ascii.eqb c ")")
        (Js.chars (Js.trim v))
    /\ fillPhoneField i v p = fillTextField i cleaned p
    /\ fst (fillPhoneField i v p) = Return true.
Proof.
  exists (Js.removeAll (fun c => negb (isPhoneChar c)) (Js.trim v)).
  split; [|split].
  - rewrite chars_removeAll. apply filter_ext. intros c. rewrite negb_involutive.
    unfold isPhoneChar. cbv zeta.
    assert (Heq : forall n, (n < 256)%N -> (Js.code c =? n)%N = Ascii.eqb c (ascii_of_N n)).
    { intros n Hn. apply eq_true_iff_eq. rewrite code_is, Ascii.eqb_eq by exact Hn. tauto. }
    now rewrite !Heq by reflexivity.
  - now apply fillPhoneField_ok with e.
  - rewrite (fillPhoneField_ok p i e) by assumption.
    now apply fillTextField_returns with e.
Qed.

Lemma fillPhoneField_keeps_phone_class_witness :
  exists cleaned,
    Js.chars cleaned
    = List.filter
        (fun c => Js.isDigit c || Ascii.eqb c "+" || Ascii.eqb c "-" || Js.isWhiteSpace c
                  || Ascii.eqb c "(" || Ascii.eqb c ")")
        (Js.chars (Js.trim " +1 (555) 010-9999 ext. 5 "))
    /\ fillPhoneField 0 " +1 (555) 010-9999 ext. 5 " (Sample.page [Sample.input "tel" "phone" (-1)])
       = fillTextField 0 cleaned (Sample.page [Sample.input "tel" "phone" (-1)])
    /\ fst (fillPhoneField 0 " +1 (555) 010-9999 ext. 5 "
              (Sample.page [Sample.input "tel" "phone" (-1)])) = Return true.
Proof.
  apply (fillPhoneField_keeps_phone_class
           (Sample.page [Sample.input "tel" "phone" (-1)]) 0
           (Sample.input "tel" "phone" (-1)) " +1 (555) 010-9999 ext. 5 ");
    try reflexivity.
  vm_compute. discriminate.
Defined.

(** ** The URL strategy *)





(** ** One iteration of the fill loop on a control that can be filled *)

Section StepFacts.

Variable widgetFill : string -> nat -> string -> M bool.
Variable env : Env.
Variables (p : Page) (mf : MappedField) (e : Element).
Hypothesis Hel : elements p !! element (field mf) = Some e.
Hypothesis Hatt : attached e = true.
Hypothesis Hdis : disabled e = false.
Hypothesis Hro : readOnly e = false.
Hypothesis Hw : width e <> 0.
Hypothesis Hh : height e <> 0.

Lemma fillSingleField_ready :
  fillSingleField widgetFill mf p
  = tryCatch
      (let* success :=
         setFieldValue widgetFill (element (field mf)) (value mf) (fieldType (field mf)) in
       if success then triggerChangeEvents (element (field mf)) ;; ret true
       else ret false)
      (fun msg =>
         warn ("Error filling field " +:+ identifier (field mf) +:+ ": " +:+ msg) ;;
         throw ("Failed to fill field " +:+ identifier (field mf) +:+ ": " +:+ msg)) p.
Proof.
  unfold fillSingleField. rewrite Hel, Hatt, Hdis, Hro. simpl.
  apply Z.eqb_neq in Hw, Hh. now rewrite Hw, Hh.
Qed.

Lemma fillSingleField_settles b q :
  setFieldValue widgetFill (element (field mf)) (value mf) (fieldType (field mf)) p
  = (Return b, q) ->
  fillSingleField widgetFill mf p
  = (Return b,
     if b then setEvents (events q ++ [(element (field mf), "input")]
                          ++ [(element (field mf), "change")]) q
     else q).
Proof.
  intros H. rewrite fillSingleField_ready. unfold tryCatch, bind at 1. rewrite H.
  destruct b; [|reflexivity].
  unfold triggerChangeEvents, bind, dispatch, ret. simpl.
  unfold setEvents. simpl. now rewrite <- app_assoc.
Qed.

Lemma fillStep_settles k r b q :
  timerFirst env k = false ->
  setFieldValue widgetFill (element (field mf)) (value mf) (fieldType (field mf)) p
  = (Return b, q) ->
  fillStep widgetFill env k mf r p
  = if b then (addFilled r,
               setEvents (events q ++ [(element (field mf), "input")]
                          ++ [(element (field mf), "change")]) q)
    else (pushWarning ("Could not fill field: " +:+ identifier (field mf)) (addSkipped r),
          q).
Proof.
  intros Ht H. unfold fillStep, attempt, isAttached. rewrite Hel, Hatt. simpl.
  unfold bind, raceWithTimer. rewrite (fillSingleField_settles b q H), Ht.
  unfold ret. now destruct b.
Qed.

Lemma setFieldValue_textLike :
  isTextLike (fieldType (field mf)) = true ->
  focusMethod e = true -> focusOk e = true -> Html.kind e <> Html.FileName ->
  setFieldValue widgetFill (element (field mf)) (value mf) (fieldType (field mf)) p
  = fillTextField (element (field mf)) (value mf) p.
Proof.
  intros Hk Hfm Hfo Hctl. unfold isTextLike in Hk. apply negb_true_iff in Hk. simpl in Hk.
  repeat (apply orb_false_iff in Hk as [? Hk]).
  unfold setFieldValue, tryCatch. simpl.
  repeat match goal with H : String.eqb _ _ = false |- _ => rewrite H; clear H end.
  simpl. rewrite (fillTextField_ok p _ e) by assumption. cbv zeta.
  destruct (held_returns e (assigned e (Js.trim (value mf))) Hctl) as [stored ->].
  reflexivity.
Qed.

Lemma setFieldValue_textarea :
  fieldType (field mf) = "textarea" ->
  focusMethod e = true -> focusOk e = true -> Html.kind e <> Html.FileName ->
  setFieldValue widgetFill (element (field mf)) (value mf) (fieldType (field mf)) p
  = fillTextareaField (element (field mf)) (value mf) p.
Proof.
  intros Hk Hfm Hfo Hctl. unfold setFieldValue, tryCatch. rewrite Hk. simpl.
  rewrite (fillTextareaField_ok p _ e) by assumption. cbv zeta.
  destruct (held_returns e (assigned e (Js.trim (value mf))) Hctl) as [stored ->].
  reflexivity.
Qed.

End StepFacts.

(** ** Truncation to maxLength *)

(** C3 as stated fails: the value 123456789012 goes into a text control
    of maxLength 5 as 12345 and the control counts as filled, but the
    warnings of the result stay empty; the truncation notice is on the
    console only. *)
Lemma truncation_warning_not_in_results :
  let run :=
    handlePerformAutoFill Sample.widget Sample.env
      (Sample.request {[ "zipCode" := "123456789012" ]})
      (Sample.page [Sample.input "text" "zip" 5]) in
  map elValue (elements (snd run)) = ["12345"]
  /\ results (fst run)
     = Some {| fieldsDetected := 1; fieldsFilled := 1; fieldsSkipped := 0;
               errors := []; warnings := [] |}
  /\ console (snd run) = ["Value truncated to fit maxLength constraint: 5"].
Proof. vm_compute. auto. Qed.

(** C3, amended.  For a text-like or textarea candidate whose control is
    a single-line text control or a textarea, in the document, enabled,
    of non-zero size and taking the focus, and whose positive maxLength
    is less than the length of the trimmed value: the strategy assigns
    the first maxLength characters of the trimmed value and returns true;
    the control then holds them, a single-line control without their line
    breaks and a textarea with its line breaks read as LF, so exactly
    these maxLength characters when there is no line break among them;
    one truncation notice is written to the console, and the iteration
    counts the field as filled and leaves the warnings and errors of the
    result as they were. *)
Theorem fillStep_truncates_to_maxLength
    (widgetFill : string -> nat -> string -> M bool) (env : Env) (k : nat)
    (mf : MappedField) (r : Results) (p : Page) (e : Element)
    (Hel : elements p !! element (field mf) = Some e)
    (Hctl : Html.kind e = Html.SingleLine \/ Html.kind e = Html.TextArea)
    (Hatt : attached e = true) (Hdis : disabled e = false) (Hro : readOnly e = false)
    (Hw : width e <> 0) (Hh : height e <> 0)
    (Hfm : focusMethod e = true) (Hfo : focusOk e = true)
    (Htimer : timerFirst env k = false)
    (Hkind : isTextLike (fieldType (field mf)) = true \/ fieldType (field mf) = "textarea")
    (Hpos : 0 < maxLength e)
    (Hlong : maxLength e < Js.len (Js.trim (value mf))) :
  let i := element (field mf) in
  let cut := Js.substring0 (Z.to_nat (maxLength e)) (Js.trim (value mf)) in
  exists q notice e',
    setFieldValue widgetFill i (value mf) (fieldType (field mf)) p = (Return true, q)
    /\ elements q !! i = Some e'
    /\ elValue e' = match Html.kind e with
                    | Html.TextArea => Text.normalizeLines cut
                    | _ => Html.stripNewlines cut
                    end
    /\ ((forall c, In c (Js.chars cut) -> Html.isNewline c = false) -> elValue e' = cut)
    /\ String.length cut = Z.to_nat (maxLength e)
    /\ console q = console p ++ [notice +:+ pretty (maxLength e)]
    /\ (notice = "Value truncated to fit maxLength constraint: "
        \/ notice = "Textarea value truncated to fit maxLength constraint: ")
    /\ fst (fillStep widgetFill env k mf r p) = addFilled r
    /\ elements (snd (fillStep widgetFill env k mf r p)) = elements q
    /\ console (snd (fillStep widgetFill env k mf r p)) = console q
    /\ warnings (fst (fillStep widgetFill env k mf r p)) = warnings r
    /\ errors (fst (fillStep widgetFill env k mf r p)) = errors r.
Proof.
  cbv zeta.
  set (cut := Js.substring0 (Z.to_nat (maxLength e)) (Js.trim (value mf))).
  set (stored := match Html.kind e with
                 | Html.TextArea => Text.normalizeLines cut
                 | _ => Html.stripNewlines cut
                 end).
  assert (Hcut : truncates e (Js.trim (value mf)) = true).
  { apply andb_true_iff. split; [now apply Z.ltb_lt | now apply Z.ltb_lt]. }
  assert (Hlen : String.length cut = Z.to_nat (maxLength e)).
  { apply length_substring0_exact. unfold Js.len in Hlong. lia. }
  assert (Hfile : Html.kind e <> Html.FileName).
  { destruct Hctl as [H|H]; rewrite H; discriminate. }
  assert (Hheld : Html.held e (assigned e (Js.trim (value mf))) = Return stored).
  { unfold assigned. rewrite Hcut. fold cut. unfold Html.held, stored.
    destruct Hctl as [H|H]; now rewrite H. }
  assert (Hsame : (forall c, In c (Js.chars cut) -> Html.isNewline c = false) ->
                  stored = cut).
  { intros Hno. unfold stored.
    destruct Hctl as [H|H]; rewrite H;
      [now apply stripNewlines_clean | now apply normalizeLines_clean]. }
  destruct Hkind as [Hk|Hk].
  - eexists _, "Value truncated to fit maxLength constraint: ", (setElValue stored e).
    pose proof (setFieldValue_textLike widgetFill p mf e Hel Hk Hfm Hfo Hfile) as Hset.
    rewrite (fillTextField_ok p _ e Hel Hfm Hfo) in Hset. cbv zeta in Hset.
    rewrite Hcut, Hheld in Hset.
    rewrite (fillStep_settles widgetFill env p mf e Hel Hatt Hdis Hro Hw Hh k r true _ Htimer Hset).
    split; [exact Hset|]. split; [now apply withValue_lookup|].
    split; [reflexivity|]. split; [exact Hsame|]. split; [exact Hlen|].
    repeat split; auto.
  - eexists _, "Textarea value truncated to fit maxLength constraint: ", (setElValue stored e).
    pose proof (setFieldValue_textarea widgetFill p mf e Hel Hk Hfm Hfo Hfile) as Hset.
    rewrite (fillTextareaField_ok p _ e Hel Hfm Hfo) in Hset. cbv zeta in Hset.
    rewrite Hcut, Hheld in Hset.
    rewrite (fillStep_settles widgetFill env p mf e Hel Hatt Hdis Hro Hw Hh k r true _ Htimer Hset).
    split; [exact Hset|]. split; [now apply withValue_lookup|].
    split; [reflexivity|]. split; [exact Hsame|]. split; [exact Hlen|].
    repeat split; auto.
Qed.

Lemma fillStep_truncates_to_maxLength_witness :
  exists q notice e',
    setFieldValue Sample.widget 0 "123456789012" "text" (Sample.page [Sample.zip])
    = (Return true, q)
    /\ elements q !! 0%nat = Some e'
    /\ elValue e' = Html.stripNewlines "12345"
    /\ ((forall c, In c (Js.chars "12345") -> Html.isNewline c = false) ->
        elValue e' = "12345")
    /\ String.length "12345" = 5%nat
    /\ console q = [notice +:+ "5"]
    /\ (notice = "Value truncated to fit maxLength constraint: "
        \/ notice = "Textarea value truncated to fit maxLength constraint: ")
    /\ fst (fillStep Sample.widget Sample.env 0 Sample.zipCandidate Sample.emptyResults
              (Sample.page [Sample.zip]))
       = addFilled Sample.emptyResults
    /\ elements (snd (fillStep Sample.widget Sample.env 0 Sample.zipCandidate
                        Sample.emptyResults (Sample.page [Sample.zip])))
       = elements q
    /\ console (snd (fillStep Sample.widget Sample.env 0 Sample.zipCandidate
                       Sample.emptyResults (Sample.page [Sample.zip])))
       = console q
    /\ warnings (fst (fillStep Sample.widget Sample.env 0 Sample.zipCandidate
                        Sample.emptyResults (Sample.page [Sample.zip])))
       = []
    /\ errors (fst (fillStep Sample.widget Sample.env 0 Sample.zipCandidate
                      Sample.emptyResults (Sample.page [Sample.zip])))
       = [].
Proof.
  apply (fillStep_truncates_to_maxLength Sample.widget Sample.env 0 Sample.zipCandidate
           Sample.emptyResults (Sample.page [Sample.zip]) Sample.zip);
    try reflexivity; try discriminate.
  - left. reflexivity.
  - left. reflexivity.
Defined.

(** ** The number strategy *)

(** C4, the defect.  The text Infinity parses to a number that is neither
    NaN nor finite; on a number control with min 0 and no max the strategy
    does not reject it but returns true, and the run counts the field as
    filled, where the claim has false and a skip. *)
Lemma fillNumberField_accepts_Infinity :
  let p := Sample.page [Sample.numberInput "quantity" "0" ""] in
  let run := handlePerformAutoFill Sample.widget Sample.env
               (Sample.quantityRequest "Infinity") p in
  Num.parseFloat "Infinity" = Infinity false
  /\ Num.isFinite (Num.parseFloat "Infinity") = false
  /\ fst (fillNumberField 0 "Infinity" p) = Return true
  /\ results (fst run)
     = Some {| fieldsDetected := 1; fieldsFilled := 1; fieldsSkipped := 0;
               errors := []; warnings := [] |}.
Proof. vm_compute. auto 6. Qed.

(** Numbers are doubles: 1e400 is read as Infinity and accepted in the
    same way, and 9007199254740993 is read as 9007199254740992, which is
    not above a max of that value. *)
Example fillNumberField_reads_doubles :
  Num.parseFloat "1e400" = Infinity false
  /\ fst (fillNumberField 0 "1e400" (Sample.page [Sample.numberInput "quantity" "0" ""]))
     = Return true
  /\ Num.toString (Num.parseFloat "9007199254740993") = "9007199254740992"
  /\ map elValue
       (elements
          (snd (fillNumberField 0 "9007199254740993"
                  (Sample.page [Sample.numberInput "quantity" "0" "9007199254740992"]))))
     = ["9007199254740992"]
  /\ Num.toString (Num.parseFloat "0.1") = "0.1"
  /\ Num.toString (Num.parseFloat "123456789012345678901") = "123456789012345680000"
  /\ Num.toString (Num.parseFloat "1e21") = "1e+21".
Proof. vm_compute. auto 10. Qed.

(** What the strategy does reject: a value that parses to NaN, or that
    lies below a declared min or above a declared max, gives false and
    leaves the controls as they are. *)
Lemma fillNumberField_rejects (p : Page) (i : nat) (e : Element) (v : string) :
  elements p !! i = Some e ->
  Num.isNaN (Num.parseFloat v) = true
  \/ (min e <> "" /\ Num.lt (Num.parseFloat v) (Num.parseFloat (min e)) = true)
  \/ (max e <> "" /\ Num.gt (Num.parseFloat v) (Num.parseFloat (max e)) = true) ->
  exists q, fillNumberField i v p = (Return false, q) /\ elements q = elements p.
Proof.
  intros Hel H. unfold fillNumberField, tryCatch.
  destruct (Num.isNaN (Num.parseFloat v)) eqn:Hnan; [eexists; split; reflexivity|].
  unfold bind at 1. unfold getElement. rewrite Hel.
  destruct H as [H|[[Hm H]|[Hm H]]]; [congruence| |].
  - rewrite H. destruct (min e); [congruence|]. eexists; split; reflexivity.
  - rewrite H. destruct (max e) eqn:E; [congruence|].
    destruct (negb (Js.isEmpty (min e)) && _); eexists; split; reflexivity.
Qed.

(** Scenario D: the value 15 for a number control with min 0 and max 10
    is a skip with a warning and without an error. *)
Example number_out_of_range_is_skipped :
  let run := handlePerformAutoFill Sample.widget Sample.env
               (Sample.quantityRequest "15")
               (Sample.page [Sample.numberInput "quantity" "0" "10"]) in
  results (fst run)
  = Some {| fieldsDetected := 1; fieldsFilled := 0; fieldsSkipped := 1;
            errors := []; warnings := ["Could not fill field: quantity"] |}
  /\ map elValue (elements (snd run)) = [""].
Proof. vm_compute. auto. Qed.

(** ** A page without fillable controls *)

Lemma scan_none now i els :
  (forall e, In e els -> FormFieldDetector.fillable e = false) ->
  FormFieldDetector.scan now i els = [].
Proof.
  revert i. induction els as [|e els IH]; intros i H; simpl; [reflexivity|].
  rewrite (H e) by now left. apply IH. intros e' He'. apply H. now right.
Qed.

Lemma notices_none now i els :
  (forall e, In e els -> FormFieldDetector.fillable e = false) ->
  FormFieldDetector.notices now i els = [].
Proof.
  revert i. induction els as [|e els IH]; intros i H; simpl; [reflexivity|].
  rewrite (H e) by now left. apply IH. intros e' He'. apply H. now right.
Qed.

Lemma detected_quiet now q :
  FormFieldDetector.notices now 0 (elements q) = [] ->
  FormFieldDetector.detected now q = q.
Proof.
  intros H. unfold FormFieldDetector.detected. rewrite H, app_nil_r. now destruct q.
Qed.

(** C7 as stated fails: on a page whose only control is not shown the
    response is a failure of type NO_FIELDS, but it carries no result
    object and no counts. *)
Lemma no_fields_response_has_no_counts :
  let run := handlePerformAutoFill Sample.widget Sample.env
               (Sample.request {[ "email" := "a@b.com" ]})
               (Sample.page [Sample.hidden]) in
  success (fst run) = false
  /\ errorType (fst run) = Some "NO_FIELDS"
  /\ results (fst run) = None
  /\ fieldsCount (fst run) = None.
Proof. vm_compute. auto. Qed.

(** C7, amended.  A request with a non-empty record, on a loaded page
    none of whose controls is shown, enabled and writable, is answered,
    without an exception, by the failure response of type NO_FIELDS with
    its fixed message; the response has no result object and no counts,
    and no control of the page is changed. *)
Theorem handlePerformAutoFill_no_fields
    (widgetFill : string -> nat -> string -> M bool) (env : Env)
    (message : Message) (p : Page) (d : gmap string string)
    (Hdata : userData message = Some d)
    (Hsize : size d <> 0%nat)
    (Hready : readyState p = "complete")
    (Hnone : forall e, In e (elements p) -> FormFieldDetector.fillable e = false) :
  fst (handlePerformAutoFill widgetFill env message p)
  = {| success := false; fieldsCount := None; results := None;
       error := Some "No fillable form fields found on this page.";
       errorType := Some "NO_FIELDS" |}
  /\ elements (snd (handlePerformAutoFill widgetFill env message p)) = elements p.
Proof.
  assert (Hrun : forall q, elements q = elements p ->
            performAutoFillWithErrorHandling widgetFill env d q
            = (Throw "No fillable fields detected on this page", q)).
  { intros q Hq. unfold performAutoFillWithErrorHandling, tryCatch, performAutoFill.
    unfold FormFieldDetector.detectFields. rewrite Hq, scan_none by exact Hnone.
    rewrite detected_quiet by (rewrite Hq; now apply notices_none).
    reflexivity. }
  assert (Hpair : exists q, handlePerformAutoFill widgetFill env message p
                            = (failure "No fillable form fields found on this page."
                                 "NO_FIELDS", q)
                            /\ elements q = elements p).
  { unfold handlePerformAutoFill. rewrite Hdata.
    apply Nat.eqb_neq in Hsize. rewrite Hsize.
    unfold bind, ret. cbv beta. rewrite Hready.
    change (negb ("complete" =? "complete")%string) with false. cbv iota.
    destruct (fieldMappings message) as [fm|]; rewrite Hrun by reflexivity;
      eexists; split; reflexivity. }
  destruct Hpair as (q & -> & Hq). split; [reflexivity | exact Hq].
Qed.

Lemma handlePerformAutoFill_no_fields_witness :
  fst (handlePerformAutoFill Sample.widget Sample.env
         (Sample.request {[ "email" := "a@b.com" ]}) (Sample.page [Sample.hidden]))
  = {| success := false; fieldsCount := None; results := None;
       error := Some "No fillable form fields found on this page.";
       errorType := Some "NO_FIELDS" |}
  /\ elements (snd (handlePerformAutoFill Sample.widget Sample.env
                      (Sample.request {[ "email" := "a@b.com" ]})
                      (Sample.page [Sample.hidden])))
     = [Sample.hidden].
Proof.
  apply (handlePerformAutoFill_no_fields Sample.widget Sample.env
           (Sample.request {[ "email" := "a@b.com" ]}) (Sample.page [Sample.hidden])
           {[ "email" := "a@b.com" ]}).
  - reflexivity.
  - vm_compute. discriminate.
  - reflexivity.
  - intros e [<-|[]]. reflexivity.
Defined.

(** ** The fill loop *)

Section LoopFacts.

Variable widgetFill : string -> nat -> string -> M bool.
Variable env : Env.





Lemma fillLoop_split mapped : forall i r p,
  fillLoop widgetFill env i mapped r p
  = (if (attemptedFrom env i (length mapped) <? length mapped)%nat
     then pushWarning timeoutWarning
            (fst (runSteps widgetFill env i
                    (take (attemptedFrom env i (length mapped)) mapped) r p))
     else fst (runSteps widgetFill env i
                 (take (attemptedFrom env i (length mapped)) mapped) r p),
     snd (runSteps widgetFill env i
            (take (attemptedFrom env i (length mapped)) mapped) r p)).
Proof.
  induction mapped as [|mf rest IH]; intros i r p; [reflexivity|].
  cbn [fillLoop attemptedFrom length].
  destruct (budgetExhausted env i); [reflexivity|].
  cbn [take runSteps].
  destruct (fillStep widgetFill env i mf r p) as [r' p']. rewrite IH.
  change (S (attemptedFrom env (S i) (length rest)) <? S (length rest))%nat
    with (attemptedFrom env (S i) (length rest) <? length rest)%nat.
  reflexivity.
Qed.

Lemma attemptedFrom_spec n : forall i,
  (attemptedFrom env i n <= n)%nat
  /\ (forall j, (j < attemptedFrom env i n)%nat -> budgetExhausted env (i + j) = false)
  /\ ((attemptedFrom env i n < n)%nat ->
      budgetExhausted env (i + attemptedFrom env i n) = true).
Proof.
  induction n as [|n IH]; intros i; simpl.
  - repeat split; intros; lia.
  - destruct (budgetExhausted env i) eqn:E.
    + repeat split; [lia | intros; lia | intros _; now rewrite Nat.add_0_r].
    + destruct (IH (S i)) as (H1 & H2 & H3). repeat split.
      * lia.
      * intros [|j] Hj; [now rewrite Nat.add_0_r|].
        replace (i + S j)%nat with (S i + j)%nat by lia. apply H2. lia.
      * intros Hlt. replace (i + S (attemptedFrom env (S i) n))%nat
          with (S i + attemptedFrom env (S i) n)%nat by lia.
        apply H3. lia.
Qed.



End LoopFacts.


(** Scenario E, with three candidates and the budget used up before the
    third iteration: two controls are filled, the third is neither filled
    nor in error, and the result has the one time-out warning. *)
Example fillLoop_stops_on_budget :
  let run := handlePerformAutoFill Sample.widget Sample.slowEnv
               (Sample.request {[ "email" := "a@b.com"; "city" := "Oslo"; "country" := "Norway" ]})
               (Sample.page [Sample.input "email" "email" (-1);
                             Sample.input "text" "city" (-1);
                             Sample.input "text" "country" (-1)]) in
  results (fst run)
  = Some {| fieldsDetected := 3; fieldsFilled := 2; fieldsSkipped := 0; errors := [];
            warnings := [timeoutWarning] |}
  /\ map elValue (elements (snd run)) = ["a@b.com"; "Oslo"; ""].
Proof. vm_compute. auto. Qed.

(** A timer that rejects first in the second iteration: that field is in
    the errors and skipped, and the third candidate is still filled. *)
Example fillLoop_continues_after_timeout :
  let run := handlePerformAutoFill Sample.widget Sample.timerEnv
               (Sample.request {[ "email" := "a@b.com"; "city" := "Oslo"; "country" := "Norway" ]})
               (Sample.page [Sample.input "email" "email" (-1);
                             Sample.input "text" "city" (-1);
                             Sample.input "text" "country" (-1)]) in
  results (fst run)
  = Some {| fieldsDetected := 3; fieldsFilled := 2; fieldsSkipped := 1;
            errors := [{| errField := "city"; errError := "Field fill timeout" |}];
            warnings := [] |}.
Proof. vm_compute. auto. Qed.

(** * Further properties of the content script *)

(** ** The order of the candidates *)

Lemma insertByConfidence_perm x l :
  Permutation (FieldMapper.insertByConfidence x l) (x :: l).
Proof.
  induction l as [|y l IH]; simpl; [reflexivity|].
  destruct (confidence y - confidence x <=? 0); [reflexivity|].
  rewrite IH. apply perm_swap.
Qed.

Lemma insertByConfidence_sorted x l :
  StronglySorted noLessConfident l ->
  StronglySorted noLessConfident (FieldMapper.insertByConfidence x l).
Proof.
  induction 1 as [|y l Hs IH Hall]; simpl.
  - repeat constructor.
  - destruct (Z.leb_spec (confidence y - confidence x) 0) as [Hle|Hgt].
    + constructor; [now constructor|].
      constructor; [unfold noLessConfident; lia|].
      eapply Forall_impl; [exact Hall|]. unfold noLessConfident. intros z Hz. lia.
    + constructor; [exact IH|].
      rewrite (insertByConfidence_perm x l). constructor; [|exact Hall].
      unfold noLessConfident. lia.
Qed.

Lemma insertByConfidence_filter c x l :
  filter (fun m => confidence m = c) (FieldMapper.insertByConfidence x l)
  = filter (fun m => confidence m = c) (x :: l).
Proof.
  induction l as [|y l IH]; simpl; [reflexivity|].
  destruct (Z.leb_spec (confidence y - confidence x) 0) as [Hle|Hgt]; [reflexivity|].
  rewrite (filter_cons _ y), IH, !filter_cons.
  repeat case_decide; try reflexivity; lia.
Qed.

Lemma sortByConfidence_spec l :
  StronglySorted noLessConfident (FieldMapper.sortByConfidence l)
  /\ Permutation (FieldMapper.sortByConfidence l) l
  /\ (forall c, filter (fun m => confidence m = c) (FieldMapper.sortByConfidence l)
                = filter (fun m => confidence m = c) l).
Proof.
  induction l as [|x l (Hs & Hp & Hf)]; simpl.
  - repeat split; constructor.
  - split; [now apply insertByConfidence_sorted|]. split.
    + rewrite insertByConfidence_perm. now constructor.
    + intros c. rewrite insertByConfidence_filter, !filter_cons, Hf. reflexivity.
Qed.

(** X1.  The candidates [mapFieldsToData] returns are those of the
    detected fields, sorted by descending confidence, and candidates of
    equal confidence stay in detection order. *)
Theorem mapFieldsToData_sorted_stable
    (currentMappings : Table) (fields : list Field) (userData : gmap string string) :
  let out := FieldMapper.mapFieldsToData currentMappings fields userData in
  StronglySorted noLessConfident out
  /\ Permutation out (candidatesInOrder currentMappings fields userData)
  /\ (forall c, filter (fun m => confidence m = c) out
                = filter (fun m => confidence m = c)
                    (candidatesInOrder currentMappings fields userData)).
Proof.
  cbv zeta.
  apply (sortByConfidence_spec (candidatesInOrder currentMappings fields userData)).
Qed.

Lemma mapFieldsToData_length currentMappings fields (userData : gmap string string) :
  (length (FieldMapper.mapFieldsToData currentMappings fields userData) <= length fields)%nat.
Proof.
  pose proof (sortByConfidence_spec (candidatesInOrder currentMappings fields userData))
    as (_ & Hperm & _).
  change (FieldMapper.sortByConfidence (candidatesInOrder currentMappings fields userData))
    with (FieldMapper.mapFieldsToData currentMappings fields userData) in Hperm.
  rewrite Hperm. clear Hperm. unfold candidatesInOrder.
  induction fields as [|f fs IH]; csimpl; [lia|].
  destruct (FieldMapper.findBestMatch f userData _); csimpl; lia.
Qed.

(** X2.  With a custom table whose keys are plain, every candidate of
    [mapFieldsToData] belongs to a detected field, carries a key of the
    active table together with the value the record has for it, and has as
    confidence the positive score of that pair; there is at most one
    candidate for each detected field. *)
Theorem mapFieldsToData_candidates
    (currentMappings : Table) (fields : list Field) (userData : gmap string string)
    (Hplain : forallb plainKey (FieldMapper.keys currentMappings) = true) :
  let active := FieldMapper.getActiveMappings currentMappings in
  let out := FieldMapper.mapFieldsToData currentMappings fields userData in
  (forall mf, In mf out ->
     In (field mf) fields
     /\ In (dataField mf) (FieldMapper.keys active)
     /\ userData !! dataField mf = Some (value mf)
     /\ confidence mf = FieldMapper.calculateMatchScore (field mf) (dataField mf) active
     /\ 0 < confidence mf)
  /\ (length out <= length fields)%nat
  /\ (NoDup fields -> NoDup (map field out)).
Proof.
  cbv zeta.
  pose proof (sortByConfidence_spec (candidatesInOrder currentMappings fields userData))
    as (_ & Hperm & _).
  change (FieldMapper.sortByConfidence (candidatesInOrder currentMappings fields userData))
    with (FieldMapper.mapFieldsToData currentMappings fields userData) in Hperm.
  assert (Hcand : forall mf, mf ∈ candidatesInOrder currentMappings fields userData ->
            exists m, FieldMapper.findBestMatch (field mf) userData
                        (FieldMapper.getActiveMappings currentMappings) = Some m
                      /\ field mf ∈ fields /\ dataField mf = key m
                      /\ value mf = keyValue m /\ confidence mf = score m).
  { intros mf Hin. apply list_elem_of_omap in Hin as (f & Hf & Hsome).
    destruct (FieldMapper.findBestMatch f userData _) as [m|] eqn:Hm; [|discriminate].
    simplify_eq. simpl. eauto 10. }
  split; [|split].
  - intros mf Hin. apply list_elem_of_In in Hin. rewrite Hperm in Hin.
    apply Hcand in Hin as (m & Hm & Hf & Hk & Hv & Hc).
    pose proof (findBestMatch_inv (field mf) userData
                  (FieldMapper.getActiveMappings currentMappings)) as Hinv.
    rewrite Hm in Hinv. destruct Hinv as (Hpos & Hsc & Htr & before & after & Hks & _).
    apply truthy_Some in Htr as [Htr _].
    rewrite Hk, Hv, Hc. repeat split; try assumption.
    + now apply list_elem_of_In.
    + rewrite Hks. apply in_or_app. right. now left.
  - apply mapFieldsToData_length.
  - intros Hnd. rewrite Hperm. unfold candidatesInOrder.
    clear Hperm Hcand. induction fields as [|f fs IH]; csimpl; [constructor|].
    apply NoDup_cons in Hnd as [Hnotin Hnd].
    destruct (FieldMapper.findBestMatch f userData _) as [m|]; [|now apply IH].
    csimpl. apply NoDup_cons. split; [|now apply IH].
    intros Hin. apply Hnotin. apply list_elem_of_fmap in Hin as (mf & Hmf & Hin).
    apply list_elem_of_omap in Hin as (f' & Hf' & Hsome).
    destruct (FieldMapper.findBestMatch f' userData _); [|discriminate].
    simplify_eq. simpl. exact Hf'.
Qed.

Lemma mapFieldsToData_candidates_witness :
  (forall mf,
     In mf (FieldMapper.mapFieldsToData (FieldMapper.updateMappings storedTable)
              [Sample.named "nick"; Sample.named "work mail"]
              (<["email" := "ann@example.org"]> (<["nickname" := ""]> ∅))) ->
     In (field mf) [Sample.named "nick"; Sample.named "work mail"]
     /\ In (dataField mf)
          (FieldMapper.keys (FieldMapper.getActiveMappings
                               (FieldMapper.updateMappings storedTable)))
     /\ (<["email" := "ann@example.org"]> (<["nickname" := ""]> ∅) : gmap string string)
        !! dataField mf = Some (value mf)
     /\ confidence mf
        = FieldMapper.calculateMatchScore (field mf) (dataField mf)
            (FieldMapper.getActiveMappings (FieldMapper.updateMappings storedTable))
     /\ 0 < confidence mf)
  /\ (length (FieldMapper.mapFieldsToData (FieldMapper.updateMappings storedTable)
                [Sample.named "nick"; Sample.named "work mail"]
                (<["email" := "ann@example.org"]> (<["nickname" := ""]> ∅)))
      <= length [Sample.named "nick"; Sample.named "work mail"])%nat
  /\ (NoDup [Sample.named "nick"; Sample.named "work mail"] ->
      NoDup (map field
               (FieldMapper.mapFieldsToData (FieldMapper.updateMappings storedTable)
                  [Sample.named "nick"; Sample.named "work mail"]
                  (<["email" := "ann@example.org"]> (<["nickname" := ""]> ∅))))).
Proof.
  exact (mapFieldsToData_candidates (FieldMapper.updateMappings storedTable)
           [Sample.named "nick"; Sample.named "work mail"]
           (<["email" := "ann@example.org"]> (<["nickname" := ""]> ∅)) eq_refl).
Defined.

(** ** Custom alias tables *)

Lemma lowerChar_idem c : Js.lowerChar (Js.lowerChar c) = Js.lowerChar c.
Proof. destruct c as [[] [] [] [] [] [] [] []]; reflexivity. Qed.

Lemma toLowerCase_idem s : Js.toLowerCase (Js.toLowerCase s) = Js.toLowerCase s.
Proof. induction s as [|c s IH]; simpl; [reflexivity|]. now rewrite lowerChar_idem, IH. Qed.

Lemma default_priority_range k d :
  FieldMapper.get FieldMapper.initializeDefaultMappings k = Some d -> 7 <= priority d <= 10.
Proof.
  unfold FieldMapper.initializeDefaultMappings, FieldMapper.get.
  repeat match goal with
         | |- context [String.eqb ?a k] =>
             destruct (String.eqb a k); [intros [= <-]; simpl; lia|]
         end.
  discriminate.
Qed.

Lemma get_not_key t k : ~ In k (FieldMapper.keys t) -> FieldMapper.get t k = None.
Proof.
  induction t as [|[k' m] t IH]; simpl; [reflexivity|].
  intros H. destruct (String.eqb_spec k' k) as [->|Hne]; [tauto|]. apply IH. tauto.
Qed.

(** X3.  On a stored table whose keys are plain, [updateMappings] keeps
    the keys in their order, lower-cases every alias, and gives each key
    the priority of the built-in key of that name, else 8, so always one
    from 7 to 10.  A stored table with at least one key becomes the active
    table as a whole: a plain key it does not list scores 0 for every
    field, also when the built-in table has it.  An empty stored table
    leaves the built-in table active. *)
Theorem updateMappings_replaces_table (fieldMappings : list (string * list string))
    (Hplain : forallb plainKey (map fst fieldMappings) = true) :
  FieldMapper.keys (FieldMapper.updateMappings fieldMappings) = map fst fieldMappings
  /\ (forall k m, In (k, m) (FieldMapper.updateMappings fieldMappings) ->
        (forall a, In a (aliases m) -> Js.toLowerCase a = a)
        /\ 7 <= priority m <= 10
        /\ priority m
           = match FieldMapper.get FieldMapper.initializeDefaultMappings k with
             | Some d => priority d
             | None => 8
             end)
  /\ (fieldMappings <> [] ->
      FieldMapper.getActiveMappings (FieldMapper.updateMappings fieldMappings)
      = FieldMapper.updateMappings fieldMappings
      /\ forall f k, plainKey k = true -> ~ In k (map fst fieldMappings) ->
           FieldMapper.calculateMatchScore f k
             (FieldMapper.getActiveMappings (FieldMapper.updateMappings fieldMappings)) = 0)
  /\ FieldMapper.getActiveMappings (FieldMapper.updateMappings [])
     = FieldMapper.initializeDefaultMappings.
Proof.
  assert (Hkeys : FieldMapper.keys (FieldMapper.updateMappings fieldMappings)
                  = map fst fieldMappings).
  { unfold FieldMapper.keys, FieldMapper.updateMappings. rewrite map_map.
    apply map_ext. now intros [k al]. }
  split; [exact Hkeys|]. split; [|split; [|reflexivity]].
  - intros k m Hin. unfold FieldMapper.updateMappings in Hin.
    apply in_map_iff in Hin as ([k' al] & Heq & _).
    cbv beta iota zeta delta [FieldMapper.mk] in Heq.
    apply pair_equal_spec in Heq as [<- <-]. cbn [aliases priority].
    split; [|split; [|reflexivity]].
    + intros a Ha. apply in_map_iff in Ha as (a' & <- & _). apply toLowerCase_idem.
    + destruct (FieldMapper.get FieldMapper.initializeDefaultMappings k') as [d|] eqn:E;
        [|lia].
      now apply default_priority_range with k'.
  - intros Hne.
    assert (Hact : FieldMapper.getActiveMappings (FieldMapper.updateMappings fieldMappings)
                   = FieldMapper.updateMappings fieldMappings).
    { destruct fieldMappings as [|[k al] fm]; [congruence | reflexivity]. }
    split; [exact Hact|]. intros f k _ Hk. rewrite Hact.
    unfold FieldMapper.calculateMatchScore. rewrite get_not_key; [reflexivity|].
    now rewrite Hkeys.
Qed.

Lemma updateMappings_replaces_table_witness :
  FieldMapper.keys (FieldMapper.updateMappings storedTable) = map fst storedTable
  /\ (forall k m, In (k, m) (FieldMapper.updateMappings storedTable) ->
        (forall a, In a (aliases m) -> Js.toLowerCase a = a)
        /\ 7 <= priority m <= 10
        /\ priority m
           = match FieldMapper.get FieldMapper.initializeDefaultMappings k with
             | Some d => priority d
             | None => 8
             end)
  /\ (storedTable <> [] ->
      FieldMapper.getActiveMappings (FieldMapper.updateMappings storedTable)
      = FieldMapper.updateMappings storedTable
      /\ forall f k, plainKey k = true -> ~ In k (map fst storedTable) ->
           FieldMapper.calculateMatchScore f k
             (FieldMapper.getActiveMappings (FieldMapper.updateMappings storedTable)) = 0)
  /\ FieldMapper.getActiveMappings (FieldMapper.updateMappings [])
     = FieldMapper.initializeDefaultMappings.
Proof. exact (updateMappings_replaces_table storedTable eq_refl). Defined.

(** ** Field identifiers *)

Lemma toLowerCase_app s t :
  Js.toLowerCase (s +:+ t) = Js.toLowerCase s +:+ Js.toLowerCase t.
Proof.
  induction s as [|c s IH]; [reflexivity|].
  rewrite app_String. simpl. now rewrite IH.
Qed.

Lemma app_empty_r s : s +:+ "" = s.
Proof. induction s as [|c s IH]; [reflexivity|]. now rewrite app_String, IH. Qed.

Lemma app_assoc_s (s t u : string) : (s +:+ t) +:+ u = s +:+ t +:+ u.
Proof. induction s as [|c s IH]; [reflexivity|]. now rewrite !app_String, IH. Qed.

Lemma includes_prefix s t : String.prefix t s = true -> Js.includes s t = true.
Proof. intros H. destruct s; cbn [Js.includes]; rewrite H; reflexivity. Qed.

Lemma includes_mid pre a post : Js.includes (pre +:+ a +:+ post) a = true.
Proof.
  induction pre as [|c pre IH].
  - change (Js.includes (a +:+ post) a = true). apply includes_prefix, prefix_app.
  - rewrite app_String. cbn [Js.includes]. rewrite IH. apply orb_true_r.
Qed.

Lemma join_contains sep parts a :
  In a parts -> exists pre post, Js.join sep parts = pre +:+ a +:+ post.
Proof.
  induction parts as [|b parts IH]; [intros []|].
  intros [->|Hin].
  - destruct parts as [|c parts].
    + exists "", "". change (a = a +:+ ""). now rewrite app_empty_r.
    + exists "", (sep +:+ Js.join sep (c :: parts)). reflexivity.
  - destruct (IH Hin) as (pre & post & Heq).
    destruct parts as [|c parts]; [destruct Hin|].
    exists (b +:+ sep +:+ pre), post.
    change (Js.join sep (b :: c :: parts)) with (b +:+ sep +:+ Js.join sep (c :: parts)).
    rewrite Heq. now rewrite !app_assoc_s.
Qed.

(** X4.  The identifier of a field is in lower case, contains the
    lower-cased text of every naming attribute that is not blank, and is
    empty when all of them are blank. *)
Theorem createFieldIdentifier_contains (parts : list string) :
  Js.toLowerCase (FormFieldDetector.createFieldIdentifier parts)
  = FormFieldDetector.createFieldIdentifier parts
  /\ (forall a, In a parts -> Js.trim a <> "" ->
        Js.includes (FormFieldDetector.createFieldIdentifier parts) (Js.toLowerCase a) = true)
  /\ ((forall a, In a parts -> Js.trim a = "") ->
      FormFieldDetector.createFieldIdentifier parts = "").
Proof.
  unfold FormFieldDetector.createFieldIdentifier. split; [apply toLowerCase_idem|]. split.
  - intros a Hin Hne.
    assert (Hkeep : In a (filter (fun id => Is_true (negb (Js.isEmpty id)
                                              && (0 <? Js.len (Js.trim id)))) parts)).
    { apply list_elem_of_In, list_elem_of_filter. split; [|now apply list_elem_of_In].
      apply Is_true_true, andb_true_iff. split.
      - destruct a; [now destruct Hne | reflexivity].
      - apply Z.ltb_lt. unfold Js.len. destruct (Js.trim a); [congruence | simpl; lia]. }
    destruct (join_contains " " _ a Hkeep) as (pre & post & ->).
    rewrite !toLowerCase_app. apply includes_mid.
  - intros Hall.
    replace (filter _ parts) with (@nil string); [reflexivity|].
    symmetry. induction parts as [|b parts IH]; [reflexivity|].
    rewrite filter_cons. rewrite <- IH by (intros; apply Hall; now right).
    case_decide as Hd; [|reflexivity].
    apply Is_true_true, andb_true_iff in Hd as [_ Hd]. apply Z.ltb_lt in Hd.
    rewrite (Hall b) in Hd by now left. discriminate.
Qed.

(** ** Detection *)






(** A control whose label cannot be looked up is passed over with a
    notice, and the next control is detected and filled. *)
Example detectFields_passes_over_quoted_id :
  let run := handlePerformAutoFill Sample.widget Sample.env
               (Sample.request {[ "email" := "a@b.com" ]})
               (Sample.page [quotedId; Sample.input "text" "email" (-1)]) in
  results (fst run)
  = Some {| fieldsDetected := 1; fieldsFilled := 1; fieldsSkipped := 0;
            errors := []; warnings := [] |}
  /\ console (snd run) = ["Error extracting field metadata: not a valid selector"]
  /\ map elValue (elements (snd run)) = [""; "a@b.com"].
Proof. vm_compute. auto. Qed.

(** With no other control on the page the run fails with NO_FIELDS, and
    the notice is on the console. *)
Example detectFields_only_quoted_id :
  let run := handlePerformAutoFill Sample.widget Sample.env
               (Sample.request {[ "email" := "a@b.com" ]}) (Sample.page [quotedId]) in
  errorType (fst run) = Some "NO_FIELDS"
  /\ console (snd run) = ["Error extracting field metadata: not a valid selector"].
Proof. vm_compute. auto. Qed.

(** ** The select strategy *)

Section SelectFacts.

Variables (p : Page) (i : nat) (e : Element).
Hypothesis Hel : elements p !! i = Some e.
Hypothesis Hfm : focusMethod e = true.
Hypothesis Hfo : focusOk e = true.
Hypothesis Hopts : options e <> [].
Hypothesis Hsel : Html.kind e = Html.Select.

(** A select control takes the value of each of its options. *)
Lemma held_option o : In o (options e) -> Html.held e (fst o) = Return (fst o).
Proof.
  intros Hin. unfold Html.held. rewrite Hsel. f_equal.
  replace (existsb _ (options e)) with true; [reflexivity|].
  symmetry. apply existsb_exists. exists o. split; [exact Hin|apply String.eqb_refl].
Qed.

Lemma fillSelectField_ok v :
  fillSelectField i v p
  = match chosenOption (options e) v with
    | Some o => (Return true, withValue i (fst o) p)
    | None =>
        (Return false, withWarning ("No matching option found for value: " +:+ Js.trim v) p)
    end.
Proof.
  unfold fillSelectField, tryCatch. unfold bind at 1.
  rewrite (focusElement_ok p i e Hel Hfm Hfo). cbv beta iota delta [negb].
  unfold bind at 1. unfold getElement. rewrite Hel.
  assert (Hassign : forall o, In o (options e) ->
            bind (assignValue i (fst o)) (fun _ => ret true) p
            = (Return true, withValue i (fst o) p)).
  { intros o Hin. unfold bind.
    rewrite (assignValue_ok p i e Hel p (fst o) eq_refl), (held_option o Hin).
    reflexivity. }
  destruct (options e) as [|o opts] eqn:E; [congruence|].
  unfold chosenOption. cbv beta iota zeta.
  destruct (find _ (o :: opts)) as [o1|] eqn:E1; cbv beta iota;
    [apply find_some in E1 as [Hin _]; now rewrite (Hassign o1 Hin)|clear E1].
  destruct (find _ (o :: opts)) as [o2|] eqn:E2; cbv beta iota;
    [apply find_some in E2 as [Hin _]; now rewrite (Hassign o2 Hin)|clear E2].
  destruct (find _ (o :: opts)) as [o3|] eqn:E3; cbv beta iota;
    [apply find_some in E3 as [Hin _]; now rewrite (Hassign o3 Hin)|].
  reflexivity.
Qed.

End SelectFacts.

Lemma chosenOption_In opts v o : chosenOption opts v = Some o -> In o opts.
Proof.
  unfold chosenOption. cbv zeta.
  destruct (find (fun opt => String.eqb (fst opt) (Js.trim v)) opts) as [o1|] eqn:E1;
    [intros [= <-]; now apply find_some in E1|].
  destruct (find (fun opt => String.eqb (Js.toLowerCase (Js.trim (snd opt)))
                               (Js.toLowerCase (Js.trim v))) opts) as [o2|] eqn:E2;
    [intros [= <-]; now apply find_some in E2|].
  intros E3. now apply find_some in E3.
Qed.

(** X6.  On a select control that takes the focus and has options, the
    strategy returns true exactly when an option matches the value; the
    value it then assigns is the value of an option of the control, and it
    is the trimmed value itself whenever some option has that value.  With
    no matching option it returns false and changes no control. *)
Theorem fillSelectField_assigns_an_option
    (p : Page) (i : nat) (e : Element) (v : string)
    (Hel : elements p !! i = Some e)
    (Hfm : focusMethod e = true) (Hfo : focusOk e = true)
    (Hopts : options e <> [])
    (Hsel : Html.kind e = Html.Select) :
  (forall o, chosenOption (options e) v = Some o ->
     In o (options e)
     /\ fillSelectField i v p = (Return true, withValue i (fst o) p))
  /\ (chosenOption (options e) v = None ->
      fst (fillSelectField i v p) = Return false
      /\ elements (snd (fillSelectField i v p)) = elements p)
  /\ ((exists o, In o (options e) /\ fst o = Js.trim v) ->
      fillSelectField i v p = (Return true, withValue i (Js.trim v) p)).
Proof.
  rewrite (fillSelectField_ok p i e Hel Hfm Hfo Hopts Hsel). split; [|split].
  - intros o Ho. rewrite Ho. split; [now apply chosenOption_In with v | reflexivity].
  - intros ->. split; reflexivity.
  - intros (o & Hin & Ho). unfold chosenOption. cbv zeta.
    destruct (find (fun opt => String.eqb (fst opt) (Js.trim v)) (options e)) as [o1|] eqn:E.
    + apply find_some in E as [_ E]. apply String.eqb_eq in E. now rewrite E.
    + apply (find_none _ _ E) in Hin. apply String.eqb_neq in Hin. congruence.
Qed.

Lemma fillSelectField_assigns_an_option_witness :
  fillSelectField 0 " norway " (Sample.page [countrySelect])
  = (Return true, withValue 0 "NO" (Sample.page [countrySelect])).
Proof.
  refine (proj2 (proj1 (fillSelectField_assigns_an_option
                          (Sample.page [countrySelect]) 0 countrySelect " norway "
                          eq_refl eq_refl eq_refl _ eq_refl) ("NO", "Norway") eq_refl)).
  discriminate.
Defined.

(** X7.  Filling a select control a second time with a value that was
    just filled with success returns true again and leaves the page as
    the first fill left it. *)
Theorem fillSelectField_idempotent
    (p q : Page) (i : nat) (e : Element) (v : string)
    (Hel : elements p !! i = Some e)
    (Hfm : focusMethod e = true) (Hfo : focusOk e = true)
    (Hopts : options e <> [])
    (Hsel : Html.kind e = Html.Select)
    (Hfirst : fillSelectField i v p = (Return true, q)) :
  fillSelectField i v q = (Return true, q).
Proof.
  rewrite (fillSelectField_ok p i e Hel Hfm Hfo Hopts Hsel) in Hfirst.
  destruct (chosenOption (options e) v) as [o|] eqn:Ho; [|discriminate].
  injection Hfirst as <-.
  rewrite (fillSelectField_ok (withValue i (fst o) p) i (setElValue (fst o) e));
    [|now apply withValue_lookup|assumption|assumption|assumption|assumption].
  simpl. rewrite Ho. now rewrite withValue_twice.
Qed.

Lemma fillSelectField_idempotent_witness :
  fillSelectField 0 "swed" (withValue 0 "SE" (Sample.page [countrySelect]))
  = (Return true, withValue 0 "SE" (Sample.page [countrySelect])).
Proof.
  refine (fillSelectField_idempotent (Sample.page [countrySelect]) _ 0 countrySelect "swed"
            eq_refl eq_refl eq_refl _ eq_refl eq_refl).
  discriminate.
Defined.

(** ** Candidates that cannot be filled *)

(** X8.  In an iteration of the fill loop whose timer does not fire, a
    candidate whose control has left the document gets an error entry and
    a skip; a candidate whose control is disabled, read-only or of zero
    width or height gets a skip and a warning and no error entry.  In both
    cases no control is changed. *)
Theorem fillStep_skips_unfillable
    (widgetFill : string -> nat -> string -> M bool) (env : Env) (k : nat)
    (mf : MappedField) (r : Results) (p : Page) (e : Element)
    (Hel : elements p !! element (field mf) = Some e)
    (Htimer : timerFirst env k = false) :
  (attached e = false ->
   fillStep widgetFill env k mf r p
   = (addSkipped (pushError {| errField := identifier (field mf);
                               errError := "Field no longer exists in page" |} r), p))
  /\ (attached e = true ->
      disabled e = true \/ readOnly e = true \/ width e = 0 \/ height e = 0 ->
      exists notice,
        fillStep widgetFill env k mf r p
        = (pushWarning ("Could not fill field: " +:+ identifier (field mf)) (addSkipped r),
           withWarning notice p)).
Proof.
  split.
  - intros Hatt. unfold fillStep, attempt, isAttached. now rewrite Hel, Hatt.
  - intros Hatt Hwhy. unfold fillStep, attempt, isAttached. rewrite Hel, Hatt. simpl.
    unfold bind, raceWithTimer, fillSingleField. rewrite Hel, Hatt, Htimer. simpl.
    destruct (disabled e) eqn:Hd; [eexists; reflexivity|].
    destruct (readOnly e) eqn:Hr; [eexists; reflexivity|].
    destruct Hwhy as [?|[?|[Hz|Hz]]]; try discriminate; rewrite Hz; simpl.
    + eexists; reflexivity.
    + rewrite orb_true_r. eexists; reflexivity.
Qed.

Lemma fillStep_skips_unfillable_witness :
  exists notice,
    fillStep Sample.widget Sample.env 0
      {| field := Sample.named "email"; dataField := "email"; value := "a@b.com";
         confidence := 100 |}
      Sample.emptyResults (Sample.page [Sample.hidden])
    = (pushWarning "Could not fill field: email" (addSkipped Sample.emptyResults),
       withWarning notice (Sample.page [Sample.hidden])).
Proof.
  exact (proj2 (fillStep_skips_unfillable Sample.widget Sample.env 0
                  {| field := Sample.named "email"; dataField := "email";
                     value := "a@b.com"; confidence := 100 |}
                  Sample.emptyResults (Sample.page [Sample.hidden]) Sample.hidden
                  eq_refl eq_refl) eq_refl (or_intror (or_intror (or_introl eq_refl)))).
Defined.

(** ** What the text-based strategies write *)

Lemma tryCatch_return {A} (m : M A) h p a q :
  m p = (Return a, q) -> tryCatch m h p = (Return a, q).
Proof. intros H. unfold tryCatch. now rewrite H. Qed.

Lemma startsClean_stripEnd s : Js.startsClean s -> Js.startsClean (Html.stripEnd s).
Proof.
  destruct s as [|c r]; [trivial|]. simpl. intros Hc.
  destruct (Html.isAsciiWhitespace c && Js.isEmpty (Html.stripEnd r)); [exact I|exact Hc].
Qed.

Lemma len_stripEnd s : Js.len (Html.stripEnd s) <= Js.len s.
Proof.
  unfold Js.len. induction s as [|c r IH]; simpl; [lia|].
  destruct (Html.isAsciiWhitespace c && Js.isEmpty (Html.stripEnd r)); simpl; lia.
Qed.

Lemma clean_not_CR c : Js.isWhiteSpace c = false -> Ascii.eqb c "013" = false.
Proof. intros H. apply Ascii.eqb_neq. intros ->. discriminate H. Qed.

Lemma len_replaceCR s : String.length (Text.replaceCR s) = String.length s.
Proof. induction s as [|c r IH]; simpl; congruence. Qed.

Lemma startsClean_replaceCR s : Js.startsClean s -> Js.startsClean (Text.replaceCR s).
Proof.
  destruct s as [|c r]; [trivial|]. simpl. intros Hc. now rewrite (clean_not_CR c Hc).
Qed.

Lemma len_replaceCRLF n : forall s,
  (String.length s <= n)%nat ->
  (String.length (Text.replaceCRLF s) <= String.length s)%nat.
Proof.
  induction n as [|n IH]; intros s Hn.
  - destruct s; [simpl; lia | simpl in Hn; lia].
  - destruct s as [|c r]; [simpl; lia|]. cbn [Text.replaceCRLF].
    destruct r as [|d r']; [simpl; lia|].
    cbn [String.length] in Hn.
    destruct (Ascii.eqb c "013" && Ascii.eqb d "010"); cbn [String.length].
    + specialize (IH r'). lia.
    + specialize (IH (String d r')). cbn [String.length] in IH. lia.
Qed.

Lemma startsClean_replaceCRLF s : Js.startsClean s -> Js.startsClean (Text.replaceCRLF s).
Proof.
  destruct s as [|c r]; [trivial|]. cbn [Text.replaceCRLF Js.startsClean]. intros Hc.
  destruct r as [|d r']; [exact Hc|].
  rewrite (clean_not_CR c Hc). exact Hc.
Qed.

(** What a control of a kind whose rule is spelled out keeps of a text
    that does not start with white space: a text that does not start with
    white space either, and is no longer. *)
Lemma held_bounds e text stored :
  Html.held e text = Return stored -> Html.kind e <> Html.Other -> Js.startsClean text ->
  Js.startsClean stored /\ Js.len stored <= Js.len text.
Proof.
  unfold Html.held. intros H Hk Hc.
  assert (Hempty : Js.startsClean "" /\ Js.len "" <= Js.len text).
  { split; [exact I|]. unfold Js.len. simpl. lia. }
  destruct (Html.kind e); try congruence.
  - injection H as <-.
    split; [now apply startsClean_stripNewlines | apply len_stripNewlines].
  - injection H as <-. unfold Html.stripAscii.
    rewrite stripStart_clean by now apply startsClean_stripNewlines.
    split; [now apply startsClean_stripEnd, startsClean_stripNewlines|].
    pose proof (len_stripEnd (Html.stripNewlines text)).
    pose proof (len_stripNewlines text). lia.
  - injection H as <-. destruct (Html.validFloat text); [split; [exact Hc|lia] | exact Hempty].
  - destruct (Js.isEmpty text); [|discriminate]. injection H as <-. exact Hempty.
  - injection H as <-. unfold Text.normalizeLines. split.
    + now apply startsClean_replaceCR, startsClean_replaceCRLF.
    + unfold Js.len. rewrite len_replaceCR.
      pose proof (len_replaceCRLF (String.length text) text (Nat.le_refl _)). lia.
  - injection H as <-.
    destruct (existsb _ (options e)); [split; [exact Hc|lia] | exact Hempty].
  - injection H as <-. split; [exact Hc|lia].
Qed.

Lemma assigned_respects e s :
  Js.startsClean (assigned e (Js.trim s))
  /\ (0 < maxLength e -> Js.len (assigned e (Js.trim s)) <= maxLength e).
Proof.
  unfold assigned, truncates.
  destruct (Z.ltb_spec 0 (maxLength e)) as [Hpos|Hnon];
    [destruct (Z.ltb_spec (maxLength e) (Js.len (Js.trim s))) as [Hlong|Hfit]|]; simpl.
  - split; [apply startsClean_substring0, startsClean_trim|].
    intros _. unfold Js.len.
    pose proof (length_substring0 (Z.to_nat (maxLength e)) (Js.trim s)). lia.
  - split; [apply startsClean_trim | lia].
  - split; [apply startsClean_trim | lia].
Qed.

Section WrittenValue.

Variable widgetFill : string -> nat -> string -> M bool.
Variables (p : Page) (i : nat) (e : Element).
Hypothesis Hel : elements p !! i = Some e.
Hypothesis Hfm : focusMethod e = true.
Hypothesis Hfo : focusOk e = true.
Hypothesis Hctl : Html.kind e <> Html.FileName.

(** The page [q] has the controls of [p] but for the value of control
    [i], which holds what it keeps of an assigned text that starts clean
    and respects a positive maxLength. *)
Let written (q : Page) : Prop :=
  exists text stored,
    Html.held e text = Return stored
    /\ elements q = alter (setElValue stored) i (elements p)
    /\ Js.startsClean text
    /\ (0 < maxLength e -> Js.len text <= maxLength e)
    /\ (Html.kind e <> Html.Other ->
        Js.startsClean stored /\ Js.len stored <= Js.len text).

Lemma fillTextField_written s p' :
  elements p' = elements p ->
  exists q, fillTextField i s p' = (Return true, q) /\ written q.
Proof.
  intros Hp'. rewrite (fillTextField_ok p' i e) by (rewrite ?Hp'; assumption).
  cbv zeta.
  destruct (held_returns e (assigned e (Js.trim s)) Hctl) as [stored Hheld].
  rewrite Hheld. eexists. split; [reflexivity|].
  exists (assigned e (Js.trim s)), stored.
  destruct (assigned_respects e s) as [Hc Hm].
  split; [exact Hheld|]. split; [|split; [exact Hc|split; [exact Hm|]]].
  - destruct (truncates e (Js.trim s)); simpl; now rewrite Hp'.
  - intros Hk. now apply held_bounds with e.
Qed.

Lemma fillTextareaField_written s :
  exists q, fillTextareaField i s p = (Return true, q) /\ written q.
Proof.
  rewrite (fillTextareaField_ok p i e) by assumption. cbv zeta.
  destruct (held_returns e (assigned e (Js.trim s)) Hctl) as [stored Hheld].
  rewrite Hheld. eexists. split; [reflexivity|].
  exists (assigned e (Js.trim s)), stored.
  destruct (assigned_respects e s) as [Hc Hm].
  split; [exact Hheld|]. split; [|split; [exact Hc|split; [exact Hm|]]].
  - now destruct (truncates e (Js.trim s)).
  - intros Hk. now apply held_bounds with e.
Qed.

Lemma fillEmailField_written v :
  exists q, fillEmailField i v p = (Return true, q) /\ written q.
Proof.
  unfold fillEmailField.
  destruct (emailRegexTest (Js.trim v)).
  - destruct (fillTextField_written (Js.trim v) p eq_refl) as (q & Hq & Hw).
    exists q. split; [|exact Hw]. apply tryCatch_return. unfold bind, ret. exact Hq.
  - destruct (fillTextField_written (Js.trim v)
                (withWarning ("Invalid email format: " +:+ Js.trim v) p) eq_refl)
      as (q & Hq & Hw).
    exists q. split; [|exact Hw]. apply tryCatch_return. unfold bind, warn. exact Hq.
Qed.

Lemma fillNumberField_written v :
  exists b q, fillNumberField i v p = (Return b, q)
              /\ (b = false -> elements q = elements p)
              /\ (b = true -> written q).
Proof.
  unfold fillNumberField.
  destruct (Num.isNaN (Num.parseFloat v)).
  { exists false. eexists. split; [apply tryCatch_return; reflexivity|]. split; [reflexivity|discriminate]. }
  destruct (negb (Js.isEmpty (min e)) && Num.lt (Num.parseFloat v) (Num.parseFloat (min e))) eqn:Hmin.
  { exists false. eexists. split.
    - apply tryCatch_return. unfold bind at 1. unfold getElement. rewrite Hel, Hmin. reflexivity.
    - split; [reflexivity|discriminate]. }
  destruct (negb (Js.isEmpty (max e)) && Num.gt (Num.parseFloat v) (Num.parseFloat (max e))) eqn:Hmax.
  { exists false. eexists. split.
    - apply tryCatch_return. unfold bind at 1. unfold getElement. rewrite Hel, Hmin, Hmax. reflexivity.
    - split; [reflexivity|discriminate]. }
  destruct (fillTextField_written (Num.toString (Num.parseFloat v)) p eq_refl) as (q & Hq & Hw).
  exists true, q. split.
  - apply tryCatch_return. unfold bind at 1. unfold getElement. rewrite Hel, Hmin, Hmax. exact Hq.
  - split; [discriminate | intros _; exact Hw].
Qed.

Lemma setFieldValue_written v ty :
  fillsAsText ty = true ->
  exists b q, setFieldValue widgetFill i v ty p = (Return b, q)
              /\ (b = false -> elements q = elements p)
              /\ (b = true -> written q).
Proof.
  intros Hty. unfold fillsAsText in Hty. apply negb_true_iff in Hty.
  cbn [existsb] in Hty. apply orb_false_iff in Hty as [Hsel Hwid].
  rewrite orb_false_r in Hwid.
  assert (Hwid' : existsb (String.eqb ty) ["textbox"; "combobox"; "listbox"; "radiogroup"]
                  = false).
  { cbn [existsb]. now rewrite orb_false_r. }
  assert (Hyes : forall m : M bool, (exists q, m p = (Return true, q) /\ written q) ->
            exists b q, m p = (Return b, q)
                        /\ (b = false -> elements q = elements p)
                        /\ (b = true -> written q)).
  { intros m (q & Hq & Hw). exists true, q. split; [exact Hq|]. split; [discriminate|auto]. }
  assert (Hwrap : forall m : M bool,
            (exists b q, m p = (Return b, q)
                         /\ (b = false -> elements q = elements p)
                         /\ (b = true -> written q)) ->
            exists b q, tryCatch m
                          (fun msg => throw ("Failed to set " +:+ ty +:+ " field value: " +:+ msg)) p
                        = (Return b, q)
                        /\ (b = false -> elements q = elements p)
                        /\ (b = true -> written q)).
  { intros m (b & q & Hq & H). exists b, q. split; [now apply tryCatch_return | exact H]. }
  unfold setFieldValue. rewrite Hsel, Hwid'.
  destruct (String.eqb ty "textarea").
  { apply (Hwrap (fillTextareaField i v)), Hyes, fillTextareaField_written. }
  destruct (String.eqb ty "email").
  { apply (Hwrap (fillEmailField i v)), Hyes, fillEmailField_written. }
  destruct (String.eqb ty "tel" || String.eqb ty "phone").
  { apply (Hwrap (fillPhoneField i v)), Hyes.
    rewrite (fillPhoneField_ok p i e) by assumption. now apply fillTextField_written. }
  destruct (String.eqb ty "number").
  { apply (Hwrap (fillNumberField i v)), fillNumberField_written. }
  destruct (String.eqb ty "url").
  { apply (Hwrap (fillUrlField i v)), Hyes.
    rewrite (fillUrlField_ok p i e) by assumption. now apply fillTextField_written. }
  apply (Hwrap (fillTextField i v)), Hyes. now apply fillTextField_written.
Qed.

End WrittenValue.

(** X9.  For every field type but select and the role-based widgets, on
    a control that takes the focus and is no file input, [setFieldValue]
    does not throw; when it returns false no control is changed; when it
    returns true only the value of that control is changed: the text
    assigned to it does not start with white space and has at most
    maxLength characters when maxLength is positive, and the control holds
    what its kind keeps of that text, which, for every kind but those
    with a rule of the control's own, does not start with white space
    either and is no longer. *)
Theorem setFieldValue_respects_maxLength
    (widgetFill : string -> nat -> string -> M bool)
    (p : Page) (i : nat) (e : Element) (v ty : string)
    (Hel : elements p !! i = Some e)
    (Hfm : focusMethod e = true) (Hfo : focusOk e = true)
    (Hctl : Html.kind e <> Html.FileName)
    (Hty : fillsAsText ty = true) :
  exists b q,
    setFieldValue widgetFill i v ty p = (Return b, q)
    /\ (b = false -> elements q = elements p)
    /\ (b = true ->
        exists text stored,
          Html.held e text = Return stored
          /\ elements q = alter (setElValue stored) i (elements p)
          /\ Js.startsClean text
          /\ (0 < maxLength e -> Js.len text <= maxLength e)
          /\ (Html.kind e <> Html.Other ->
              Js.startsClean stored /\ Js.len stored <= Js.len text)).
Proof. exact (setFieldValue_written widgetFill p i e Hel Hfm Hfo Hctl v ty Hty). Qed.

Lemma setFieldValue_respects_maxLength_witness :
  exists b q,
    setFieldValue Sample.widget 0 "  +47 (0) 22 33 44 55 " "tel"
      (Sample.page [Sample.input "tel" "phone" 8])
    = (Return b, q)
    /\ (b = false -> elements q = elements (Sample.page [Sample.input "tel" "phone" 8]))
    /\ (b = true ->
        exists text stored,
          Html.held (Sample.input "tel" "phone" 8) text = Return stored
          /\ elements q = alter (setElValue stored) 0%nat [Sample.input "tel" "phone" 8]
          /\ Js.startsClean text
          /\ (0 < 8 -> Js.len text <= 8)
          /\ (Html.kind (Sample.input "tel" "phone" 8) <> Html.Other ->
              Js.startsClean stored /\ Js.len stored <= Js.len text)).
Proof.
  apply (setFieldValue_respects_maxLength Sample.widget
           (Sample.page [Sample.input "tel" "phone" 8]) 0 (Sample.input "tel" "phone" 8)
           "  +47 (0) 22 33 44 55 " "tel"); try reflexivity.
  intros H. vm_compute in H. discriminate H.
Defined.

(** ** The counters of a run *)

Section Accounting.

Variable widgetFill : string -> nat -> string -> M bool.
Variable env : Env.

(** The part of the skips that is not told by an error or a warning. *)
Let untold (r : Results) : Z := fieldsSkipped r - count (errors r) - count (warnings r).

Lemma fillStep_accounts i mf r p :
  let r' := fst (fillStep widgetFill env i mf r p) in
  fieldsFilled r' + fieldsSkipped r' = fieldsFilled r + fieldsSkipped r + 1
  /\ fieldsFilled r <= fieldsFilled r' /\ fieldsSkipped r <= fieldsSkipped r'
  /\ untold r' = untold r
  /\ fieldsDetected r' = fieldsDetected r.
Proof.
  cbv zeta. unfold untold, count, fillStep.
  destruct (attempt widgetFill env i mf p) as [[[[|]|]|msg] q]; simpl;
    rewrite ?List.length_app; simpl length; lia.
Qed.

Lemma runSteps_accounts mapped : forall i r p,
  let r' := fst (runSteps widgetFill env i mapped r p) in
  fieldsFilled r' + fieldsSkipped r' = fieldsFilled r + fieldsSkipped r + count mapped
  /\ fieldsFilled r <= fieldsFilled r' /\ fieldsSkipped r <= fieldsSkipped r'
  /\ untold r' = untold r
  /\ fieldsDetected r' = fieldsDetected r.
Proof.
  induction mapped as [|mf rest IH]; intros i r p; cbv zeta.
  - unfold count. simpl. lia.
  - cbn [runSteps]. pose proof (fillStep_accounts i mf r p) as H. cbv zeta in H.
    destruct (fillStep widgetFill env i mf r p) as [r1 p1]. simpl in H.
    specialize (IH (S i) r1 p1). cbv zeta in IH. unfold count in *. simpl length. lia.
Qed.

Lemma attemptedFrom_le i n : (attemptedFrom env i n <= n)%nat.
Proof. apply (attemptedFrom_spec env n i). Qed.

End Accounting.

Lemma scan_count now els : forall i,
  length (FormFieldDetector.scan now i els) = length (List.filter described els).
Proof.
  induction els as [|e els IH]; intros i; [reflexivity|].
  cbn [FormFieldDetector.scan List.filter]. unfold described at 1.
  unfold FormFieldDetector.extractFieldMetadata.
  destruct (FormFieldDetector.fillable e); [destruct (associatedLabel e)|];
    simpl; now rewrite IH.
Qed.

(** X10.  In the result of a run that reaches the fill loop, the number
    of detected fields is the number of controls that are shown, enabled
    and writable and whose metadata are extracted without an exception;
    it is the number of descriptors detection returns.  Filled plus
    skipped is the number of candidates the loop got to, which is at most
    the number of candidates, itself at least 1 and at most the number of
    detected fields; and every skip is told by exactly one error or
    warning, the only other warning being the one of an early stop. *)
Theorem performAutoFill_counters
    (widgetFill : string -> nat -> string -> M bool) (env : Env)
    (userData : gmap string string) (p q : Page) (r : Results)
    (Hrun : performAutoFill widgetFill env userData p = (Return r, q)) :
  let fields := FormFieldDetector.detectFields (detectTime env) p in
  let candidates := FieldMapper.mapFieldsToData (currentMappings p) fields userData in
  let attempted := attemptedFrom env 0 (length candidates) in
  fieldsDetected r = count (List.filter described (elements p))
  /\ fieldsDetected r = count fields
  /\ fieldsFilled r + fieldsSkipped r = Z.of_nat attempted
  /\ (attempted <= length candidates)%nat
  /\ (1 <= length candidates <= length fields)%nat
  /\ 0 <= fieldsFilled r /\ 0 <= fieldsSkipped r
  /\ count (errors r) + count (warnings r)
     = fieldsSkipped r + (if (attempted <? length candidates)%nat then 1 else 0).
Proof.
  cbv zeta. unfold performAutoFill in Hrun.
  change (currentMappings (FormFieldDetector.detected (detectTime env) p))
    with (currentMappings p) in Hrun.
  pose proof (mapFieldsToData_length (currentMappings p)
                (FormFieldDetector.detectFields (detectTime env) p) userData) as Hle.
  pose proof (scan_count (detectTime env) (elements p) 0) as Hcount.
  fold (FormFieldDetector.detectFields (detectTime env) p) in Hcount.
  remember (FormFieldDetector.detectFields (detectTime env) p) as fields eqn:Hf.
  remember (FieldMapper.mapFieldsToData (currentMappings p) fields userData)
    as candidates eqn:Hc.
  remember (FormFieldDetector.detected (detectTime env) p) as p0 eqn:Hp0.
  assert (Hlen : (1 <= length candidates <= length fields)%nat).
  { split; [|exact Hle].
    destruct fields; [discriminate|]. destruct candidates; [discriminate|]. simpl. lia. }
  assert (Hloop : fillLoop widgetFill env 0 candidates
                    {| fieldsDetected := Z.of_nat (length fields); fieldsFilled := 0;
                       fieldsSkipped := 0; errors := []; warnings := [] |} p0 = (r, q)).
  { destruct fields; [discriminate|]. destruct candidates; [discriminate|].
    destruct (fillLoop _ _ _ _ _ _) as [r' p']. now injection Hrun as -> ->. }
  clear Hrun. rename Hloop into Hrun.
  rewrite fillLoop_split in Hrun.
  set (k := attemptedFrom env 0 (length candidates)) in *.
  pose proof (attemptedFrom_le env 0 (length candidates)) as Hk. fold k in Hk.
  pose proof (runSteps_accounts widgetFill env (take k candidates) 0
                {| fieldsDetected := Z.of_nat (length fields); fieldsFilled := 0;
                   fieldsSkipped := 0; errors := []; warnings := [] |} p0) as Hacc.
  cbv zeta in Hacc. unfold count in *. rewrite length_take in Hacc. simpl in Hacc.
  rewrite <- Hcount.
  injection Hrun as <- _.
  destruct (k <? length candidates)%nat eqn:Hlt; simpl; rewrite ?List.length_app; simpl length; lia.
Qed.

(** A run on a page with a control that is not shown and a zip control:
    one field is detected, and it is filled. *)
Lemma performAutoFill_counters_witness :
  exists r q,
    performAutoFill Sample.widget Sample.env {[ "zipCode" := "123456789012" ]}
      (Sample.page [Sample.hidden; Sample.zip]) = (Return r, q)
    /\ (fieldsDetected r = count (List.filter described [Sample.hidden; Sample.zip])
        /\ fieldsDetected r = 1
        /\ fieldsFilled r + fieldsSkipped r = 1
        /\ (1 <= 1)%nat /\ (1 <= 1 <= 1)%nat /\ 0 <= fieldsFilled r /\ 0 <= fieldsSkipped r
        /\ count (errors r) + count (warnings r) = fieldsSkipped r + 0).
Proof.
  eexists _, _. split; [reflexivity|].
  exact (performAutoFill_counters Sample.widget Sample.env {[ "zipCode" := "123456789012" ]}
           (Sample.page [Sample.hidden; Sample.zip]) _ _ eq_refl).
Defined.

(** ** The response to a request *)

Section ResponseFacts.

Variable widgetFill : string -> nat -> string -> M bool.
Variable env : Env.

(** Two pages with the same controls, console and events. *)
Let sameDocument (p q : Page) : Prop :=
  elements q = elements p /\ console q = console p /\ events q = events p.


End ResponseFacts.




(** X12.  A request without a record, or with an empty one, is refused
    with the type AUTOFILL_ERROR; a request on a page that has not
    finished loading with PAGE_NOT_READY; a request for which fields are
    detected but none matches the record with NO_MATCHES.  The first three
    leave the page and the custom table of the mapper as they were. *)
Theorem handlePerformAutoFill_refusals
    (widgetFill : string -> nat -> string -> M bool) (env : Env)
    (message : Message) (p : Page) :
  (userData message = None ->
   handlePerformAutoFill widgetFill env message p
   = (failure "No valid user data provided" "AUTOFILL_ERROR", p))
  /\ (forall d, userData message = Some d -> size d = 0%nat ->
        handlePerformAutoFill widgetFill env message p
        = (failure "User data is empty" "AUTOFILL_ERROR", p))
  /\ (forall d, userData message = Some d -> size d <> 0%nat ->
        readyState p <> "complete" ->
        handlePerformAutoFill widgetFill env message p
        = (failure "Page is still loading. Please wait and try again." "PAGE_NOT_READY", p))
  /\ (forall d, userData message = Some d -> size d <> 0%nat ->
        readyState p = "complete" ->
        let table :=
          match fieldMappings message with
          | Some fm => FieldMapper.updateMappings fm
          | None => currentMappings p
          end in
        let fields := FormFieldDetector.detectFields (detectTime env) p in
        fields <> [] ->
        FieldMapper.mapFieldsToData table fields d = [] ->
        fst (handlePerformAutoFill widgetFill env message p)
        = failure "No form fields match your data. Try customizing field mappings."
            "NO_MATCHES").
Proof.
  unfold handlePerformAutoFill. split; [|split; [|split]].
  - intros ->. reflexivity.
  - intros d -> ->. reflexivity.
  - intros d -> Hsize Hready. apply Nat.eqb_neq in Hsize. rewrite Hsize.
    unfold bind at 1. cbv beta iota. apply String.eqb_neq in Hready. rewrite Hready.
    reflexivity.
  - intros d -> Hsize Hready. cbv zeta. intros Hfields Hnone.
    apply Nat.eqb_neq in Hsize. rewrite Hsize.
    unfold bind at 1. cbv beta iota. rewrite Hready.
    change (negb ("complete" =? "complete")%string) with false. cbv iota.
    assert (Hrun : forall q, elements q = elements p ->
              FieldMapper.mapFieldsToData (currentMappings q)
                (FormFieldDetector.detectFields (detectTime env) p) d = [] ->
              performAutoFillWithErrorHandling widgetFill env d q
              = (Throw "No matching fields found for available data. Try customizing field mappings in settings.",
                 FormFieldDetector.detected (detectTime env) q)).
    { intros q Hq Hmap.
      unfold performAutoFillWithErrorHandling, tryCatch, performAutoFill.
      change (currentMappings (FormFieldDetector.detected (detectTime env) q))
        with (currentMappings q).
      unfold FormFieldDetector.detectFields in *. rewrite Hq.
      destruct (FormFieldDetector.scan (detectTime env) 0 (elements p)) as [|f fs];
        [congruence|].
      rewrite Hmap. reflexivity. }
    destruct (fieldMappings message) as [fm|]; unfold bind, ret; cbv beta iota;
      rewrite Hrun by (try reflexivity; exact Hnone); reflexivity.
Qed.

(** * Further properties of the file parser *)

(** ** Splitting at a character *)

Section SplitFacts.

Variable c : ascii.

Lemma splitOn_cons s : exists piece rest, Text.splitOn c s = piece :: rest.
Proof.
  induction s as [|x s (piece & rest & IH)]; simpl; [eauto|].
  rewrite IH. destruct (Ascii.eqb x c); eauto.
Qed.

Lemma splitOn_length s : length (Text.splitOn c s) = S (Text.countChar c s).
Proof.
  induction s as [|x s IH]; simpl; [reflexivity|].
  destruct (splitOn_cons s) as (piece & rest & E). rewrite E in *.
  destruct (Ascii.eqb x c); simpl in *; lia.
Qed.

Lemma countChar_In s : (0 < Text.countChar c s)%nat <-> In c (Js.chars s).
Proof.
  induction s as [|x s IH]; simpl; [split; [lia | tauto]|].
  destruct (Ascii.eqb_spec x c) as [->|Hne]; [split; [now left | lia]|].
  rewrite IH. split; [tauto | intros [?|?]; [congruence | assumption]].
Qed.

Lemma splitOn_absent s : ~ In c (Js.chars s) -> Text.splitOn c s = [s].
Proof.
  induction s as [|x s IH]; simpl; [reflexivity|].
  intros H. rewrite IH by tauto.
  destruct (Ascii.eqb_spec x c) as [->|Hne]; [tauto | reflexivity].
Qed.

Lemma splitOn_last s :
  ~ In c (Js.chars (List.last (Text.splitOn c s) EmptyString))
  /\ (In c (Js.chars s) ->
      exists stem, s = stem +:+ String c (List.last (Text.splitOn c s) EmptyString)).
Proof.
  induction s as [|x s [IH1 IH2]]; simpl; [tauto|].
  destruct (splitOn_cons s) as (piece & rest & E). rewrite E in *.
  destruct (Ascii.eqb_spec x c) as [->|Hne].
  - change (List.last ("" :: piece :: rest) "") with (List.last (piece :: rest) "").
    split; [exact IH1|]. intros _.
    destruct (in_dec ascii_dec c (Js.chars s)) as [Hin|Hout].
    + destruct (IH2 Hin) as (stem & Hs). exists (String c stem).
      rewrite app_String. now rewrite <- Hs.
    + exists "". rewrite splitOn_absent in E by exact Hout. injection E as <- <-.
      reflexivity.
  - destruct rest as [|r2 rest].
    + simpl in *. split; [intros [?|?]; [congruence | tauto]|].
      intros [?|Hin]; [congruence|]. exfalso.
      pose proof (splitOn_length s) as Hl. rewrite E in Hl. simpl in Hl.
      apply countChar_In in Hin. lia.
    + change (List.last (String x piece :: r2 :: rest) "")
        with (List.last (piece :: r2 :: rest) "").
      split; [exact IH1|]. intros [?|Hin]; [congruence|].
      destruct (IH2 Hin) as (stem & Hs). exists (String x stem).
      rewrite app_String. now rewrite <- Hs.
Qed.

End SplitFacts.

(** ** File names *)

Lemma chars_toLowerCase s : Js.chars (Js.toLowerCase s) = map Js.lowerChar (Js.chars s).
Proof. induction s as [|x s IH]; simpl; [reflexivity|]. now rewrite IH. Qed.

Lemma getFileExtension_Return filename ext :
  Parser.getFileExtension filename = Return ext -> In "."%char (Js.chars filename).
Proof.
  unfold Parser.getFileExtension. destruct (Js.isEmpty filename); [discriminate|].
  rewrite splitOn_length.
  destruct (Nat.ltb_spec (S (Text.countChar "." filename)) 2); [discriminate|].
  intros _. apply countChar_In. lia.
Qed.

(** X13.  [getFileExtension] throws for the empty name and for a name
    without a dot.  For any other name it returns, in lower case, the text
    after the last dot, which has no dot in it. *)
Theorem getFileExtension_after_last_dot (filename : string) :
  (filename = "" -> Parser.getFileExtension filename = Throw "Invalid filename")
  /\ (filename <> "" -> ~ In "."%char (Js.chars filename) ->
      Parser.getFileExtension filename = Throw "File must have an extension")
  /\ (In "."%char (Js.chars filename) ->
      exists stem raw,
        filename = stem +:+ "." +:+ raw
        /\ ~ In "."%char (Js.chars raw)
        /\ Parser.getFileExtension filename = Return (Js.toLowerCase raw)).
Proof.
  unfold Parser.getFileExtension. split; [|split].
  - now intros ->.
  - intros Hne Hno. destruct filename; [congruence|]. cbn [Js.isEmpty].
    now rewrite splitOn_absent.
  - intros Hin. destruct (splitOn_last "." filename) as [Hlast Hstem].
    destruct (Hstem Hin) as (stem & Hs).
    exists stem, (List.last (Text.splitOn "." filename) ""). split; [exact Hs|].
    split; [exact Hlast|].
    destruct filename; [destruct Hin|]. cbn [Js.isEmpty].
    rewrite splitOn_length. apply countChar_In in Hin.
    destruct (Nat.ltb_spec (S (Text.countChar "." (String a filename))) 2); [lia|reflexivity].
Qed.

Lemma reserved_names_have_no_dot filename :
  In "."%char (Js.chars filename) ->
  existsb (String.eqb (Js.toLowerCase filename)) Parser.reservedNames = false.
Proof.
  intros Hin. destruct (existsb _ Parser.reservedNames) eqn:E; [|reflexivity].
  apply existsb_exists in E as (r & Hr & Heq). apply String.eqb_eq in Heq.
  assert (Hdot : In "."%char (Js.chars r)).
  { rewrite <- Heq, chars_toLowerCase. apply in_map_iff. now exists "."%char. }
  assert (Hall : forallb (fun r => negb (existsb (Ascii.eqb ".") (Js.chars r)))
                   Parser.reservedNames = true) by reflexivity.
  rewrite forallb_forall in Hall. specialize (Hall r Hr).
  apply negb_true_iff in Hall. rewrite <- Hall. symmetry.
  apply existsb_exists. exists "."%char. split; [exact Hdot | apply Ascii.eqb_refl].
Qed.

(** X14.  [validateFile] accepts a file exactly when its size is at most
    5 MB, its name has an extension that is json, csv or txt up to letter
    case, its MIME type is empty or one of the four allowed ones, and its
    name has no two dots in a row, none of the characters forbidden in
    file names, no null character, and does not start with a dot.  The
    test for reserved device names rejects no file: a name with an
    extension is never one of them. *)
Theorem validateFile_accepts_iff (f : File) :
  Parser.validateFile (Some f) = Return tt
  <-> (fileSize f <= Parser.MAX_FILE_SIZE
       /\ (exists ext, Parser.getFileExtension (fileName f) = Return ext
                       /\ In ext Parser.ALLOWED_EXTENSIONS)
       /\ (fileType f = "" \/ In (fileType f) Parser.ALLOWED_MIME_TYPES)
       /\ Js.includes (fileName f) ".." = false
       /\ Text.hasChar Parser.isInvalidNameChar (fileName f) = false
       /\ Js.startsWith (fileName f) "." = false
       /\ Text.hasChar FileParser.isNull (fileName f) = false).
Proof.
  unfold Parser.validateFile.
  destruct (Z.ltb_spec Parser.MAX_FILE_SIZE (fileSize f)) as [Hbig|Hsize].
  { split; [discriminate | intros [? _]; lia]. }
  destruct (Parser.getFileExtension (fileName f)) as [ext|msg] eqn:Hext.
  2:{ split; [discriminate | intros (_ & (e & He & _) & _); discriminate]. }
  assert (Hallowed : existsb (String.eqb ext) Parser.ALLOWED_EXTENSIONS = true
                     <-> In ext Parser.ALLOWED_EXTENSIONS).
  { rewrite existsb_exists. split.
    - intros (x & Hx & Heq). apply String.eqb_eq in Heq. now subst.
    - intros H. exists ext. split; [exact H | apply String.eqb_refl]. }
  assert (Hmime : existsb (String.eqb (fileType f)) Parser.ALLOWED_MIME_TYPES = true
                  <-> In (fileType f) Parser.ALLOWED_MIME_TYPES).
  { rewrite existsb_exists. split.
    - intros (x & Hx & Heq). apply String.eqb_eq in Heq. now subst.
    - intros H. eexists. split; [exact H | apply String.eqb_refl]. }
  assert (Hsusp : Parser.containsSuspiciousCharacters (fileName f) = false
                  <-> Js.includes (fileName f) ".." = false
                      /\ Text.hasChar Parser.isInvalidNameChar (fileName f) = false
                      /\ Js.startsWith (fileName f) "." = false
                      /\ Text.hasChar FileParser.isNull (fileName f) = false).
  { unfold Parser.containsSuspiciousCharacters.
    rewrite (reserved_names_have_no_dot (fileName f))
      by now apply getFileExtension_Return with ext.
    rewrite !orb_false_iff. tauto. }
  destruct (existsb (String.eqb ext) Parser.ALLOWED_EXTENSIONS) eqn:Ha; cbn [negb].
  2:{ split; [discriminate|]. intros (_ & (e & [= <-] & He) & _).
      apply Hallowed in He. discriminate. }
  destruct (Js.isEmpty (fileType f)) eqn:Hty;
    [|destruct (existsb (String.eqb (fileType f)) Parser.ALLOWED_MIME_TYPES) eqn:Hm];
    cbn [negb andb].
  - destruct (Parser.containsSuspiciousCharacters (fileName f)) eqn:Hs.
    + split; [discriminate|]. intros (_ & _ & _ & H). apply Hsusp in H. discriminate.
    + split; [|reflexivity]. intros _. split; [exact Hsize|]. split.
      * exists ext. split; [reflexivity | now apply Hallowed].
      * split; [left; now destruct (fileType f) | now apply Hsusp].
  - destruct (Parser.containsSuspiciousCharacters (fileName f)) eqn:Hs.
    + split; [discriminate|]. intros (_ & _ & _ & H). apply Hsusp in H. discriminate.
    + split; [|reflexivity]. intros _. split; [exact Hsize|]. split.
      * exists ext. split; [reflexivity | now apply Hallowed].
      * split; [right; now apply Hmime | now apply Hsusp].
  - split; [discriminate|]. intros (_ & _ & [Hempty|Hin] & _).
    + rewrite Hempty in Hty. discriminate.
    + apply Hmime in Hin. discriminate.
Qed.

(** A file named after a device, with an extension, is accepted. *)
Example validateFile_accepts_CON_txt :
  Parser.validateFile (Some {| fileName := "CON.txt"; fileSize := 100;
                               fileType := "text/plain" |}) = Return tt.
Proof. reflexivity. Qed.

(** ** CSV rows *)

Section RowFacts.

Variable d : ascii.

Lemma snoc_app cur x piece : Parser.snoc cur x +:+ piece = cur +:+ String x piece.
Proof. unfold Parser.snoc. now rewrite app_assoc_s. Qed.

Lemma hasChar_cons cls x s :
  Text.hasChar cls (String x s) = cls x || Text.hasChar cls s.
Proof. reflexivity. Qed.

Lemma go_unquoted s : forall values cur,
  Text.hasChar Parser.isQuote s = false ->
  exists piece rest,
    Text.splitOn d s = piece :: rest
    /\ Parser.parseCSVRow_go d s values cur None
       = values ++ Js.trim (cur +:+ piece) :: map Js.trim rest.
Proof.
  induction s as [|x s IH]; intros values cur Hq.
  - exists "", []. split; [reflexivity|]. simpl. now rewrite app_empty_r.
  - rewrite hasChar_cons in Hq. apply orb_false_iff in Hq as [Hx Hq].
    cbn [Parser.parseCSVRow_go Text.splitOn]. rewrite Hx.
    destruct (Ascii.eqb x d).
    + destruct (IH (values ++ [Js.trim cur]) "" Hq) as (piece & rest & E & Hgo).
      rewrite E, Hgo. exists "", (piece :: rest). split; [reflexivity|].
      rewrite app_empty_r, <- app_assoc. reflexivity.
    + destruct (IH values (Parser.snoc cur x) Hq) as (piece & rest & E & Hgo).
      rewrite E, Hgo. exists (String x piece), rest. split; [reflexivity|].
      now rewrite snoc_app.
Qed.

Lemma go_quoted q body : forall values cur,
  ~ In q (Js.chars body) ->
  Parser.parseCSVRow_go d (body +:+ String q "") values cur (Some q)
  = values ++ [Js.trim (cur +:+ body)].
Proof.
  induction body as [|x body IH]; intros values cur Hq.
  - change ("" +:+ String q "") with (String q ""). simpl.
    rewrite Ascii.eqb_refl. now rewrite app_empty_r.
  - rewrite app_String. cbn [Parser.parseCSVRow_go].
    destruct (Ascii.eqb_spec x q) as [->|Hne]; [destruct Hq; now left|].
    rewrite IH by (intros H; apply Hq; now right). now rewrite snoc_app.
Qed.

Lemma go_trimmed n : forall s values cur q,
  (String.length s <= n)%nat ->
  exists v more,
    Parser.parseCSVRow_go d s values cur q = values ++ v :: more
    /\ Forall (fun w => Js.trim w = w) (v :: more).
Proof.
  induction n as [|n IH]; intros s values cur q Hn.
  - destruct s; [|simpl in Hn; lia]. exists (Js.trim cur), []. split; [reflexivity|].
    constructor; [apply trim_idem | constructor].
  - destruct s as [|x s].
    { exists (Js.trim cur), []. split; [reflexivity|].
      constructor; [apply trim_idem | constructor]. }
    simpl in Hn. cbn [Parser.parseCSVRow_go].
    assert (Hs : (String.length s <= n)%nat) by lia.
    destruct q as [q|].
    + destruct (Ascii.eqb x q); [|now apply IH].
      destruct s as [|y s]; [now apply IH|].
      destruct (Ascii.eqb y q); [|now apply IH].
      apply IH. simpl in Hs. lia.
    + destruct (Parser.isQuote x); [now apply IH|].
      destruct (Ascii.eqb x d); [|now apply IH].
      destruct (IH s (values ++ [Js.trim cur]) "" None Hs) as (v & more & Hgo & Hall).
      exists (Js.trim cur), (v :: more). split.
      * rewrite Hgo, <- app_assoc. reflexivity.
      * constructor; [apply trim_idem | exact Hall].
Qed.

End RowFacts.

(** X15.  [parseCSVRow] always returns at least one value, and every
    value is trimmed.  A row without quote characters gives the trimmed
    pieces between the delimiters, so one value more than it has
    delimiters.  A row that is one quoted section gives the one trimmed
    value, whatever delimiters it contains. *)
Theorem parseCSVRow_values (row : string) (d : ascii) :
  (exists v more, Parser.parseCSVRow row d = v :: more)
  /\ Forall (fun w => Js.trim w = w) (Parser.parseCSVRow row d)
  /\ (Text.hasChar Parser.isQuote row = false ->
      Parser.parseCSVRow row d = map Js.trim (Text.splitOn d row)
      /\ length (Parser.parseCSVRow row d) = S (Text.countChar d row))
  /\ (forall q body, Parser.isQuote q = true -> ~ In q (Js.chars body) ->
        Parser.parseCSVRow (String q (body +:+ String q "")) d = [Js.trim body]).
Proof.
  unfold Parser.parseCSVRow.
  destruct (go_trimmed d (String.length row) row [] "" None (le_n _))
    as (v & more & Hgo & Hall).
  split; [eauto|]. split; [rewrite Hgo; exact Hall|]. split.
  - intros Hq. destruct (go_unquoted d row [] "" Hq) as (piece & rest & E & Hun).
    assert (Heq : Parser.parseCSVRow_go d row [] "" None = map Js.trim (Text.splitOn d row)).
    { rewrite Hun, E. reflexivity. }
    split; [exact Heq|]. now rewrite Heq, length_map, splitOn_length.
  - intros q body Hq Hbody. cbn [Parser.parseCSVRow_go]. rewrite Hq.
    now rewrite go_quoted.
Qed.

(** ** The delimiter of a CSV file *)

Lemma sampleStep_total d lines : forall st,
  (fst (fst st) < fst (fst (fold_left (Parser.sampleStep d) lines st)))%nat ->
  exists line, In line lines /\ (0 < Text.countChar d line)%nat.
Proof.
  induction lines as [|line lines IH]; intros st; simpl; [lia|].
  intros Hlt.
  destruct (Nat.ltb_spec (fst (fst st)) (fst (fst (Parser.sampleStep d st line)))) as [Hup|Hsame].
  - exists line. split; [now left|].
    destruct st as [[total consistent] expected]. unfold Parser.sampleStep in Hup.
    destruct (Js.isEmpty (Js.trim line)); [simpl in Hup; lia|].
    destruct expected; simpl in Hup; lia.
  - destruct (IH (Parser.sampleStep d st line)) as (l & Hl & Hc); [lia|].
    exists l. split; [now right | exact Hc].
Qed.

(** X16.  [detectCSVDelimiter] returns a comma, a semicolon, a tab or a
    bar, and one other than the comma only when it occurs in one of the
    first five lines. *)
Theorem detectCSVDelimiter_occurs (content : string) :
  let d := Parser.detectCSVDelimiter content in
  In d Parser.delimiters
  /\ (d <> ","%char ->
      exists line, In line (take 5 (Text.splitOn "010" content))
                   /\ (0 < Text.countChar d line)%nat).
Proof.
  cbv zeta. unfold Parser.detectCSVDelimiter.
  set (lines := take 5 (Text.splitOn "010" content)).
  assert (Hinv : forall ds st,
            (forall x, In x ds -> In x Parser.delimiters) ->
            (In (fst st) Parser.delimiters
             /\ (fst st <> ","%char ->
                 exists line, In line lines /\ (0 < Text.countChar (fst st) line)%nat)) ->
            In (fst (fold_left (Parser.delimiterStep lines) ds st)) Parser.delimiters
            /\ (fst (fold_left (Parser.delimiterStep lines) ds st) <> ","%char ->
                exists line, In line lines
                  /\ (0 < Text.countChar (fst (fold_left (Parser.delimiterStep lines) ds st))
                            line)%nat)).
  { induction ds as [|x ds IH]; intros st Hds Hst; simpl; [exact Hst|].
    apply IH; [intros; apply Hds; now right|].
    unfold Parser.delimiterStep.
    destruct (fold_left (Parser.sampleStep x) lines (0%nat, true, None))
      as [[total consistent] expected] eqn:E.
    destruct (consistent && (snd st <? total)%nat) eqn:Hc; [|exact Hst].
    simpl. split; [apply Hds; now left|]. intros _.
    apply andb_true_iff in Hc as [_ Hc]. apply Nat.ltb_lt in Hc.
    apply (sampleStep_total x lines (0%nat, true, None)). rewrite E. simpl. lia. }
  apply Hinv; [auto|]. simpl. split; [now left | congruence].
Qed.

(** ** TXT lines *)

Lemma hasChar_false cls s :
  Text.hasChar cls s = false <-> forall c, In c (Js.chars s) -> cls c = false.
Proof.
  unfold Text.hasChar. split.
  - intros H c Hc. destruct (cls c) eqn:E; [|reflexivity].
    rewrite <- H. symmetry. apply existsb_exists. eauto.
  - intros H. destruct (existsb cls (Js.chars s)) eqn:E; [|reflexivity].
    apply existsb_exists in E as (c & Hc & E). rewrite (H c Hc) in E. discriminate.
Qed.

Lemma sanitize_cleanValue v : cleanValue (FileParser.sanitizeStringValue v).
Proof.
  unfold cleanValue, FileParser.sanitizeStringValue. split; [apply length_substring0|].
  split; [|split].
  - apply hasChar_false. intros c Hc.
    apply In_substring0, In_trim, In_removeAll in Hc as [Hc _].
    now apply In_removeAll in Hc as [_ Hc].
  - apply hasChar_false. intros c Hc.
    now apply In_substring0, In_trim, In_removeAll in Hc as [_ Hc].
  - apply startsClean_substring0, startsClean_trim.
Qed.

Lemma cleanName_cleanKeyName s :
  Js.isEmpty (Parser.cleanName s) = false -> cleanKeyName (Parser.cleanName s).
Proof.
  intros Hne. unfold cleanKeyName, Parser.cleanName in *. split; [|split].
  - intros E. rewrite E in Hne. discriminate.
  - apply hasChar_false. intros c Hc. now apply In_trim, In_removeAll in Hc as [_ Hc].
  - apply trim_idem.
Qed.

Lemma separatorIndex_first line : Parser.separatorIndex line = firstSeparator line.
Proof.
  unfold Parser.separatorIndex. cbn [fold_left]. unfold Parser.separatorStep.
  induction line as [|x r IH]; [reflexivity|].
  cbn [Text.indexOf firstSeparator]. unfold isSeparator.
  rewrite <- IH. clear IH.
  destruct (Ascii.eqb x ":"), (Ascii.eqb x "="), (Ascii.eqb x "009");
    destruct (Text.indexOf ":" r) as [a|], (Text.indexOf "=" r) as [b|],
      (Text.indexOf "009" r) as [t|]; cbn [orb];
    repeat match goal with
           | |- context [(?n <? ?m)%nat] => destruct (Nat.ltb_spec n m); cbv beta iota
           end; try reflexivity; try lia.
Qed.

Lemma firstSeparator_app k sep rest :
  Text.hasChar isSeparator k = false -> isSeparator sep = true ->
  firstSeparator (k +:+ String sep rest) = Some (String.length k).
Proof.
  intros Hk Hsep. induction k as [|x k IH].
  - change ("" +:+ String sep rest) with (String sep rest). simpl. now rewrite Hsep.
  - rewrite hasChar_cons in Hk. apply orb_false_iff in Hk as [Hx Hk].
    rewrite app_String. cbn [firstSeparator String.length]. now rewrite Hx, IH.
Qed.

Lemma substring0_app k rest : Js.substring0 (String.length k) (k +:+ rest) = k.
Proof.
  induction k as [|x k IH]; [now destruct rest|].
  rewrite app_String. simpl. now rewrite IH.
Qed.

Lemma drop_app k rest : Text.drop (String.length k) (k +:+ rest) = rest.
Proof.
  induction k as [|x k IH]; [now destruct rest|].
  rewrite app_String. simpl. exact IH.
Qed.

Lemma removeAll_absent cls s : Text.hasChar cls s = false -> Js.removeAll cls s = s.
Proof.
  induction s as [|x s IH]; [reflexivity|].
  rewrite hasChar_cons. intros H. apply orb_false_iff in H as [Hx Hs].
  simpl. now rewrite Hx, IH.
Qed.

Lemma substring0_all n s : (String.length s <= n)%nat -> Js.substring0 n s = s.
Proof.
  revert s. induction n as [|n IH]; intros [|x s]; simpl; try reflexivity; try lia.
  intros H. rewrite IH; [reflexivity | lia].
Qed.

Lemma sanitize_fixed v :
  cleanValue v -> Js.trim v = v -> FileParser.sanitizeStringValue v = v.
Proof.
  intros (Hlen & Hm & Hn & _) Ht. unfold FileParser.sanitizeStringValue.
  rewrite (removeAll_absent _ v Hm), (removeAll_absent _ v Hn), Ht.
  now apply substring0_all.
Qed.

Lemma unquote_plain v :
  Text.hasChar FileParser.isMarkupChar v = false -> Parser.unquote v = v.
Proof.
  intros Hm. unfold Parser.unquote. destruct v as [|x v]; [reflexivity|].
  rewrite hasChar_cons in Hm. apply orb_false_iff in Hm as [Hx _].
  cbn [Text.firstChar].
  destruct (Text.lastChar (String x v)); [|reflexivity].
  assert (Ascii.eqb x "034" = false /\ Ascii.eqb x "'" = false) as [-> ->].
  { split; apply Ascii.eqb_neq; intros ->; discriminate. }
  reflexivity.
Qed.

Lemma parseTXTLine_clean line k v :
  Parser.parseTXTLine line = Return (k, v) -> cleanKeyName k /\ cleanValue v.
Proof.
  unfold Parser.parseTXTLine.
  destruct (Parser.separatorIndex line) as [index|]; [|discriminate].
  destruct (Js.isEmpty (Js.trim (Js.substring0 index line))); [discriminate|].
  destruct (Js.isEmpty (Parser.cleanName _)) eqn:Hc; [discriminate|].
  intros [= <- <-]. split; [now apply cleanName_cleanKeyName | apply sanitize_cleanValue].
Qed.

(** X17.  [parseTXTLine] splits a line at its first colon, equals sign
    or tab, and throws when the line has none.  A pair it returns has a
    key that is not empty, is trimmed and has no markup character, and a
    value with the guarantees of the sanitiser.  A line made of a clean
    key, a separator and text whose trimmed form is a clean value parses
    to exactly that key and value. *)
Theorem parseTXTLine_pairs (line : string) :
  (Text.hasChar isSeparator line = false ->
   Parser.parseTXTLine line = Throw "No valid separator found (expected :, =, or tab)")
  /\ (forall k v, Parser.parseTXTLine line = Return (k, v) ->
        cleanKeyName k /\ cleanValue v)
  /\ (forall k sep rest,
        line = k +:+ String sep rest ->
        isSeparator sep = true -> Text.hasChar isSeparator k = false ->
        cleanKeyName k ->
        cleanValue (Js.trim rest) ->
        Parser.parseTXTLine line = Return (k, Js.trim rest)).
Proof.
  split; [|split; [apply parseTXTLine_clean|]];
    unfold Parser.parseTXTLine; rewrite separatorIndex_first.
  - intros Hno. replace (firstSeparator line) with (@None nat); [reflexivity|].
    symmetry. induction line as [|x r IH]; [reflexivity|].
    rewrite hasChar_cons in Hno. apply orb_false_iff in Hno as [Hx Hr].
    simpl. now rewrite Hx, IH.
  - intros k sep rest -> Hsep Hk (Hne & Hm & Ht) Hv.
    rewrite (firstSeparator_app k sep rest Hk Hsep).
    rewrite substring0_app.
    assert (Hlen : forall a b, Text.drop (S (String.length a)) (a +:+ String b rest) = rest).
    { intros a b. induction a as [|y a IHa]; [reflexivity|].
      rewrite app_String. exact IHa. }
    rewrite Hlen, Ht.
    assert (Hk' : Js.isEmpty k = false) by (destruct k; [congruence | reflexivity]).
    rewrite Hk'. unfold Parser.cleanName. rewrite (removeAll_absent _ k Hm), Ht, Hk'.
    f_equal. f_equal.
    rewrite unquote_plain by apply Hv.
    apply sanitize_fixed; [exact Hv | apply trim_idem].
Qed.

(** ** TXT files *)

Lemma trimStart_keeps s c :
  In c (Js.chars s) -> Js.isWhiteSpace c = false -> Js.isEmpty (Js.trimStart s) = false.
Proof.
  induction s as [|x s IH]; simpl; [tauto|].
  intros [->|Hin] Hc; [now rewrite Hc|].
  destruct (Js.isWhiteSpace x); [now apply IH | reflexivity].
Qed.

Lemma trim_nonblank s c :
  In c (Js.chars s) -> Js.isWhiteSpace c = false -> Js.isEmpty (Js.trim s) = false.
Proof.
  intros Hin Hc. unfold Js.trim.
  pose proof (trimStart_keeps s c Hin Hc) as Hne.
  pose proof (startsClean_trimStart s) as Hclean.
  destruct (Js.trimStart s) as [|x r]; [discriminate|].
  simpl in *. now rewrite Hclean.
Qed.

Lemma nonblank_char s :
  Js.isEmpty (Js.trim s) = false ->
  exists c, In c (Js.chars s) /\ Js.isWhiteSpace c = false.
Proof.
  intros Hne. pose proof (startsClean_trim s) as Hclean.
  destruct (Js.trim s) as [|x r] eqn:E; [discriminate|].
  exists x. split; [|exact Hclean]. apply In_trim. rewrite E. now left.
Qed.

Lemma In_splitOn c s piece x :
  In piece (Text.splitOn c s) -> In x (Js.chars piece) -> In x (Js.chars s).
Proof.
  revert piece. induction s as [|y s IH]; intros piece; simpl.
  - intros [<-|[]] [].
  - destruct (splitOn_cons c s) as (p1 & rest & E). rewrite E in *.
    destruct (Ascii.eqb y c).
    + intros [<-|Hin] Hx; [destruct Hx|]. right. now apply IH with piece.
    + intros [<-|Hin] Hx.
      * destruct Hx as [->|Hx]; [now left|]. right. apply IH with p1; [now left | exact Hx].
      * right. apply IH with piece; [now right | exact Hx].
Qed.

Lemma In_replaceCR s x :
  In x (Js.chars (Text.replaceCR s)) -> Js.isWhiteSpace x = false -> In x (Js.chars s).
Proof.
  induction s as [|y s IH]; simpl; [tauto|].
  intros [<-|Hin] Hx; [|right; now apply IH].
  destruct (Ascii.eqb y "013"); [discriminate | now left].
Qed.

Lemma In_replaceCRLF n : forall s x,
  (String.length s <= n)%nat ->
  In x (Js.chars (Text.replaceCRLF s)) -> Js.isWhiteSpace x = false -> In x (Js.chars s).
Proof.
  induction n as [|n IH]; intros s x Hn.
  - destruct s; [simpl; tauto | simpl in Hn; lia].
  - destruct s as [|a [|b s]]; [simpl; tauto | simpl; tauto|].
    cbn [Text.replaceCRLF]. simpl in Hn.
    destruct (Ascii.eqb a "013" && Ascii.eqb b "010").
    + intros [<-|Hin] Hx; [discriminate|]. right. right. apply IH; [lia | exact Hin | exact Hx].
    + intros [<-|Hin] Hx; [now left|]. right. apply (IH (String b s)); [simpl; lia | exact Hin | exact Hx].
Qed.

Lemma txtLines_nonblank content :
  Parser.txtLines content <> [] -> Js.isEmpty (Js.trim content) = false.
Proof.
  unfold Parser.txtLines. intros Hne.
  destruct (List.filter _ _) as [|line rest] eqn:E; [congruence|].
  assert (Hin : In line (List.filter
                  (fun line => negb (Js.isEmpty line) && negb (Js.startsWith line "#")
                               && negb (Js.startsWith line "//"))
                  (map Js.trim (Text.splitOn "010" (Text.normalizeLines content)))))
    by (rewrite E; now left).
  apply filter_In in Hin as [Hin Hkeep].
  apply in_map_iff in Hin as (piece & <- & Hpiece).
  apply andb_true_iff in Hkeep as [Hkeep _]. apply andb_true_iff in Hkeep as [Hkeep _].
  apply negb_true_iff in Hkeep. destruct (nonblank_char piece Hkeep) as (c & Hc & Hws).
  apply trim_nonblank with c; [|exact Hws].
  apply (In_replaceCRLF (String.length content)); [lia| |exact Hws].
  apply In_replaceCR; [|exact Hws]. now apply In_splitOn with "010"%char piece.
Qed.

Lemma parsedPairs_cons line rest :
  parsedPairs (line :: rest)
  = match Parser.parseTXTLine line with
    | Return (key, value) =>
        if String.eqb key "__proto__" then parsedPairs rest
        else (key, value) :: parsedPairs rest
    | Throw _ => parsedPairs rest
    end.
Proof.
  unfold parsedPairs. csimpl.
  destruct (Parser.parseTXTLine line) as [[k v]|]; [|reflexivity].
  now destruct (String.eqb k "__proto__").
Qed.

Lemma parseTXT_go_data lines : forall i data errs,
  fst (Parser.parseTXT_go i lines (data, errs))
  = list_to_map (reverse (parsedPairs lines)) ∪ data.
Proof.
  induction lines as [|line rest IH]; intros i data errs.
  - simpl. now rewrite (left_id_L ∅ (∪)).
  - cbn [Parser.parseTXT_go]. rewrite parsedPairs_cons.
    destruct (Parser.parseTXTLine line) as [[k v]|msg]; cbn [fst snd]; [|apply IH].
    unfold Text.assign. destruct (String.eqb k "__proto__"); [apply IH|].
    rewrite IH, reverse_cons, list_to_map_app, <- (assoc_L (∪)).
    f_equal. simpl. now rewrite insert_union_singleton_l, insert_empty.
Qed.

Lemma list_to_map_reverse_nonempty (l : list (string * string)) :
  l <> [] -> list_to_map (reverse l) ≠@{gmap string string} ∅.
Proof.
  intros Hne. destruct (reverse l) as [|[k v] r] eqn:E.
  - apply (f_equal reverse) in E. rewrite reverse_involutive in E. now subst.
  - simpl. apply insert_non_empty.
Qed.

Lemma parseTXT_inv (content : string) :
  let pairs := parsedPairs (Parser.txtLines content) in
  (pairs <> [] -> Parser.parseTXT content = Return (list_to_map (reverse pairs)))
  /\ (pairs = [] -> exists msg, Parser.parseTXT content = Throw ("TXT parsing failed: " +:+ msg))
  /\ (forall data, Parser.parseTXT content = Return data ->
        data <> ∅
        /\ forall k v, data !! k = Some v ->
             k <> "__proto__" /\ cleanKeyName k /\ cleanValue v).
Proof.
  cbv zeta.
  assert (Hgo : forall errs0, exists errs,
            Parser.parseTXT_go 0 (Parser.txtLines content) (∅, errs0)
            = (list_to_map (reverse (parsedPairs (Parser.txtLines content))), errs)).
  { intros errs0.
    pose proof (parseTXT_go_data (Parser.txtLines content) 0 ∅ errs0) as H.
    destruct (Parser.parseTXT_go 0 (Parser.txtLines content) (∅, errs0)) as [data errs].
    exists errs. simpl in H. now rewrite H, (right_id_L ∅ (∪)). }
  assert (Hsome : parsedPairs (Parser.txtLines content) <> [] ->
            Parser.parseTXT content
            = Return (list_to_map (reverse (parsedPairs (Parser.txtLines content))))).
  { intros Hne. unfold Parser.parseTXT.
    assert (Hlines : Parser.txtLines content <> []).
    { intros E. rewrite E in Hne. now apply Hne. }
    rewrite (txtLines_nonblank content Hlines).
    destruct (Hgo []) as (errs & Hrun).
    destruct (Parser.txtLines content) as [|l ls] eqn:E; [congruence|].
    rewrite Hrun.
    pose proof (list_to_map_reverse_nonempty _ Hne) as Hdata.
    apply map_size_non_empty_iff, Nat.eqb_neq in Hdata. rewrite Hdata.
    now rewrite andb_false_r. }
  assert (Hnone : parsedPairs (Parser.txtLines content) = [] ->
            exists msg, Parser.parseTXT content = Throw ("TXT parsing failed: " +:+ msg)).
  { intros Hnil. unfold Parser.parseTXT.
    destruct (Js.isEmpty (Js.trim content)); [eauto|].
    destruct (Hgo []) as (errs & Hrun).
    destruct (Parser.txtLines content) as [|l ls] eqn:E; [eauto|].
    rewrite Hrun, Hnil. simpl.
    destruct (negb (length errs =? 0)%nat); simpl; eauto. }
  split; [exact Hsome|]. split; [exact Hnone|].
  intros data Hdata.
  destruct (parsedPairs (Parser.txtLines content)) as [|kv pairs] eqn:Hp.
  { destruct (Hnone eq_refl) as (msg & Hmsg). congruence. }
  rewrite Hsome in Hdata by discriminate. injection Hdata as <-.
  split; [now apply list_to_map_reverse_nonempty|].
  intros k v Hkv. apply elem_of_list_to_map_2 in Hkv.
  rewrite elem_of_reverse in Hkv.
  rewrite <- Hp in Hkv. unfold parsedPairs in Hkv.
  apply list_elem_of_omap in Hkv as (line & _ & Hline).
  destruct (Parser.parseTXTLine line) as [[k' v']|] eqn:E; [|discriminate].
  destruct (String.eqb k' "__proto__") eqn:Hk; [discriminate|].
  injection Hline as -> ->. apply String.eqb_neq in Hk.
  split; [exact Hk | now apply parseTXTLine_clean with line].
Qed.

(** X18.  The record of a TXT file holds the pairs of the lines that
    parse, a later line replacing an earlier one of the same key.  A line
    that does not parse is dropped, and so is a pair whose key is
    [__proto__], which the object never takes as a property.  [parseTXT]
    throws exactly when no pair is left.  So a record it returns is never
    empty, none of its keys is [__proto__], and its keys and values have
    the guarantees of the line parser. *)
Theorem parseTXT_last_line_wins (content : string) :
  let pairs := parsedPairs (Parser.txtLines content) in
  (pairs <> [] -> Parser.parseTXT content = Return (list_to_map (reverse pairs)))
  /\ (pairs = [] -> exists msg, Parser.parseTXT content = Throw ("TXT parsing failed: " +:+ msg))
  /\ (forall data, Parser.parseTXT content = Return data ->
        data <> ∅
        /\ forall k v, data !! k = Some v ->
             k <> "__proto__" /\ cleanKeyName k /\ cleanValue v).
Proof. exact (parseTXT_inv content). Qed.

(** ** CSV files *)

Lemma rowData_keys names : forall values acc k,
  k ∈ dom (Parser.rowData names values acc)
  <-> (In k names /\ k <> "__proto__") \/ k ∈ dom acc.
Proof.
  induction names as [|name names IH]; intros values acc k; simpl.
  - tauto.
  - rewrite IH. unfold Text.assign.
    destruct (String.eqb name "__proto__") eqn:Hname.
    + apply String.eqb_eq in Hname. subst name. intuition congruence.
    + apply String.eqb_neq in Hname. rewrite dom_insert_L, elem_of_union, elem_of_singleton.
      intuition congruence.
Qed.

Lemma rowData_clean names : forall values acc,
  (forall k v, acc !! k = Some v -> cleanValue v) ->
  forall k v, Parser.rowData names values acc !! k = Some v -> cleanValue v.
Proof.
  induction names as [|name names IH]; intros values acc Hacc k v; simpl.
  - apply Hacc.
  - apply IH. intros k' v' Hk'. unfold Text.assign in Hk'.
    destruct (String.eqb name "__proto__"); [now apply Hacc with k'|].
    destruct (decide (name = k')) as [->|Hne].
    + rewrite lookup_insert_eq in Hk'. injection Hk' as <-. apply sanitize_cleanValue.
    + rewrite lookup_insert_ne in Hk' by exact Hne. now apply Hacc with k'.
Qed.

Lemma cleanHeaders_names headers : forall names,
  Parser.cleanHeaders headers = Return names ->
  length names = length headers /\ Forall cleanKeyName names.
Proof.
  induction headers as [|h headers IH]; intros names; simpl.
  - intros [= <-]. now split.
  - destruct (Js.isEmpty (Parser.cleanName h)) eqn:Hh; [discriminate|].
    destruct (Parser.cleanHeaders headers) as [l|]; [|discriminate].
    intros [= <-]. destruct (IH l eq_refl) as [Hlen Hall]. split; [simpl; lia|].
    constructor; [now apply cleanName_cleanKeyName | exact Hall].
Qed.

Lemma dataObjects_rows names delimiter lines row :
  row ∈ Parser.dataObjects names delimiter lines ->
  (forall k, k ∈ dom row <-> In k names /\ k <> "__proto__")
  /\ forall k v, row !! k = Some v -> cleanValue v.
Proof.
  unfold Parser.dataObjects. intros Hrow.
  apply list_elem_of_omap in Hrow as (line & _ & Hline).
  destruct (forallb _ _); [discriminate|]. injection Hline as <-. split.
  - intros k. rewrite rowData_keys, dom_empty_L, elem_of_empty. tauto.
  - apply rowData_clean. intros k v Hkv. now rewrite lookup_empty in Hkv.
Qed.

Lemma union_covered (row merged : gmap string string) :
  dom merged ⊆ dom row -> row ∪ merged = row.
Proof.
  intros Hsub. apply map_eq. intros k. rewrite lookup_union.
  destruct (row !! k) as [v|] eqn:Hrow.
  - now destruct (merged !! k).
  - apply not_elem_of_dom in Hrow.
    assert (Hm : k ∉ dom merged) by (intros Hk; apply Hrow, Hsub, Hk).
    apply not_elem_of_dom in Hm. now rewrite Hm.
Qed.

Lemma mergeRows_snoc rows row :
  Parser.mergeRows (rows ++ [row]) = row ∪ Parser.mergeRows rows.
Proof. unfold Parser.mergeRows. now rewrite fold_left_app. Qed.

Lemma mergeRows_dom (P : string -> Prop) rows :
  Forall (fun row => forall k, k ∈ dom row <-> P k) rows ->
  forall k, k ∈ dom (Parser.mergeRows rows) -> P k.
Proof.
  induction rows as [|row rows IH] using rev_ind; intros Hall k.
  - unfold Parser.mergeRows. simpl. now rewrite dom_empty_L, elem_of_empty.
  - apply Forall_app in Hall as [Hrows Hrow]. inversion Hrow; subst.
    rewrite mergeRows_snoc, dom_union_L, elem_of_union. intros [Hk|Hk].
    + now apply H1.
    + now apply IH.
Qed.

Lemma mergeRows_last (P : string -> Prop) rows :
  Forall (fun row => forall k, k ∈ dom row <-> P k) rows -> rows <> [] ->
  last rows = Some (Parser.mergeRows rows).
Proof.
  destruct rows as [|row rows _] using rev_ind; [congruence|].
  intros Hall _. apply Forall_app in Hall as [Hrows Hrow]. inversion Hrow; subst.
  rewrite last_snoc, mergeRows_snoc. f_equal. symmetry. apply union_covered.
  intros k Hk. apply H1. now apply (mergeRows_dom P rows).
Qed.

Lemma parseCSV_inv (content : string) (data : gmap string string) :
  Parser.parseCSV content = Return data ->
  exists header rows names,
    csvLines content = header :: rows
    /\ Parser.cleanHeaders (Parser.parseCSVRow header (csvDelimiter content)) = Return names
    /\ last (Parser.dataObjects names (csvDelimiter content) rows) = Some data
    /\ (forall k, k ∈ dom data <-> In k names /\ k <> "__proto__")
    /\ Forall cleanKeyName names
    /\ forall k v, data !! k = Some v -> cleanValue v.
Proof.
  unfold Parser.parseCSV. fold (csvLines content) (csvDelimiter content).
  destruct (Js.isEmpty (Js.trim content)); [discriminate|].
  destruct (csvLines content) as [|header [|row rows]]; [discriminate|discriminate|].
  destruct (length _ =? 0)%nat; [discriminate|].
  destruct (Parser.cleanHeaders _) as [names|] eqn:Hnames; [|discriminate].
  destruct (Parser.dataObjects names (csvDelimiter content) (row :: rows))
    as [|object objects] eqn:Hobjects; [discriminate|].
  intros [= <-]. exists header, (row :: rows), names.
  assert (Hall : Forall (fun r => (forall k, k ∈ dom r <-> In k names /\ k <> "__proto__")
                                  /\ forall k v, r !! k = Some v -> cleanValue v)
                   (object :: objects)).
  { apply Forall_forall. intros r Hr. rewrite <- Hobjects in Hr.
    now apply dataObjects_rows in Hr. }
  assert (Hlast : last (object :: objects) = Some (Parser.mergeRows (object :: objects))).
  { apply mergeRows_last with (fun k => In k names /\ k <> "__proto__"); [|discriminate].
    eapply Forall_impl; [exact Hall|]. now intros r [Hr _]. }
  rewrite Hobjects.
  assert (Hin : Parser.mergeRows (object :: objects) ∈ object :: objects).
  { apply last_Some_elem_of. exact Hlast. }
  rewrite Forall_forall in Hall. destruct (Hall _ Hin) as [Hdom Hclean].
  split; [reflexivity|]. split; [exact Hnames|]. split; [exact Hlast|].
  split; [exact Hdom|]. split; [|exact Hclean].
  now apply cleanHeaders_names in Hnames as [_ Hnames].
Qed.

(** X19.  The record [parseCSV] returns is the object of the last data
    row that is not skipped, and of that row alone: it has one entry for
    each header name other than [__proto__], and a cell that is empty or
    missing in that row gives the empty string, whatever the rows before
    it held.  The names are the cleaned headers and the values are
    sanitised. *)
Theorem parseCSV_is_last_row (content : string) (data : gmap string string) :
  Parser.parseCSV content = Return data ->
  exists header rows names,
    csvLines content = header :: rows
    /\ Parser.cleanHeaders (Parser.parseCSVRow header (csvDelimiter content)) = Return names
    /\ last (Parser.dataObjects names (csvDelimiter content) rows) = Some data
    /\ (forall k, k ∈ dom data <-> In k names /\ k <> "__proto__")
    /\ Forall cleanKeyName names
    /\ forall k v, data !! k = Some v -> cleanValue v.
Proof. exact (parseCSV_inv content data). Qed.

Lemma parseCSV_is_last_row_witness :
  exists header rows names,
    csvLines twoRowCSV = header :: rows
    /\ Parser.cleanHeaders (Parser.parseCSVRow header (csvDelimiter twoRowCSV)) = Return names
    /\ last (Parser.dataObjects names (csvDelimiter twoRowCSV) rows)
       = Some (<["name" := "Bob"]> (<["email" := ""]> ∅))
    /\ (forall k, k ∈ dom (<["name" := "Bob"]> (<["email" := ""]> ∅) : gmap string string)
                  <-> In k names /\ k <> "__proto__")
    /\ Forall cleanKeyName names
    /\ forall k v, (<["name" := "Bob"]> (<["email" := ""]> ∅) : gmap string string) !! k = Some v ->
                   cleanValue v.
Proof.
  apply (parseCSV_is_last_row twoRowCSV). vm_compute. reflexivity.
Defined.

(** ** Values the sanitiser leaves alone *)

Lemma length_trimStart s : (String.length (Js.trimStart s) <= String.length s)%nat.
Proof.
  induction s as [|c s IH]; simpl; [lia|].
  destruct (Js.isWhiteSpace c); simpl; lia.
Qed.

Lemma length_trimEnd s : (String.length (Js.trimEnd s) <= String.length s)%nat.
Proof.
  induction s as [|c s IH]; simpl; [lia|].
  destruct (Js.isWhiteSpace c && Js.isEmpty (Js.trimEnd s)); simpl; lia.
Qed.

Lemma length_trim s : (String.length (Js.trim s) <= String.length s)%nat.
Proof.
  unfold Js.trim. pose proof (length_trimEnd (Js.trimStart s)).
  pose proof (length_trimStart s). lia.
Qed.

Lemma length_removeAll cls s :
  (String.length (Js.removeAll cls s) <= String.length s)%nat.
Proof.
  induction s as [|c s IH]; simpl; [lia|].
  destruct (cls c); simpl; lia.
Qed.

Lemma substring0_whole n s :
  (String.length s <= String.length (Js.substring0 n s))%nat -> Js.substring0 n s = s.
Proof.
  revert s. induction n as [|n IH]; intros [|c s]; simpl; try reflexivity; try lia.
  intros H. rewrite IH; [reflexivity | lia].
Qed.

(** X22.  The values [sanitizeStringValue] returns unchanged are those
    of at most 1000 characters that hold no markup character and no null
    character and neither start nor end with white space.  Sanitising a
    value of at most 1000 characters a second time changes nothing. *)
Theorem sanitizeStringValue_fixed_points (v : string) :
  (FileParser.sanitizeStringValue v = v <-> cleanValue v /\ Js.trim v = v)
  /\ ((String.length v <= 1000)%nat ->
      FileParser.sanitizeStringValue (FileParser.sanitizeStringValue v)
      = FileParser.sanitizeStringValue v).
Proof.
  split; [split|].
  - intros Hfix. assert (Hclean : cleanValue v) by (rewrite <- Hfix; apply sanitize_cleanValue).
    split; [exact Hclean|]. destruct Hclean as (_ & Hm & Hn & _).
    unfold FileParser.sanitizeStringValue in Hfix.
    rewrite (removeAll_absent _ v Hm), (removeAll_absent _ v Hn) in Hfix.
    rewrite <- Hfix at 2. symmetry. apply substring0_whole.
    rewrite Hfix. apply length_trim.
  - intros [Hclean Htrim]. now apply sanitize_fixed.
  - intros Hlen. apply sanitize_fixed; [apply sanitize_cleanValue|].
    unfold FileParser.sanitizeStringValue. rewrite substring0_all; [apply trim_idem|].
    pose proof (length_trim (Js.removeAll FileParser.isNull
                               (Js.removeAll FileParser.isMarkupChar v))).
    pose proof (length_removeAll FileParser.isNull (Js.removeAll FileParser.isMarkupChar v)).
    pose proof (length_removeAll FileParser.isMarkupChar v). lia.
Qed.

(** On a longer value the second pass can change the result: the cut at
    1000 characters can leave white space at the end. *)
Example sanitizeStringValue_twice_on_long_value :
  String.length (FileParser.sanitizeStringValue longValue) = 1000%nat
  /\ String.length (FileParser.sanitizeStringValue
                      (FileParser.sanitizeStringValue longValue)) = 999%nat.
Proof. split; vm_compute; reflexivity. Qed.

(** ** JSON records *)

Lemma In_join sep parts c :
  In c (Js.chars (Js.join sep parts)) ->
  In c (Js.chars sep) \/ exists part, In part parts /\ In c (Js.chars part).
Proof.
  induction parts as [|part parts IH]; [intros []|].
  destruct parts as [|next parts].
  - simpl. intros Hc. right. exists part. split; [now left | exact Hc].
  - change (Js.join sep (part :: next :: parts))
      with (part +:+ sep +:+ Js.join sep (next :: parts)).
    rewrite !chars_app, !in_app_iff. intros [Hc|[Hc|Hc]].
    + right. exists part. split; [now left | exact Hc].
    + now left.
    + destruct (IH Hc) as [Hsep|(q & Hq & Hcq)]; [now left|].
      right. exists q. split; [now right | exact Hcq].
Qed.

Section NumberText.

(** The characters of a number written in decimal, or as NaN or an
    infinity. *)
Let numberChar (c : ascii) : bool :=
  Js.isDigit c
  || existsb (Ascii.eqb c)
       ["."; "e"; "+"; "-"; "I"; "n"; "f"; "i"; "t"; "y"; "N"; "a"]%char.

Lemma numberChar_plain c :
  numberChar c = true -> FileParser.isMarkupChar c = false /\ FileParser.isNull c = false.
Proof.
  destruct c as [[] [] [] [] [] [] [] []]; vm_compute; intros H; split;
    first [reflexivity | discriminate H].
Qed.

Lemma pretty_N_go_chars (x : N) : forall s c,
  (forall a, In a (Js.chars s) -> numberChar a = true) ->
  In c (Js.chars (pretty_N_go x s)) -> numberChar c = true.
Proof.
  induction (N.lt_wf_0 x) as [x _ IH]; intros s c Hs.
  destruct (N.eq_dec x 0%N) as [->|Hx]; [rewrite pretty_N_go_0; apply Hs|].
  rewrite pretty_N_go_step by lia. apply IH.
  - apply N.div_lt; lia.
  - intros a [<-|Ha]; [|now apply Hs].
    unfold pretty_N_char. repeat case_match; reflexivity.
Qed.

Lemma pretty_N_chars (x : N) c : In c (Js.chars (pretty x)) -> numberChar c = true.
Proof.
  unfold pretty, pretty_N. case_decide.
  - intros [<-|[]]. reflexivity.
  - apply pretty_N_go_chars. intros a [].
Qed.

Lemma pretty_Z_chars (x : Z) c : In c (Js.chars (pretty x)) -> numberChar c = true.
Proof.
  destruct x as [|x|x].
  - intros [<-|[]]. reflexivity.
  - apply (pretty_N_chars (N.pos x)).
  - change (pretty (Z.neg x)) with ("-" +:+ pretty (N.pos x)).
    rewrite chars_app, in_app_iff. intros [[<-|[]]|Hc]; [reflexivity|].
    now apply (pretty_N_chars (N.pos x)).
Qed.

Lemma zeros_chars n c : In c (Js.chars (Num.zeros n)) -> numberChar c = true.
Proof.
  induction n as [|n IH]; simpl; [intros []|]. intros [<-|Hc]; [reflexivity | now apply IH].
Qed.

Lemma In_dropFirst n : forall s c,
  In c (Js.chars (Num.dropFirst n s)) -> In c (Js.chars s).
Proof.
  induction n as [|n IH]; intros [|a s] c; simpl; try tauto.
  intros Hc. right. now apply IH.
Qed.

Lemma toString_chars x c :
  In c (Js.chars (Num.toString x)) -> numberChar c = true.
Proof.
  unfold Num.toString.
  destruct (Num.round x) as [|[|]|neg d e];
    try (simpl; intros H; repeat destruct H as [<-|H]; first [reflexivity | destruct H]).
  destruct (d =? 0)%N; [intros [<-|[]]; reflexivity|].
  destruct (Num.shortest 17 1 neg d e _) as [d0 e0].
  destruct (Num.normalize _ d0 e0) as [d1 e1].
  assert (Hs : forall a, In a (Js.chars (pretty d1)) -> numberChar a = true)
    by (intros a; apply pretty_N_chars).
  assert (Hbody : forall body : string,
            (forall a, In a (Js.chars body) -> numberChar a = true) ->
            In c (Js.chars (if neg then "-" +:+ body else body)) -> numberChar c = true).
  { intros body Hb. destruct neg; [|apply Hb].
    rewrite chars_app, in_app_iff. intros [[<-|[]]|Hc]; [reflexivity | now apply Hb]. }
  apply Hbody. intros a.
  repeat match goal with |- context [if ?b then _ else _] => destruct b end;
    rewrite ?chars_app, ?in_app_iff; intros H;
    repeat match goal with H : _ \/ _ |- _ => destruct H as [H|H] end;
    first
      [ now apply zeros_chars in H
      | now apply In_substring0, Hs in H
      | now apply In_dropFirst, Hs in H
      | now apply Hs in H
      | now apply pretty_Z_chars in H
      | simpl in H; repeat destruct H as [<-|H]; first [reflexivity | destruct H] ].
Qed.

Lemma toString_plain x :
  Num.isFinite x = true ->
  safeText (Num.toString x) /\ Text.hasChar FileParser.isNull (Num.toString x) = false.
Proof.
  intros Hx. split; apply hasChar_false; intros c Hc;
    now apply (toString_chars x c), numberChar_plain in Hc.
Qed.

End NumberText.

Lemma sanitize_safe v :
  safeText (FileParser.sanitizeStringValue v)
  /\ Text.hasChar FileParser.isNull (FileParser.sanitizeStringValue v) = false.
Proof. destruct (sanitize_cleanValue v) as (_ & Hm & Hn & _). now split. Qed.

Lemma removeAll_safe s : safeText (Js.removeAll FileParser.isMarkupChar s).
Proof. apply hasChar_false. intros c Hc. now apply In_removeAll in Hc as [_ Hc]. Qed.

Lemma cleanName_safe key : safeText (Parser.cleanName key).
Proof.
  apply hasChar_false. intros c Hc. unfold Parser.cleanName in Hc.
  now apply In_trim, In_removeAll in Hc as [_ Hc].
Qed.

Lemma join_safe (cls : ascii -> bool) parts :
  (forall part, In part parts -> Text.hasChar cls part = false) ->
  cls ","%char = false -> cls " "%char = false ->
  Text.hasChar cls (Js.join ", " parts) = false.
Proof.
  intros Hparts Hcomma Hspace. apply hasChar_false. intros c Hc.
  apply In_join in Hc as [[<-|[<-|[]]]|(part & Hpart & Hc)]; [assumption|assumption|].
  apply Hparts in Hpart. now apply (proj1 (hasChar_false cls part)) with c in Hpart.
Qed.

Lemma assign_safe key value m :
  safeRecord m -> safeText key -> safeText value ->
  Text.hasChar FileParser.isNull value = false ->
  safeRecord (Text.assign key value m).
Proof.
  intros Hm Hkey Hvalue Hnull k v. unfold Text.assign.
  destruct (String.eqb key "__proto__") eqn:Hp; [apply Hm|].
  apply String.eqb_neq in Hp. destruct (decide (key = k)) as [<-|Hne].
  - rewrite lookup_insert_eq. now intros [= <-].
  - rewrite lookup_insert_ne by exact Hne. apply Hm.
Qed.

Lemma nestedStep_safe cleanKey nested : forall m,
  safeRecord m -> safeRecord (fold_left (Parser.nestedStep cleanKey) nested m).
Proof.
  induction nested as [|[nestedKey nestedValue] nested IH]; intros m Hm; [exact Hm|].
  simpl. apply IH. destruct (Parser.notNull nestedValue); [|exact Hm].
  destruct (sanitize_safe (Parser.toStr nestedValue)).
  apply assign_safe; [exact Hm | apply removeAll_safe | assumption | assumption].
Qed.

Lemma entryStep_safe m entry : safeRecord m -> safeRecord (Parser.entryStep m entry).
Proof.
  intros Hm. destruct entry as [key value]. unfold Parser.entryStep.
  destruct (Js.isEmpty (Js.trim key)); [exact Hm|].
  destruct (Js.isEmpty (Parser.cleanName key)); [exact Hm|].
  pose proof (cleanName_safe key) as Hkey.
  destruct value as [|b|x|str|items|nested].
  - now apply assign_safe.
  - apply assign_safe; [exact Hm | exact Hkey | |]; now destruct b.
  - destruct (Num.isFinite x) eqn:Hx.
    + destruct (toString_plain x Hx). now apply assign_safe.
    + destruct (sanitize_safe (Parser.toStr (Parser.JNumber x))). now apply assign_safe.
  - destruct (sanitize_safe str). now apply assign_safe.
  - apply assign_safe; [exact Hm | exact Hkey | |]; (apply join_safe; [|reflexivity|reflexivity]);
      intros part Hpart; apply in_map_iff in Hpart as (item & <- & _);
      now destruct (sanitize_safe (Parser.toStr item)).
  - now apply nestedStep_safe.
Qed.

Lemma sanitizeJSONData_safe data : safeRecord (Parser.sanitizeJSONData data).
Proof.
  unfold Parser.sanitizeJSONData.
  assert (H : forall m, safeRecord m -> safeRecord (fold_left Parser.entryStep data m)).
  { induction data as [|entry data IH]; intros m Hm; [exact Hm|].
    simpl. now apply IH, entryStep_safe. }
  apply H. intros k v Hkv. now rewrite lookup_empty in Hkv.
Qed.

(** X20.  The record [sanitizeJSONData] builds is safe whatever the JSON
    object holds, nested objects, arrays and numbers included: no key and
    no value has a markup character, no value has a null character, and
    no key is [__proto__].  When every key is blank or made of markup
    characters and white space only, the record is empty.  An entry whose
    key is clean and whose value is a string is stored under that very
    key, with the value sanitised, when it is the last entry. *)
Theorem sanitizeJSONData_is_safe (data : list (string * Parser.Json)) :
  safeRecord (Parser.sanitizeJSONData data)
  /\ (forallb (fun entry => droppedKey (fst entry)) data = true ->
      Parser.sanitizeJSONData data = ∅)
  /\ (forall key s, cleanKeyName key -> key <> "__proto__" ->
        Parser.sanitizeJSONData (data ++ [(key, Parser.JString s)]) !! key
        = Some (FileParser.sanitizeStringValue s)).
Proof.
  split; [apply sanitizeJSONData_safe|]. split.
  - unfold Parser.sanitizeJSONData. generalize (∅ : gmap string string).
    induction data as [|[key value] data IH]; intros m Hall; [reflexivity|].
    simpl in Hall. apply andb_true_iff in Hall as [Hkey Hall].
    simpl. rewrite IH by exact Hall. unfold droppedKey in Hkey.
    destruct (Js.isEmpty (Js.trim key)); [reflexivity|].
    simpl in Hkey. now rewrite Hkey.
  - intros key str (Hne & Hm & Ht) Hproto.
    unfold Parser.sanitizeJSONData. rewrite fold_left_app. simpl.
    assert (Hclean : Parser.cleanName key = key).
    { unfold Parser.cleanName. now rewrite (removeAll_absent _ key Hm). }
    rewrite Ht, Hclean. destruct key as [|c key]; [congruence|]. cbn [Js.isEmpty].
    unfold Text.assign. apply String.eqb_neq in Hproto. rewrite Hproto.
    apply lookup_insert_eq.
Qed.

(** ** The entry point of the file parser *)

Lemma parseTXT_throws content msg :
  Parser.parseTXT content = Throw msg -> exists m, msg = "TXT parsing failed: " +:+ m.
Proof.
  unfold Parser.parseTXT.
  destruct (Js.isEmpty (Js.trim content)); [intros [= <-]; eauto|].
  destruct (Parser.txtLines content) as [|line lines]; [intros [= <-]; eauto|].
  destruct (Parser.parseTXT_go 0 (line :: lines) (∅, [])) as [data errors].
  destruct (negb (length errors =? 0)%nat && (size data =? 0)%nat); [intros [= <-]; eauto|].
  destruct (size data =? 0)%nat; [intros [= <-]; eauto | discriminate].
Qed.

Lemma parseCSV_throws content msg :
  Parser.parseCSV content = Throw msg -> exists m, msg = "CSV parsing failed: " +:+ m.
Proof.
  unfold Parser.parseCSV.
  destruct (Js.isEmpty (Js.trim content)); [intros [= <-]; eauto|].
  destruct (List.filter _ _) as [|header [|row rows]]; try (intros [= <-]; eauto).
  destruct (length _ =? 0)%nat; [intros [= <-]; eauto|].
  destruct (Parser.cleanHeaders _); [|intros [= <-]; eauto].
  destruct (Parser.dataObjects _ _ _); [intros [= <-]; eauto | discriminate].
Qed.

Lemma parseJSON_throws JSON_parse content msg :
  Parser.parseJSON JSON_parse content = Throw msg ->
  msg = "JSON file is empty" \/ (exists m, msg = "Invalid JSON format: " +:+ m)
  \/ msg = "JSON object cannot be empty"
  \/ msg = "JSON must contain an object with key-value pairs".
Proof.
  unfold Parser.parseJSON.
  destruct (Js.isEmpty (Js.trim content)); [intros [= <-]; tauto|].
  destruct (JSON_parse content) as [[| | | | |entries]|m]; try (intros [= <-]; tauto).
  - destruct (length entries =? 0)%nat; [intros [= <-]; tauto | discriminate].
  - intros [= <-]. right. left. eauto.
Qed.

Lemma validateFile_Return file :
  Parser.validateFile file = Return tt ->
  exists f extension,
    file = Some f /\ Parser.getFileExtension (fileName f) = Return extension
    /\ (extension = "json" \/ extension = "csv" \/ extension = "txt").
Proof.
  unfold Parser.validateFile. destruct file as [f|]; [|discriminate].
  destruct (Parser.MAX_FILE_SIZE <? fileSize f); [discriminate|].
  destruct (Parser.getFileExtension (fileName f)) as [extension|] eqn:Hget; [|discriminate].
  destruct (existsb (String.eqb extension) Parser.ALLOWED_EXTENSIONS) eqn:Hext;
    [|discriminate].
  intros _. exists f, extension. split; [reflexivity|]. split; [exact Hget|].
  apply existsb_exists in Hext as (allowed & Hin & Heq). apply String.eqb_eq in Heq.
  subst allowed. destruct Hin as [<-|[<-|[<-|[]]]]; tauto.
Qed.

Lemma validateFile_throws file msg extension :
  Parser.validateFile file = Throw msg ->
  msg <> "Unsupported file format: " +:+ extension.
Proof.
  unfold Parser.validateFile, Parser.getFileExtension. intros Hmsg Heq. subst msg.
  destruct file as [f|]; [|discriminate].
  destruct (Parser.MAX_FILE_SIZE <? fileSize f);
    [rewrite !app_String in Hmsg; discriminate|].
  destruct (Js.isEmpty (fileName f)); [discriminate|].
  destruct (length _ <? 2)%nat; [discriminate|]. cbv beta iota zeta in Hmsg.
  destruct (negb (existsb _ Parser.ALLOWED_EXTENSIONS));
    [rewrite !app_String in Hmsg; discriminate|].
  destruct (_ && _); [rewrite !app_String in Hmsg; discriminate|].
  destruct (Parser.containsSuspiciousCharacters _); discriminate.
Qed.

Lemma safeRecord_clean (data : gmap string string) :
  (forall k v, data !! k = Some v -> k <> "__proto__" /\ cleanKeyName k /\ cleanValue v) ->
  safeRecord data.
Proof.
  intros H k v Hkv. destruct (H k v Hkv) as (Hp & (_ & Hk & _) & (_ & Hm & Hn & _)).
  repeat split; assumption.
Qed.

(** X21.  [parse] returns a record only for a file that [validateFile]
    accepts and whose text could be read, and the record is then the one
    the parser of the file's extension returns for that text; whatever the
    format, the record is safe.  Every failure carries a message that
    starts with the words File parsing failed.  The failure of the last
    branch of the switch, for an unsupported extension, never occurs once
    the text is read: validation has refused such a file before. *)
Theorem parse_dispatches
    (JSON_parse : string -> Result Parser.Json) (file : option File) (read : Result string) :
  (forall data, Parser.parse JSON_parse file read = Return data ->
     safeRecord data
     /\ exists f content,
          file = Some f /\ Parser.validateFile file = Return tt /\ read = Return content
          /\ ((Parser.getFileExtension (fileName f) = Return "json"
               /\ Parser.parseJSON JSON_parse content = Return data)
              \/ (Parser.getFileExtension (fileName f) = Return "csv"
                  /\ Parser.parseCSV content = Return data)
              \/ (Parser.getFileExtension (fileName f) = Return "txt"
                  /\ Parser.parseTXT content = Return data)))
  /\ (forall msg, Parser.parse JSON_parse file read = Throw msg ->
        exists reason, msg = "File parsing failed: " +:+ reason)
  /\ (forall content extension,
        Parser.parse JSON_parse file (Return content)
        <> Throw ("File parsing failed: Unsupported file format: " +:+ extension)).
Proof.
  split; [|split].
  - intros data. unfold Parser.parse.
    destruct (Parser.validateFile file) as [[]|] eqn:Hvalid; [|discriminate].
    destruct (validateFile_Return file Hvalid) as (f & extension & -> & Hext & Hallowed).
    destruct read as [content|]; [|discriminate]. rewrite Hext.
    destruct Hallowed as [-> | [-> | ->]]; cbn [String.eqb Ascii.eqb Bool.eqb andb].
    + destruct (Parser.parseJSON JSON_parse content) as [d|] eqn:Hparse; [|discriminate].
      intros [= <-]. split; [|exists f, content; tauto].
      unfold Parser.parseJSON in Hparse.
      destruct (Js.isEmpty (Js.trim content)); [discriminate|].
      destruct (JSON_parse content) as [[| | | | |entries]|]; try discriminate.
      destruct (length entries =? 0)%nat; [discriminate|]. injection Hparse as <-.
      apply sanitizeJSONData_safe.
    + destruct (Parser.parseCSV content) as [d|] eqn:Hparse; [|discriminate].
      intros [= <-]. split; [|exists f, content; tauto].
      destruct (parseCSV_inv content d Hparse)
        as (header & rows & names & _ & _ & _ & Hdom & Hnames & Hvalues).
      apply safeRecord_clean. intros k v Hkv.
      assert (Hk : In k names /\ k <> "__proto__") by (apply Hdom; eapply elem_of_dom_2, Hkv).
      destruct Hk as [Hk Hp]. rewrite Forall_forall in Hnames.
      split; [exact Hp|]. split; [now apply Hnames, list_elem_of_In | now apply Hvalues with k].
    + destruct (Parser.parseTXT content) as [d|] eqn:Hparse; [|discriminate].
      intros [= <-]. split; [|exists f, content; tauto].
      destruct (parseTXT_inv content) as (_ & _ & Hentries).
      apply safeRecord_clean. now apply Hentries.
  - intros msg. unfold Parser.parse.
    destruct (Parser.validateFile file) as [[]|]; [|intros [= <-]; eauto].
    destruct file as [f|]; [|intros [= <-]; eauto].
    destruct read as [content|]; [|intros [= <-]; eauto].
    destruct (Parser.getFileExtension (fileName f)) as [extension|]; [|intros [= <-]; eauto].
    repeat match goal with
           | |- context [if ?b then _ else _] => destruct b
           | |- context [match ?r with Return _ => _ | Throw _ => _ end] => destruct r
           end; first [discriminate | intros [= <-]; eauto].
  - intros content extension. unfold Parser.parse.
    destruct (Parser.validateFile file) as [[]|reason] eqn:Hvalid.
    + destruct (validateFile_Return file Hvalid) as (f & ext & -> & Hext & Hallowed).
      rewrite Hext.
      destruct Hallowed as [-> | [-> | ->]]; cbn [String.eqb Ascii.eqb Bool.eqb andb].
      * destruct (Parser.parseJSON JSON_parse content) as [d|m] eqn:Hparse; [discriminate|].
        apply parseJSON_throws in Hparse as [-> | [(m' & ->) | [-> | ->]]];
          rewrite ?app_String, ?app_empty; discriminate.
      * destruct (Parser.parseCSV content) as [d|m] eqn:Hparse; [discriminate|].
        apply parseCSV_throws in Hparse as (m' & ->).
        rewrite ?app_String, ?app_empty; discriminate.
      * destruct (Parser.parseTXT content) as [d|m] eqn:Hparse; [discriminate|].
        apply parseTXT_throws in Hparse as (m' & ->).
        rewrite ?app_String, ?app_empty; discriminate.
    + intros Heq. apply (validateFile_throws file reason extension Hvalid).
      rewrite !app_String, !app_empty in Heq. now injection Heq.
Qed.

(** ** The levels of a match score *)

Section ScoreLevels.

Variables (f : Field) (m : Mapping).

(** The multiples of the priority a score can be. *)
Let level (score : Z) : Prop :=
  exists c, In c [0; 6; 7; 8; 9; 10] /\ score = priority m * c.

Lemma level_max score c :
  0 <= priority m -> In c [6; 7; 8; 10] -> level score ->
  level (Z.max score (priority m * c)).
Proof.
  intros Hp Hc (d & Hd & ->). rewrite Z.mul_max_distr_nonneg_l by exact Hp.
  exists (Z.max d c). split; [|reflexivity].
  simpl in Hc, Hd.
  destruct Hc as [<-|[<-|[<-|[<-|[]]]]];
    destruct Hd as [<-|[<-|[<-|[<-|[<-|[<-|[]]]]]]]; vm_compute; tauto.
Qed.

Lemma aliasStep_level score alias :
  0 <= priority m -> level score -> level (FieldMapper.aliasStep f m score alias).
Proof.
  intros Hp Hs. unfold FieldMapper.aliasStep.
  repeat match goal with |- context [if ?b then _ else _] => destruct b end;
    try exact Hs; apply level_max; try assumption; simpl; tauto.
Qed.

Lemma fold_aliasStep_level al : forall score,
  0 <= priority m -> level score -> level (fold_left (FieldMapper.aliasStep f m) al score).
Proof.
  induction al as [|alias al IH]; intros score Hp Hs; [exact Hs|].
  simpl. apply IH; [exact Hp | now apply aliasStep_level].
Qed.

Lemma smartScore_level dataKey :
  FieldMapper.calculateSmartMatchScore f dataKey m = 0
  \/ FieldMapper.calculateSmartMatchScore f dataKey m = priority m * 9.
Proof.
  unfold FieldMapper.calculateSmartMatchScore.
  repeat match goal with |- context [if ?b then _ else _] => destruct b end; tauto.
Qed.

Lemma score_levels dataKey (t : Table) :
  FieldMapper.get t dataKey = Some m -> 0 <= priority m ->
  level (FieldMapper.calculateMatchScore f dataKey t).
Proof.
  intros Hget Hp. unfold FieldMapper.calculateMatchScore. rewrite Hget.
  apply fold_aliasStep_level; [exact Hp|].
  destruct (smartScore_level dataKey) as [->| ->].
  - exists 0. split; [simpl; tauto | simpl; lia].
  - destruct (Z.ltb_spec 0 (priority m * 9)).
    + exists 9. split; [simpl; tauto | lia].
    + exists 0. split; [simpl; tauto | lia].
Qed.

End ScoreLevels.

(** X23.  For a plain key, the score of a field is 0 when the active
    table does not have the key; otherwise it is the priority of the key
    times 0, 6, 7, 8, 9 or 10.  So with a priority from 7 to 10, as every
    key of the built-in table and of a stored table has, a score is 0 or
    lies between 42 and 100. *)
Theorem calculateMatchScore_levels (f : Field) (dataKey : string) (t : Table)
    (Hplain : plainKey dataKey = true) :
  (FieldMapper.get t dataKey = None -> FieldMapper.calculateMatchScore f dataKey t = 0)
  /\ (forall m, FieldMapper.get t dataKey = Some m -> 0 <= priority m ->
        exists c, In c [0; 6; 7; 8; 9; 10]
                  /\ FieldMapper.calculateMatchScore f dataKey t = priority m * c)
  /\ (forall m, FieldMapper.get t dataKey = Some m -> 7 <= priority m <= 10 ->
        FieldMapper.calculateMatchScore f dataKey t = 0
        \/ 42 <= FieldMapper.calculateMatchScore f dataKey t <= 100).
Proof.
  split; [|split].
  - intros Hget. unfold FieldMapper.calculateMatchScore. now rewrite Hget.
  - intros m Hget Hp. exact (score_levels f m dataKey t Hget Hp).
  - intros m Hget Hp.
    destruct (score_levels f m dataKey t Hget ltac:(lia)) as (c & Hc & ->).
    simpl in Hc. destruct Hc as [<-|[<-|[<-|[<-|[<-|[<-|[]]]]]]]; lia.
Qed.

Lemma calculateMatchScore_levels_witness :
  exists c, In c [0; 6; 7; 8; 9; 10]
            /\ FieldMapper.calculateMatchScore (Sample.named "work mail") "email"
                 (FieldMapper.updateMappings storedTable) = 10 * c.
Proof.
  apply (proj1 (proj2 (calculateMatchScore_levels (Sample.named "work mail") "email"
                         (FieldMapper.updateMappings storedTable) eq_refl))
           (FieldMapper.mk ["e-mail"; "work mail"] 10)); [reflexivity | simpl; lia].
Defined.

(** ** The events of a text fill *)

Section EventFacts.

Variable widgetFill : string -> nat -> string -> M bool.
Variables (p : Page) (i : nat) (e : Element).
Hypothesis Hel : elements p !! i = Some e.
Hypothesis Hfm : focusMethod e = true.
Hypothesis Hfo : focusOk e = true.
Hypothesis Hctl : Html.kind e <> Html.FileName.

Lemma fillTextField_quiet s p' :
  elements p' = elements p -> events p' = events p ->
  exists q, fillTextField i s p' = (Return true, q) /\ events q = events p.
Proof.
  intros Hels Hev. rewrite (fillTextField_ok p' i e) by (rewrite ?Hels; assumption).
  cbv zeta. destruct (held_returns e (assigned e (Js.trim s)) Hctl) as [stored ->].
  eexists. split; [reflexivity|].
  destruct (truncates e (Js.trim s)); exact Hev.
Qed.

Lemma fillTextareaField_quiet s :
  exists q, fillTextareaField i s p = (Return true, q) /\ events q = events p.
Proof.
  rewrite (fillTextareaField_ok p i e) by assumption.
  cbv zeta. destruct (held_returns e (assigned e (Js.trim s)) Hctl) as [stored ->].
  eexists. split; [reflexivity|].
  destruct (truncates e (Js.trim s)); reflexivity.
Qed.

Lemma fillEmailField_quiet v :
  exists q, fillEmailField i v p = (Return true, q) /\ events q = events p.
Proof.
  unfold fillEmailField.
  destruct (emailRegexTest (Js.trim v)).
  - destruct (fillTextField_quiet (Js.trim v) p eq_refl eq_refl) as (q & Hq & Hev).
    exists q. split; [|exact Hev]. apply tryCatch_return. unfold bind, ret. exact Hq.
  - destruct (fillTextField_quiet (Js.trim v)
                (withWarning ("Invalid email format: " +:+ Js.trim v) p) eq_refl eq_refl)
      as (q & Hq & Hev).
    exists q. split; [|exact Hev]. apply tryCatch_return. unfold bind, warn. exact Hq.
Qed.

Lemma fillNumberField_quiet v :
  exists b q, fillNumberField i v p = (Return b, q) /\ events q = events p.
Proof.
  unfold fillNumberField.
  destruct (Num.isNaN (Num.parseFloat v)).
  { exists false. eexists. split; [apply tryCatch_return; reflexivity | reflexivity]. }
  destruct (negb (Js.isEmpty (min e)) && Num.lt (Num.parseFloat v) (Num.parseFloat (min e)))
    eqn:Hmin.
  { exists false. eexists. split.
    - apply tryCatch_return. unfold bind at 1. unfold getElement. rewrite Hel, Hmin.
      reflexivity.
    - reflexivity. }
  destruct (negb (Js.isEmpty (max e)) && Num.gt (Num.parseFloat v) (Num.parseFloat (max e)))
    eqn:Hmax.
  { exists false. eexists. split.
    - apply tryCatch_return. unfold bind at 1. unfold getElement. rewrite Hel, Hmin, Hmax.
      reflexivity.
    - reflexivity. }
  destruct (fillTextField_quiet (Num.toString (Num.parseFloat v)) p eq_refl eq_refl)
    as (q & Hq & Hev).
  exists true, q. split; [|exact Hev].
  apply tryCatch_return. unfold bind at 1. unfold getElement. rewrite Hel, Hmin, Hmax. exact Hq.
Qed.

Lemma setFieldValue_quiet v ty :
  fillsAsText ty = true ->
  exists b q, setFieldValue widgetFill i v ty p = (Return b, q)
              /\ events q = events p
              /\ (ty <> "number" -> b = true).
Proof.
  intros Hty. unfold fillsAsText in Hty. apply negb_true_iff in Hty.
  cbn [existsb] in Hty. apply orb_false_iff in Hty as [Hsel Hwid].
  rewrite orb_false_r in Hwid.
  assert (Hwid' : existsb (String.eqb ty) ["textbox"; "combobox"; "listbox"; "radiogroup"]
                  = false).
  { cbn [existsb]. now rewrite orb_false_r. }
  assert (Hyes : forall m : M bool,
            (exists q, m p = (Return true, q) /\ events q = events p) ->
            exists b q, tryCatch m
                          (fun msg => throw ("Failed to set " +:+ ty +:+ " field value: " +:+ msg)) p
                        = (Return b, q)
                        /\ events q = events p /\ (ty <> "number" -> b = true)).
  { intros m (q & Hq & Hev). exists true, q. split; [now apply tryCatch_return | now split]. }
  unfold setFieldValue. rewrite Hsel, Hwid'.
  destruct (String.eqb ty "textarea"); [apply Hyes, fillTextareaField_quiet|].
  destruct (String.eqb ty "email"); [apply Hyes, fillEmailField_quiet|].
  destruct (String.eqb ty "tel" || String.eqb ty "phone").
  { apply Hyes. rewrite (fillPhoneField_ok p i e) by assumption.
    now apply fillTextField_quiet. }
  destruct (String.eqb ty "number") eqn:Hnum.
  { destruct (fillNumberField_quiet v) as (b & q & Hq & Hev). exists b, q.
    split; [now apply tryCatch_return|]. split; [exact Hev|].
    apply String.eqb_eq in Hnum. congruence. }
  destruct (String.eqb ty "url").
  { apply Hyes. rewrite (fillUrlField_ok p i e) by assumption.
    now apply fillTextField_quiet. }
  apply Hyes. now apply fillTextField_quiet.
Qed.

End EventFacts.

(** X24.  On a control that is in the document, enabled, writable, of
    non-zero size, takes the focus and is no file input, the fill of a
    candidate of any type but select and the role-based widgets does not
    throw.  When it returns
    true the control gets an input event and then a change event, and when
    it returns false no event is dispatched; no other event is dispatched
    in either case.  It returns false only for a number field. *)
Theorem fillSingleField_events
    (widgetFill : string -> nat -> string -> M bool) (mf : MappedField)
    (p : Page) (e : Element)
    (Hel : elements p !! element (field mf) = Some e)
    (Hatt : attached e = true) (Hdis : disabled e = false) (Hro : readOnly e = false)
    (Hw : width e <> 0) (Hh : height e <> 0)
    (Hfm : focusMethod e = true) (Hfo : focusOk e = true)
    (Hctl : Html.kind e <> Html.FileName)
    (Hty : fillsAsText (fieldType (field mf)) = true) :
  exists b q,
    fillSingleField widgetFill mf p = (Return b, q)
    /\ events q
       = events p ++ (if b then [(element (field mf), "input"); (element (field mf), "change")]
                      else [])
    /\ (fieldType (field mf) <> "number" -> b = true).
Proof.
  destruct (setFieldValue_quiet widgetFill p (element (field mf)) e Hel Hfm Hfo Hctl
              (value mf) (fieldType (field mf)) Hty) as (b & q & Hq & Hev & Hb).
  exists b. eexists. split; [|split; [|exact Hb]].
  - exact (fillSingleField_settles widgetFill p mf e Hel Hatt Hdis Hro Hw Hh b q Hq).
  - destruct b; simpl; [now rewrite Hev | now rewrite Hev, app_nil_r].
Qed.

(** A file input refuses a text that is not empty: the assignment
    throws, the candidate is in the errors of the result and skipped, no
    event is dispatched and the control is as it was. *)
Example fill_of_file_input_throws :
  let run := handlePerformAutoFill Sample.widget Sample.env
               (Sample.request {[ "email" := "a@b.com" ]})
               (Sample.page [Sample.input "file" "email" (-1)]) in
  results (fst run)
  = Some {| fieldsDetected := 1; fieldsFilled := 0; fieldsSkipped := 1;
            errors :=
              [{| errField := "email";
                  errError := "Failed to fill field email: Failed to set file field value: Text field fill failed: InvalidStateError" |}];
            warnings := [] |}
  /\ events (snd run) = []
  /\ map elValue (elements (snd run)) = [""].
Proof. vm_compute. auto. Qed.

Lemma fillSingleField_events_witness :
  exists b q,
    fillSingleField Sample.widget
      {| field := Sample.named "email"; dataField := "email"; value := "ann@example.org";
         confidence := 100 |}
      (Sample.page [Sample.input "text" "email" (-1)])
    = (Return b, q)
    /\ events q
       = events (Sample.page [Sample.input "text" "email" (-1)])
         ++ (if b then [(0%nat, "input"); (0%nat, "change")] else [])
    /\ (fieldType (Sample.named "email") <> "number" -> b = true).
Proof.
  apply (fillSingleField_events Sample.widget
           {| field := Sample.named "email"; dataField := "email"; value := "ann@example.org";
              confidence := 100 |}
           (Sample.page [Sample.input "text" "email" (-1)]) (Sample.input "text" "email" (-1)));
    first [reflexivity | discriminate | intros H; vm_compute in H; discriminate H].
Defined.
